(** * Tally dashboard: reconciliation and release engine

    A shallow embedding of the core of the Tally dashboard backend:
    the PostgreSQL schema and its [bill_status] view, the voucher
    ingestion services, the FIFO auto-mapping of receipts, the
    cashier-session close and the release (gatepass) workflow.

    Conventions.
    - A table is the list of its rows, in physical order.
    - [DECIMAL(15,2)] amounts are integers counting hundredths of the
      currency unit ([units 1000] is 1000.00).  Where the JavaScript
      side reads one back through [parseFloat] or compares it with a
      number, the value is taken as exact; where it compares two of
      them with each other, what is compared depends on how the driver
      delivers NUMERIC columns ([numeric_parser]).
    - [DATE] and [TIMESTAMP] values are integers (day and clock ticks).
    - A nullable column, and a JavaScript value that may be
      [undefined] or [null], is an [option].
    - A statement PostgreSQL refuses (a constraint, a column width, the
      types deduced for its parameters, a trigger that raises) leaves the
      tables as they were and makes the caller's [catch] run.
    - The repository creates the schema in two ways: the DDL script,
      with the PL/pgSQL functions and the audit triggers, and
      [createTables], without them.  Where the difference shows, it is a
      parameter ([audit_triggers]). *)

From Stdlib Require Import ZArith List String Bool Lia Permutation.
Import ListNotations.
Local Open Scope Z_scope.
Local Open Scope list_scope.

(* ================================================================= *)
(** * Part I: the program *)
(* ================================================================= *)

Definition money := Z.
Definition date := Z.
Definition timestamp := Z.

Definition units (n : Z) : money := 100 * n.

(** SQL [a = b] used as a condition: false as soon as one side is NULL. *)
Definition sql_eq (a b : option string) : bool :=
  match a, b with
  | Some x, Some y => String.eqb x y
  | _, _ => false
  end.

(** JavaScript truthiness of a string-valued request field. *)
Definition truthy (s : option string) : bool :=
  match s with
  | Some x => negb (String.eqb x "")
  | None => false
  end.

(* ----------------------------------------------------------------- *)
(** ** Schema (the PostgreSQL DDL script) *)

Module bill.
Record row := mk {
  bill_no : string;            (* PRIMARY KEY *)
  bill_date : date;
  party_name : string;
  amount : money;
  last_sync_ts : timestamp;
  created_at : timestamp
}.
End bill.

Module receipt.
Inductive pay_mode := CASH | CHEQUE | DIGITAL.
Record row := mk {
  receipt_id : string;         (* PRIMARY KEY *)
  receipt_date : date;
  party_name : string;
  amount : money;
  mode : pay_mode;
  ref_text : option string;
  bill_reference : option string;
  last_sync_ts : timestamp;
  created_at : timestamp
}.
End receipt.

(** The [bill_status] view. *)
Module bill_status.
Inductive status_t := DUE | PAID | PART_PAID.
Record row := mk {
  bill_no : string;
  bill_date : date;
  party_name : string;
  bill_amount : money;
  receipt_total : money;
  remaining_due : money;
  status : status_t
}.
End bill_status.

(** The grouped sub-select of the view:
    [SELECT bill_reference, SUM(amount) FROM receipt
     WHERE bill_reference IS NOT NULL GROUP BY bill_reference]. *)
Fixpoint add_to_group (k : string) (a : money) (g : list (string * money))
  : list (string * money) :=
  match g with
  | [] => [(k, a)]
  | (k', s) :: g' =>
      if String.eqb k' k then (k', s + a) :: g'
      else (k', s) :: add_to_group k a g'
  end.

Definition receipt_totals (rs : list receipt.row) : list (string * money) :=
  fold_left
    (fun g r =>
       match receipt.bill_reference r with
       | Some k => add_to_group k (receipt.amount r) g
       | None => g
       end)
    rs [].

Fixpoint group_lookup (k : string) (g : list (string * money)) : option money :=
  match g with
  | [] => None
  | (k', s) :: g' => if String.eqb k' k then Some s else group_lookup k g'
  end.

Definition coalesce (v : option money) (d : money) : money :=
  match v with Some x => x | None => d end.

(** One row of the view: the LEFT JOIN of a bill with its group. *)
Definition bill_status_row (g : list (string * money)) (b : bill.row)
  : bill_status.row :=
  let r_total := group_lookup (bill.bill_no b) g in
  {| bill_status.bill_no := bill.bill_no b;
     bill_status.bill_date := bill.bill_date b;
     bill_status.party_name := bill.party_name b;
     bill_status.bill_amount := bill.amount b;
     bill_status.receipt_total := coalesce r_total 0;
     bill_status.remaining_due := bill.amount b - coalesce r_total 0;
     bill_status.status :=
       if coalesce r_total 0 =? 0 then bill_status.DUE
       else if bill.amount b <=? coalesce r_total 0 then bill_status.PAID
       else bill_status.PART_PAID |}.

Definition bill_status_view (bills : list bill.row) (receipts : list receipt.row)
  : list bill_status.row :=
  map (bill_status_row (receipt_totals receipts)) bills.

(** The sum the view is meant to compute: the amounts of the receipts
    whose bill link is [k]. *)
Definition linked_to (k : string) (r : receipt.row) : bool :=
  sql_eq (receipt.bill_reference r) (Some k).

Definition sum_amounts (rs : list receipt.row) : money :=
  fold_right (fun r acc => receipt.amount r + acc) 0 rs.

Definition mapped_total (rs : list receipt.row) (k : string) : money :=
  sum_amounts (filter (linked_to k) rs).

(* ----------------------------------------------------------------- *)
(** ** Remaining tables *)

Module users.
Record row := mk {
  id : string;
  role : string;
  pin_hash : option string;
  active : bool
}.
End users.

Module cashier_session.
Inductive status_t := ACTIVE | CLOSED | APPROVED.
Record row := mk {
  id : string;
  cashier_id : option string;
  start_ts : timestamp;
  end_ts : option timestamp;
  start_float : money;
  counted_cash : option money;
  expected_cash : option money;
  variance : option money;
  closed_by : option string;
  status : status_t
}.
End cashier_session.

Module payment_hint.
Record row := mk {
  bill_no : option string;
  cash_amt : option money;
  cheque_amt : option money;
  digital_amt : option money;
  cashier_id : option string;
  created_at : timestamp
}.
End payment_hint.

Module petty_cash.
Record row := mk {
  session_id : option string;
  amount : money
}.
End petty_cash.

Module till_adjustment.
Inductive type_t := ADD_TO_TILL | REMOVE_FROM_TILL.
Record row := mk {
  session_id : option string;
  type : type_t;
  amount : money
}.
End till_adjustment.

(** The two release tables.  [release_id] and the time stamps are
    generated by the database and play no role below. *)
Module release_self.
Record row := mk {
  bill_no : option string;     (* UNIQUE REFERENCES bill *)
  gatepass_id : string;
  approved_by_manager_id : option string;
  dispatcher_id : string;
  receiver_name : string;
  receiver_phone : option string;
  signature_path : option string;
  photo_path : option string
}.
End release_self.

Module release_transporter.
Record row := mk {
  bill_no : option string;     (* UNIQUE REFERENCES bill *)
  gatepass_id : string;
  approved_by_manager_id : option string;
  dispatcher_id : string;
  transporter_name : string;
  lr_no : string;
  vehicle_no : string;
  driver_name : string;
  driver_phone : string;
  driver_id_type : option string;
  driver_id_last4 : option string;
  pkg_count : Z;
  gross_weight : option money;
  net_weight : option money
}.
End release_transporter.

(** The relational store: the single source of truth. *)
Record store := mk_store {
  t_bill : list bill.row;
  t_receipt : list receipt.row;
  t_users : list users.row;
  t_cashier_session : list cashier_session.row;
  t_payment_hint : list payment_hint.row;
  t_petty_cash : list petty_cash.row;
  t_till_adjustment : list till_adjustment.row;
  t_release_self : list release_self.row;
  t_release_transporter : list release_transporter.row
}.

Definition empty_store : store := mk_store [] [] [] [] [] [] [] [] [].

Definition with_bill (s : store) (t : list bill.row) : store :=
  mk_store t (t_receipt s) (t_users s) (t_cashier_session s)
    (t_payment_hint s) (t_petty_cash s) (t_till_adjustment s)
    (t_release_self s) (t_release_transporter s).

Definition with_receipt (s : store) (t : list receipt.row) : store :=
  mk_store (t_bill s) t (t_users s) (t_cashier_session s)
    (t_payment_hint s) (t_petty_cash s) (t_till_adjustment s)
    (t_release_self s) (t_release_transporter s).

Definition with_cashier_session (s : store) (t : list cashier_session.row)
  : store :=
  mk_store (t_bill s) (t_receipt s) (t_users s) t
    (t_payment_hint s) (t_petty_cash s) (t_till_adjustment s)
    (t_release_self s) (t_release_transporter s).

Definition with_release_self (s : store) (t : list release_self.row) : store :=
  mk_store (t_bill s) (t_receipt s) (t_users s) (t_cashier_session s)
    (t_payment_hint s) (t_petty_cash s) (t_till_adjustment s)
    t (t_release_transporter s).

Definition with_release_transporter (s : store)
  (t : list release_transporter.row) : store :=
  mk_store (t_bill s) (t_receipt s) (t_users s) (t_cashier_session s)
    (t_payment_hint s) (t_petty_cash s) (t_till_adjustment s)
    (t_release_self s) t.

(** [SELECT * FROM bill_status] on a store. *)
Definition bill_status_of (s : store) : list bill_status.row :=
  bill_status_view (t_bill s) (t_receipt s).

(* ----------------------------------------------------------------- *)
(** ** SQL building blocks *)

(** [INSERT ... ON CONFLICT (pk) DO UPDATE SET ...] of one value tuple:
    the row holding the key is rewritten in place, a new row is added at
    the end when no row holds it. *)
Section OnConflict.
Context {Row Val : Type}.
Variable key : Row -> string.
Variable vkey : Val -> string.
Variable ins : timestamp -> Val -> Row.
Variable upd : timestamp -> Val -> Row -> Row.

Definition on_conflict_do_update (now : timestamp) (v : Val)
  (tbl : list Row) : list Row :=
  if existsb (fun b => String.eqb (key b) (vkey v)) tbl
  then map (fun b => if String.eqb (key b) (vkey v) then upd now v b else b)
         tbl
  else tbl ++ [ins now v].
End OnConflict.

(** [ORDER BY]: a stable insertion sort for the order [le]. *)
Fixpoint insert_by {A : Type} (le : A -> A -> bool) (x : A) (l : list A)
  : list A :=
  match l with
  | [] => [x]
  | y :: l' => if le x y then x :: y :: l' else y :: insert_by le x l'
  end.

Definition order_by {A : Type} (le : A -> A -> bool) (l : list A) : list A :=
  fold_right (insert_by le) [] l.

(** [LIMIT 1] followed by the JavaScript test [rows.length > 0]. *)
Definition limit_1 {A : Type} (l : list A) : option A := hd_error l.

(** The outcome of a service call: a value, or a thrown error. *)
Inductive outcome (A : Type) :=
| returned (a : A)
| thrown (msg : string).
Arguments returned {A} a.
Arguments thrown {A} msg.

(** Parameters of a query.  node-postgres sends a parameterised query
    without the types of its parameters, and PostgreSQL deduces the type
    of each [$n] from the places where it occurs.  An occurrence is
    coerced to the type its context asks for; the first coercion fixes
    the type of the parameter, and an occurrence that was read before
    and has to become another type is refused ("inconsistent types
    deduced for parameter $n"). *)
Inductive pg_type := pg_numeric | pg_float8 | pg_uuid.

Definition pg_type_eqb (a b : pg_type) : bool :=
  match a, b with
  | pg_numeric, pg_numeric | pg_float8, pg_float8 | pg_uuid, pg_uuid => true
  | _, _ => false
  end.

Fixpoint deduced (n : nat) (known : list (nat * pg_type)) : option pg_type :=
  match known with
  | [] => None
  | (m, t) :: known' => if (m =? n)%nat then Some t else deduced n known'
  end.

(** The coercions of a statement's parameters, in the order of the
    analysis: the types deduced, or the refusal. *)
Fixpoint deduce_types (coercions known : list (nat * pg_type))
  : outcome (list (nat * pg_type)) :=
  match coercions with
  | [] => returned known
  | (n, t) :: rest =>
      match deduced n known with
      | None => deduce_types rest ((n, t) :: known)
      | Some t' =>
          if pg_type_eqb t t' then deduce_types rest known
          else thrown "inconsistent types deduced for parameter"
      end
  end.

(* ----------------------------------------------------------------- *)
(** ** TallyETL: the ODBC ingestion service (loaded as services/etl) *)

(** Rows of the ODBC result sets; a column may come back NULL. *)
Module tally_bill.
Record row := mk {
  bill_no : option string;
  bill_date : option date;
  party_name : option string;
  amount : option money
}.
End tally_bill.

Module tally_receipt.
Record row := mk {
  receipt_id : option string;
  receipt_date : option date;
  party_name : option string;
  amount : option money;
  mode : receipt.pay_mode;
  ref_text : option string;
  bill_reference : option string
}.
End tally_receipt.

(** The value tuple of the bill INSERT, once the NOT NULL constraints of
    [bill] are checked. *)
Module bill_values.
Record t := mk {
  bill_no : string;
  bill_date : date;
  party_name : string;
  amount : money
}.
End bill_values.

Module receipt_values.
Record t := mk {
  receipt_id : string;
  receipt_date : date;
  party_name : string;
  amount : money;
  mode : receipt.pay_mode;
  ref_text : option string;
  bill_reference : option string
}.
End receipt_values.

Definition bill_not_null (r : tally_bill.row) : option bill_values.t :=
  match tally_bill.bill_no r, tally_bill.bill_date r,
        tally_bill.party_name r, tally_bill.amount r with
  | Some k, Some d, Some p, Some a => Some (bill_values.mk k d p a)
  | _, _, _, _ => None
  end.

Definition receipt_not_null (r : tally_receipt.row) : option receipt_values.t :=
  match tally_receipt.receipt_id r, tally_receipt.receipt_date r,
        tally_receipt.party_name r, tally_receipt.amount r with
  | Some k, Some d, Some p, Some a =>
      Some (receipt_values.mk k d p a (tally_receipt.mode r)
              (tally_receipt.ref_text r) (tally_receipt.bill_reference r))
  | _, _, _, _ => None
  end.

Definition insert_bill (now : timestamp) (v : bill_values.t) : bill.row :=
  bill.mk (bill_values.bill_no v) (bill_values.bill_date v)
    (bill_values.party_name v) (bill_values.amount v) now now.

Definition update_bill (now : timestamp) (v : bill_values.t) (b : bill.row)
  : bill.row :=
  bill.mk (bill.bill_no b) (bill_values.bill_date v)
    (bill_values.party_name v) (bill_values.amount v) now (bill.created_at b).

Definition upsert_bill : timestamp -> bill_values.t -> list bill.row
                         -> list bill.row :=
  on_conflict_do_update bill.bill_no bill_values.bill_no insert_bill update_bill.

Definition insert_receipt (now : timestamp) (v : receipt_values.t)
  : receipt.row :=
  receipt.mk (receipt_values.receipt_id v) (receipt_values.receipt_date v)
    (receipt_values.party_name v) (receipt_values.amount v)
    (receipt_values.mode v) (receipt_values.ref_text v)
    (receipt_values.bill_reference v) now now.

Definition update_receipt (now : timestamp) (v : receipt_values.t)
  (r : receipt.row) : receipt.row :=
  receipt.mk (receipt.receipt_id r) (receipt_values.receipt_date v)
    (receipt_values.party_name v) (receipt_values.amount v)
    (receipt_values.mode v) (receipt_values.ref_text v)
    (receipt_values.bill_reference v) now (receipt.created_at r).

Definition upsert_receipt : timestamp -> receipt_values.t -> list receipt.row
                            -> list receipt.row :=
  on_conflict_do_update receipt.receipt_id receipt_values.receipt_id
    insert_receipt update_receipt.

(** The body of the [for (const row of result)] loop inside the
    transaction: [None] when a statement raises (the caller rolls back). *)
Fixpoint upsert_loop {Src Val Row : Type} (check : Src -> option Val)
  (upsert : Val -> list Row -> list Row) (rows : list Src)
  (tbl : list Row) (syncedCount : Z) : option (list Row * Z) :=
  match rows with
  | [] => Some (tbl, syncedCount)
  | r :: rows' =>
      match check r with
      | Some v => upsert_loop check upsert rows' (upsert v tbl) (syncedCount + 1)
      | None => None
      end
  end.

(** [UPDATE receipt SET bill_reference = $1 WHERE receipt_id = $2]. *)
Definition set_bill_reference (bill_no rid : string) (tbl : list receipt.row)
  : list receipt.row :=
  map (fun r =>
         if String.eqb (receipt.receipt_id r) rid
         then receipt.mk (receipt.receipt_id r) (receipt.receipt_date r)
                (receipt.party_name r) (receipt.amount r) (receipt.mode r)
                (receipt.ref_text r) (Some bill_no)
                (receipt.last_sync_ts r) (receipt.created_at r)
         else r)
    tbl.

(** The [for (const receipt of unmappedReceipts.rows)] loop shared by the
    three services; [choose] is the candidate query together with the
    test that guards the UPDATE. *)
Fixpoint map_loop (choose : store -> receipt.row -> option bill_status.row)
  (rs : list receipt.row) (s : store) (mappedCount : Z) : store * Z :=
  match rs with
  | [] => (s, mappedCount)
  | r :: rs' =>
      match choose s r with
      | Some b =>
          map_loop choose rs'
            (with_receipt s
               (set_bill_reference (bill_status.bill_no b)
                  (receipt.receipt_id r) (t_receipt s)))
            (mappedCount + 1)
      | None => map_loop choose rs' s mappedCount
      end
  end.

Definition by_bill_date (a b : bill_status.row) : bool :=
  bill_status.bill_date a <=? bill_status.bill_date b.

(** [ORDER BY receipt_date, receipt_id]. *)
Definition by_receipt_date_id (a b : receipt.row) : bool :=
  (receipt.receipt_date a <? receipt.receipt_date b)
  || ((receipt.receipt_date a =? receipt.receipt_date b)
      && String.leb (receipt.receipt_id a) (receipt.receipt_id b)).

(** [ORDER BY party_name, receipt_date]. *)
Definition by_party_receipt_date (a b : receipt.row) : bool :=
  match String.compare (receipt.party_name a) (receipt.party_name b) with
  | Lt => true
  | Eq => receipt.receipt_date a <=? receipt.receipt_date b
  | Gt => false
  end.

Definition is_null (v : option string) : bool :=
  match v with None => true | Some _ => false end.

(** What a cycle leaves in the log, and what its promise resolves to. *)
Inductive log_entry :=
| log_skipped                      (* warn: already running *)
| log_no_connection                (* error: could not connect *)
| log_completed (billsCount receiptsCount mappedCount : Z)
| log_failed (msg : string).

Inductive js_value :=
| js_undefined
| js_stats (billsSynced receiptsSynced mappedCount : Z).

(** How the database driver hands a NUMERIC column to JavaScript.  The
    pool is set up in [config/database]; node-postgres delivers NUMERIC
    as its text unless a type parser is registered for it there. *)
Inductive numeric_parser := numeric_as_text | numeric_as_number.

Definition digit (n : Z) : Ascii.ascii :=
  Ascii.ascii_of_nat (48 + Z.to_nat n).

Fixpoint digits (fuel : nat) (n : Z) (acc : string) : string :=
  match fuel with
  | O => acc
  | S fuel' =>
      let acc' := String (digit (n mod 10)) acc in
      if n / 10 =? 0 then acc' else digits fuel' (n / 10) acc'
  end.

Definition decimal (n : Z) : string :=
  digits (S (Z.to_nat (Z.log2 n))) n "".

(** PostgreSQL's text for a [DECIMAL(15,2)] value: [units 500] reads
    500.00. *)
Definition numeric_text (v : money) : string :=
  let sign := if v <? 0 then "-"%string else ""%string in
  let whole := decimal (Z.abs v / 100) in
  let cents :=
    String (digit (Z.abs v mod 100 / 10))
      (String (digit (Z.abs v mod 10)) "") in
  (sign ++ whole ++ "." ++ cents)%string.

(** JavaScript [x >= y] on two values read from NUMERIC columns, that
    is, not [x < y]: numbers are compared as numbers, two strings by
    their code units. *)
Definition js_ge (p : numeric_parser) (x y : money) : bool :=
  match p with
  | numeric_as_number => negb (x <? y)
  | numeric_as_text => negb (String.ltb (numeric_text x) (numeric_text y))
  end.

Module TallyETL.

Definition syncBills (now : timestamp) (result : list tally_bill.row)
  (s : store) : store * outcome Z :=
  match result with
  | [] => (s, returned 0)
  | _ =>
      match upsert_loop bill_not_null (upsert_bill now) result (t_bill s) 0 with
      | Some (tbl, syncedCount) => (with_bill s tbl, returned syncedCount)
      | None => (s, thrown "null value violates not-null constraint")
      end
  end.

Definition syncReceipts (now : timestamp) (result : list tally_receipt.row)
  (s : store) : store * outcome Z :=
  match result with
  | [] => (s, returned 0)
  | _ =>
      match upsert_loop receipt_not_null (upsert_receipt now) result
              (t_receipt s) 0 with
      | Some (tbl, syncedCount) => (with_receipt s tbl, returned syncedCount)
      | None => (s, thrown "null value violates not-null constraint")
      end
  end.

(** [SELECT * FROM receipt WHERE bill_reference IS NULL
     ORDER BY party_name, receipt_date]. *)
Definition unmappedReceipts (s : store) : list receipt.row :=
  order_by by_party_receipt_date
    (filter (fun r => is_null (receipt.bill_reference r)) (t_receipt s)).

(** The oldest unpaid or partially paid bill of the party, dated on or
    before the receipt. *)
Definition candidateBill (s : store) (r : receipt.row)
  : option bill_status.row :=
  limit_1
    (order_by by_bill_date
       (filter
          (fun bs =>
             String.eqb (bill_status.party_name bs) (receipt.party_name r)
             && (0 <? bill_status.remaining_due bs)
             && (bill_status.bill_date bs <=? receipt.receipt_date r))
          (bill_status_of s))).

(** [candidateBill.rows.length > 0 &&
     candidateBill.rows[0].remaining_due >= receipt.amount]: both sides
    are taken from query results as the driver delivers them. *)
Definition choose (p : numeric_parser) (s : store) (r : receipt.row)
  : option bill_status.row :=
  match candidateBill s r with
  | Some c =>
      if js_ge p (bill_status.remaining_due c) (receipt.amount r)
      then Some c
      else None
  | None => None
  end.

Definition autoMapReceipts (p : numeric_parser) (s : store) : store * Z :=
  match unmappedReceipts s with
  | [] => (s, 0)
  | rs => map_loop (choose p) rs s 0
  end.

(** The upstream side of one cycle: whether [connect] succeeds and what
    the two ODBC queries return ([None]: the query is rejected). *)
Record tally := mk_tally {
  connected : bool;
  bills_result : option (list tally_bill.row);
  receipts_result : option (list tally_receipt.row)
}.

(** [runETL]: the store, the [isRunning] flag and the log after the
    call, and the value the call resolves to. *)
Definition runETL (p : numeric_parser) (now_bills now_receipts : timestamp)
  (src : tally) (isRunning : bool) (s : store)
  : store * bool * list log_entry * js_value :=
  if isRunning then (s, isRunning, [log_skipped], js_undefined)
  else if negb (connected src)
  then (s, false, [log_no_connection], js_undefined)
  else
    match bills_result src with
    | None => (s, false, [log_failed "bills query"], js_undefined)
    | Some bills =>
        match syncBills now_bills bills s with
        | (s1, thrown msg) => (s1, false, [log_failed msg], js_undefined)
        | (s1, returned billsCount) =>
            match receipts_result src with
            | None =>
                (s1, false, [log_failed "receipts query"], js_undefined)
            | Some receipts =>
                match syncReceipts now_receipts receipts s1 with
                | (s2, thrown msg) =>
                    (s2, false, [log_failed msg], js_undefined)
                | (s2, returned receiptsCount) =>
                    let (s3, mappedCount) := autoMapReceipts p s2 in
                    (s3, false,
                     [log_completed billsCount receiptsCount mappedCount],
                     js_undefined)
                end
            end
        end
    end.

End TallyETL.

(* ----------------------------------------------------------------- *)
(** ** String helpers of the JavaScript services

    Strings are taken as ASCII: [length] counts characters. *)

Definition char_in (lo hi : nat) (c : Ascii.ascii) : bool :=
  (lo <=? Ascii.nat_of_ascii c)%nat && (Ascii.nat_of_ascii c <=? hi)%nat.

Definition is_digit (c : Ascii.ascii) : bool := char_in 48 57 c.
Definition is_upper (c : Ascii.ascii) : bool := char_in 65 90 c.
Definition is_lower (c : Ascii.ascii) : bool := char_in 97 122 c.

(** [\s] restricted to ASCII. *)
Definition is_space (c : Ascii.ascii) : bool :=
  char_in 9 13 c || char_in 32 32 c.

Definition lower (c : Ascii.ascii) : Ascii.ascii :=
  if is_upper c then Ascii.ascii_of_nat (Ascii.nat_of_ascii c + 32) else c.

Fixpoint toLowerCase (s : string) : string :=
  match s with
  | EmptyString => EmptyString
  | String c s' => String (lower c) (toLowerCase s')
  end.

Fixpoint includes (s sub : string) : bool :=
  String.prefix sub s
  || match s with
     | EmptyString => false
     | String _ s' => includes s' sub
     end.

Fixpoint drop_while (p : Ascii.ascii -> bool) (s : string) : string :=
  match s with
  | EmptyString => EmptyString
  | String c s' => if p c then drop_while p s' else s
  end.

Fixpoint take_while (p : Ascii.ascii -> bool) (s : string) : string :=
  match s with
  | EmptyString => EmptyString
  | String c s' => if p c then String c (take_while p s') else EmptyString
  end.

Fixpoint keep (p : Ascii.ascii -> bool) (s : string) : string :=
  match s with
  | EmptyString => EmptyString
  | String c s' => if p c then String c (keep p s') else keep p s'
  end.

Definition string_drop (n : nat) (s : string) : string :=
  String.substring n (String.length s - n) s.

Definition is_dash (c : Ascii.ascii) : bool := char_in 45 45 c.
Definition is_dot (c : Ascii.ascii) : bool := char_in 46 46 c.
Definition is_colon (c : Ascii.ascii) : bool := char_in 58 58 c.

(** [s.split('-')]. *)
Fixpoint split_dash (s cur : string) : list string :=
  match s with
  | EmptyString => [cur]
  | String c s' =>
      if is_dash c then cur :: split_dash s' EmptyString
      else split_dash s' (cur ++ String c EmptyString)%string
  end.

(** [s.padStart(2, '0')]. *)
Definition padStart2 (s : string) : string :=
  match String.length s with
  | O => "00"%string
  | S O => ("0" ++ s)%string
  | _ => s
  end.

(** [amount.replace(/[^\d.-]/g, '')]. *)
Definition strip_non_numeric (s : string) : string :=
  keep (fun c => is_digit c || is_dot c || is_dash c) s.

(** [narration.match(/bill[:\s]*([A-Z0-9-]+)/i)]: the first capture of
    the leftmost match. *)
Definition is_ref_char (c : Ascii.ascii) : bool :=
  is_upper c || is_lower c || is_digit c || is_dash c.

Fixpoint match_bill_reference (s : string) : option string :=
  match s with
  | EmptyString => None
  | String _ s' =>
      if String.prefix "bill" (toLowerCase s) then
        match take_while is_ref_char
                (drop_while (fun c => is_colon c || is_space c)
                   (string_drop 4 s)) with
        | EmptyString => match_bill_reference s'
        | tok => Some tok
        end
      else match_bill_reference s'
  end.

(** Assignment of a text to a [VARCHAR(n)] column: a longer text is
    refused unless what exceeds [n] characters is spaces, which are cut
    off. *)
Fixpoint all_chars (p : Ascii.ascii -> bool) (s : string) : bool :=
  match s with
  | EmptyString => true
  | String c s' => p c && all_chars p s'
  end.

Definition varchar (n : nat) (s : string) : option string :=
  if (String.length s <=? n)%nat then Some s
  else if all_chars (char_in 32 32) (string_drop n s)
  then Some (String.substring 0 n s)
  else None.

(** The same for a nullable column. *)
Definition varchar_null (n : nat) (s : option string)
  : option (option string) :=
  match s with
  | None => Some None
  | Some x =>
      match varchar n x with
      | Some x' => Some (Some x')
      | None => None
      end
  end.

(** Assignment to a [DECIMAL(15,2)] column: thirteen digits before the
    point, or "numeric field overflow". *)
Definition decimal_15_2 (a : money) : option money :=
  if Z.abs a <? 10 ^ 15 then Some a else None.

(** What the services take from their environment: the current date as
    [new Date().toISOString().split('T')[0]] prints it, JavaScript's
    [parseFloat] ([None] is NaN) and PostgreSQL's reading of a text
    value as a DATE ([None]: invalid input syntax). *)
Record env := mk_env {
  today : string;
  parseFloat : string -> option money;
  pg_date : string -> option date
}.

(** [parseFloat(x) || 0]. *)
Definition parseFloat_or_0 (e : env) (x : string) : money :=
  match parseFloat e x with Some a => a | None => 0 end.

(** The value tuple of an INSERT whose date parameter is a text value. *)
Module text_bill.
Record t := mk {
  bill_no : option string;
  bill_date : string;
  party_name : option string;
  amount : money
}.
End text_bill.

Module text_receipt.
Record t := mk {
  receipt_id : option string;
  receipt_date : string;
  party_name : option string;
  amount : money;
  mode : receipt.pay_mode;
  ref_text : option string;
  bill_reference : option string
}.
End text_receipt.

(** The row the bill INSERT stores for a value tuple, when the table
    accepts it: [bill_no VARCHAR(50)], [bill_date DATE NOT NULL],
    [party_name VARCHAR(200) NOT NULL], [amount DECIMAL(15,2)]. *)
Definition text_bill_check (e : env) (v : text_bill.t) : option bill_values.t :=
  match text_bill.bill_no v, pg_date e (text_bill.bill_date v),
        text_bill.party_name v with
  | Some k, Some d, Some p =>
      match varchar 50 k, varchar 200 p, decimal_15_2 (text_bill.amount v)
      with
      | Some k', Some p', Some a => Some (bill_values.mk k' d p' a)
      | _, _, _ => None
      end
  | _, _, _ => None
  end.

(** The same for the receipt INSERT: [receipt_id VARCHAR(50)],
    [receipt_date DATE NOT NULL], [party_name VARCHAR(200) NOT NULL],
    [amount DECIMAL(15,2)], [ref_text TEXT],
    [bill_reference VARCHAR(50)]. *)
Definition text_receipt_check (e : env) (v : text_receipt.t)
  : option receipt_values.t :=
  match text_receipt.receipt_id v, pg_date e (text_receipt.receipt_date v),
        text_receipt.party_name v with
  | Some k, Some d, Some p =>
      match varchar 50 k, varchar 200 p,
            decimal_15_2 (text_receipt.amount v),
            varchar_null 50 (text_receipt.bill_reference v) with
      | Some k', Some p', Some a, Some link =>
          Some (receipt_values.mk k' d p' a (text_receipt.mode v)
                  (text_receipt.ref_text v) link)
      | _, _, _, _ => None
      end
  | _, _, _ => None
  end.

(** The candidate query shared by the XML and the real-time services:
    [WHERE party_name = $1 AND remaining_due > 0 AND remaining_due >= $2
     ORDER BY bill_date LIMIT 1]. *)
Definition matchingBills (s : store) (r : receipt.row)
  : option bill_status.row :=
  limit_1
    (order_by by_bill_date
       (filter
          (fun bs =>
             String.eqb (bill_status.party_name bs) (receipt.party_name r)
             && (0 <? bill_status.remaining_due bs)
             && (receipt.amount r <=? bill_status.remaining_due bs))
          (bill_status_of s))).

(* ----------------------------------------------------------------- *)
(** ** TallyXMLETL: the XML ingestion service *)

(** One [<VOUCHER>] element of a response, each tag read through
    [extractXMLValue]: the trimmed text of the tag, the empty string
    when the tag is absent. *)
Module xml_voucher.
Record t := mk {
  VOUCHERNUMBER : string;
  DATE : string;
  PARTYLEDGERNAME : string;
  AMOUNT : string;
  REFERENCE : string;
  NARRATION : string
}.
End xml_voucher.

Definition nonempty (s : string) : bool := negb (String.eqb s "").

Module TallyXMLETL.

Definition formatTallyDate (e : env) (tallyDate : string) : string :=
  if (String.length tallyDate =? 8)%nat then
    (String.substring 0 4 tallyDate ++ "-"
     ++ String.substring 4 2 tallyDate ++ "-"
     ++ String.substring 6 2 tallyDate)%string
  else if includes tallyDate "-" then
    match split_dash tallyDate EmptyString with
    | [p0; p1; p2] => (p2 ++ "-" ++ p1 ++ "-" ++ p0)%string
    | _ => today e
    end
  else today e.

(** The four fields a voucher must carry. *)
Definition complete (v : xml_voucher.t) : bool :=
  nonempty (xml_voucher.VOUCHERNUMBER v)
  && nonempty (xml_voucher.DATE v)
  && nonempty (xml_voucher.PARTYLEDGERNAME v)
  && nonempty (xml_voucher.AMOUNT v).

(** [parseVouchersFromXML]: the bills pushed, and the warnings logged
    by the [catch] of the loop body. *)
Fixpoint parseVouchersFromXML (e : env) (matches : list xml_voucher.t)
  : list text_bill.t * list string :=
  match matches with
  | [] => ([], [])
  | v :: rest =>
      let (bills, warnings) := parseVouchersFromXML e rest in
      if complete v then
        (text_bill.mk (Some (xml_voucher.VOUCHERNUMBER v))
           (formatTallyDate e (xml_voucher.DATE v))
           (Some (xml_voucher.PARTYLEDGERNAME v))
           (parseFloat_or_0 e (strip_non_numeric (xml_voucher.AMOUNT v)))
         :: bills, warnings)
      else (bills, warnings)
  end.

Definition mode_of (narration : string) : receipt.pay_mode :=
  if includes (toLowerCase narration) "cheque"
     || includes (toLowerCase narration) "chq"
  then receipt.CHEQUE
  else if includes (toLowerCase narration) "upi"
          || includes (toLowerCase narration) "digital"
          || includes (toLowerCase narration) "neft"
  then receipt.DIGITAL
  else receipt.CASH.

Fixpoint parseReceiptsFromXML (e : env) (matches : list xml_voucher.t)
  : list text_receipt.t * list string :=
  match matches with
  | [] => ([], [])
  | v :: rest =>
      let (receipts, warnings) := parseReceiptsFromXML e rest in
      if complete v then
        let narration := xml_voucher.NARRATION v in
        (text_receipt.mk (Some (xml_voucher.VOUCHERNUMBER v))
           (formatTallyDate e (xml_voucher.DATE v))
           (Some (xml_voucher.PARTYLEDGERNAME v))
           (parseFloat_or_0 e (strip_non_numeric (xml_voucher.AMOUNT v)))
           (if nonempty narration then mode_of narration else receipt.CASH)
           (Some (if nonempty narration then narration
                  else xml_voucher.REFERENCE v))
           (if nonempty narration then match_bill_reference narration
            else None)
         :: receipts, warnings)
      else (receipts, warnings)
  end.

Definition syncBills (e : env) (now : timestamp)
  (xmlResponse : list xml_voucher.t) (s : store)
  : store * outcome Z * list string :=
  let (bills, warnings) := parseVouchersFromXML e xmlResponse in
  match bills with
  | [] => (s, returned 0, warnings)
  | _ =>
      match upsert_loop (text_bill_check e) (upsert_bill now) bills
              (t_bill s) 0 with
      | Some (tbl, syncedCount) =>
          (with_bill s tbl, returned syncedCount, warnings)
      | None => (s, thrown "insert into bill failed", warnings)
      end
  end.

Definition syncReceipts (e : env) (now : timestamp)
  (xmlResponse : list xml_voucher.t) (s : store)
  : store * outcome Z * list string :=
  let (receipts, warnings) := parseReceiptsFromXML e xmlResponse in
  match receipts with
  | [] => (s, returned 0, warnings)
  | _ =>
      match upsert_loop (text_receipt_check e) (upsert_receipt now) receipts
              (t_receipt s) 0 with
      | Some (tbl, syncedCount) =>
          (with_receipt s tbl, returned syncedCount, warnings)
      | None => (s, thrown "insert into receipt failed", warnings)
      end
  end.

(** [SELECT * FROM receipt WHERE bill_reference IS NULL
     ORDER BY receipt_date, receipt_id]. *)
Definition unmappedReceipts (s : store) : list receipt.row :=
  order_by by_receipt_date_id
    (filter (fun r => is_null (receipt.bill_reference r)) (t_receipt s)).

Definition autoMapReceipts (s : store) : store * Z :=
  map_loop matchingBills (unmappedReceipts s) s 0.

Record tally := mk_tally {
  connected : bool;
  bills_response : option (list xml_voucher.t);
  receipts_response : option (list xml_voucher.t)
}.

Definition runETL (e : env) (now_bills now_receipts : timestamp)
  (src : tally) (isRunning : bool) (s : store)
  : store * bool * list log_entry * js_value :=
  if isRunning then (s, isRunning, [log_skipped], js_undefined)
  else if negb (connected src)
  then (s, false, [log_no_connection], js_undefined)
  else
    match bills_response src with
    | None => (s, false, [log_failed "bills request"], js_undefined)
    | Some bills =>
        match syncBills e now_bills bills s with
        | (s1, thrown msg, _) => (s1, false, [log_failed msg], js_undefined)
        | (s1, returned billsCount, _) =>
            match receipts_response src with
            | None =>
                (s1, false, [log_failed "receipts request"], js_undefined)
            | Some receipts =>
                match syncReceipts e now_receipts receipts s1 with
                | (s2, thrown msg, _) =>
                    (s2, false, [log_failed msg], js_undefined)
                | (s2, returned receiptsCount, _) =>
                    let (s3, mappedCount) := autoMapReceipts s2 in
                    (s3, false,
                     [log_completed billsCount receiptsCount mappedCount],
                     js_undefined)
                end
            end
        end
    end.

End TallyXMLETL.

(* ----------------------------------------------------------------- *)
(** ** TallyODBCService: the real-time sync service *)

Module odbc_bill.
Record row := mk {
  bill_no : option string;
  bill_date : option string;
  party_name : option string;
  amount : option string
}.
End odbc_bill.

Module odbc_receipt.
Record row := mk {
  receipt_id : option string;
  receipt_date : option string;
  party_name : option string;
  amount : option string;
  reference : option string;
  narration : option string
}.
End odbc_receipt.

Module TallyODBCService.

Inductive method := odbc | xml | hybrid.

Definition formatTallyDate (e : env) (tallyDate : option string) : string :=
  match tallyDate with
  | None => today e
  | Some d =>
      if negb (nonempty d) then today e
      else if (String.length d =? 8)%nat then
        (String.substring 0 4 d ++ "-" ++ String.substring 4 2 d ++ "-"
         ++ String.substring 6 2 d)%string
      else if includes d "-" then
        match split_dash d EmptyString with
        | [p0; p1; p2] =>
            (p2 ++ "-" ++ padStart2 p1 ++ "-" ++ padStart2 p0)%string
        | _ => today e
        end
      else today e
  end.

Definition amount_of (e : env) (amount : option string) : money :=
  match amount with
  | Some a => parseFloat_or_0 e a
  | None => 0
  end.

Definition bill_params (e : env) (bill : odbc_bill.row) : text_bill.t :=
  text_bill.mk (odbc_bill.bill_no bill)
    (formatTallyDate e (odbc_bill.bill_date bill))
    (odbc_bill.party_name bill)
    (amount_of e (odbc_bill.amount bill)).

Definition syncBillsODBC (e : env) (now : timestamp)
  (results : list odbc_bill.row) (s : store) : store * outcome Z :=
  match results with
  | [] => (s, returned 0)
  | _ =>
      match upsert_loop (fun b => text_bill_check e (bill_params e b))
              (upsert_bill now) results (t_bill s) 0 with
      | Some (tbl, syncedCount) => (with_bill s tbl, returned syncedCount)
      | None => (s, thrown "insert into bill failed")
      end
  end.

Definition mode_of (narration : string) : receipt.pay_mode :=
  if includes (toLowerCase narration) "cheque"
     || includes (toLowerCase narration) "chq"
  then receipt.CHEQUE
  else if includes (toLowerCase narration) "upi"
          || includes (toLowerCase narration) "digital"
  then receipt.DIGITAL
  else receipt.CASH.

Definition receipt_params (e : env) (receipt : odbc_receipt.row)
  : text_receipt.t :=
  let narration :=
    match odbc_receipt.narration receipt with
    | Some n => n
    | None => EmptyString
    end in
  text_receipt.mk (odbc_receipt.receipt_id receipt)
    (formatTallyDate e (odbc_receipt.receipt_date receipt))
    (odbc_receipt.party_name receipt)
    (amount_of e (odbc_receipt.amount receipt))
    (mode_of narration) (Some narration) (match_bill_reference narration).

Definition syncReceiptsODBC (e : env) (now : timestamp)
  (results : list odbc_receipt.row) (s : store) : store * outcome Z :=
  match results with
  | [] => (s, returned 0)
  | _ =>
      match upsert_loop (fun r => text_receipt_check e (receipt_params e r))
              (upsert_receipt now) results (t_receipt s) 0 with
      | Some (tbl, syncedCount) => (with_receipt s tbl, returned syncedCount)
      | None => (s, thrown "insert into receipt failed")
      end
  end.

(** [syncLedgers] only counts the ledgers it is given and turns every
    failure into 0. *)
Definition syncLedgers (results : option (list string)) : Z :=
  match results with
  | Some l => Z.of_nat (List.length l)
  | None => 0
  end.

(** [SELECT * FROM receipt WHERE bill_reference IS NULL
     OR bill_reference = '' ORDER BY receipt_date, receipt_id]. *)
Definition unmappedReceipts (s : store) : list receipt.row :=
  order_by by_receipt_date_id
    (filter
       (fun r =>
          is_null (receipt.bill_reference r)
          || sql_eq (receipt.bill_reference r) (Some EmptyString))
       (t_receipt s)).

Definition autoMapReceipts (s : store) : store * Z :=
  map_loop matchingBills (unmappedReceipts s) s 0.

Record tally := mk_tally {
  odbc_bills : option (list odbc_bill.row);
  odbc_receipts : option (list odbc_receipt.row);
  ledgers : option (list string);
  xml_bills : option (list xml_voucher.t);
  xml_receipts : option (list xml_voucher.t)
}.

Record service := mk_service {
  connectionMethod : option method;
  isRunning : bool;
  lastSyncTime : option timestamp
}.

Inductive sync_log :=
| sync_skipped
| sync_completed (billsCount receiptsCount ledgersCount mappedCount : Z)
| sync_failed (msg : string).

Definition finished (this : service) (t : option timestamp) : service :=
  mk_service (connectionMethod this) false t.

Definition runSync (e : env) (now_bills now_receipts now : timestamp)
  (src : tally) (this : service) (s : store)
  : store * service * list sync_log * js_value :=
  if isRunning this then (s, this, [sync_skipped], js_undefined)
  else
    let failed (s' : store) (msg : string) :=
      (s', finished this (lastSyncTime this), [sync_failed msg],
       js_undefined) in
    let mapped (s' : store) (billsCount receiptsCount ledgersCount : Z) :=
      let (s'', mappedCount) := autoMapReceipts s' in
      (s'', finished this (Some now),
       [sync_completed billsCount receiptsCount ledgersCount mappedCount],
       js_undefined) in
    match connectionMethod this with
    | Some odbc | Some hybrid =>
        match odbc_bills src with
        | None => failed s "ODBC bills query"%string
        | Some bills =>
            match syncBillsODBC e now_bills bills s with
            | (s1, thrown msg) => failed s1 msg
            | (s1, returned billsCount) =>
                match odbc_receipts src with
                | None => failed s1 "ODBC receipts query"%string
                | Some receipts =>
                    match syncReceiptsODBC e now_receipts receipts s1 with
                    | (s2, thrown msg) => failed s2 msg
                    | (s2, returned receiptsCount) =>
                        mapped s2 billsCount receiptsCount
                          (syncLedgers (ledgers src))
                    end
                end
            end
        end
    | _ =>
        match xml_bills src with
        | None => failed s "bills request"%string
        | Some bills =>
            match TallyXMLETL.syncBills e now_bills bills s with
            | (s1, thrown msg, _) => failed s1 msg
            | (s1, returned billsCount, _) =>
                match xml_receipts src with
                | None => failed s1 "receipts request"%string
                | Some receipts =>
                    match TallyXMLETL.syncReceipts e now_receipts receipts s1
                    with
                    | (s2, thrown msg, _) => failed s2 msg
                    | (s2, returned receiptsCount, _) =>
                        mapped s2 billsCount receiptsCount 0
                    end
                end
            end
        end
    end.

End TallyODBCService.

(* ----------------------------------------------------------------- *)
(** ** The audit trigger of the DDL script

    The DDL script installs [audit_trigger()] on [payment_hint],
    [release_self] and [release_transporter], AFTER INSERT OR UPDATE OR
    DELETE, FOR EACH ROW; [createTables] creates the tables without
    triggers.  Whether the triggers are installed is a parameter
    ([audit_triggers]) of the statements on these tables. *)

Module AuditLog.

Inductive tg_op := INSERT | UPDATE | DELETE.

(** A row as PL/pgSQL sees [OLD] and [NEW]: the columns of the table
    that fired the trigger, each with its value as text (NULL is
    [None]). *)
Definition record := list (string * option string).

Fixpoint field (r : record) (name : string) : option (option string) :=
  match r with
  | [] => None
  | (c, v) :: r' => if String.eqb c name then Some v else field r' name
  end.

Module audit_log.
Record row := mk {
  table_name : string;
  record_id : string;
  action : string;
  old_values : option record;
  new_values : option record
}.
End audit_log.

(** [INSERT INTO audit_log(table_name, record_id, action, ...)] with
    [record_id] read from the field [id] of [r]: the reference fails on
    a record without that field, and the NOT NULL column refuses a NULL. *)
Definition log (tg_table_name : string) (r : record) (action : string)
  (old_values new_values : option record) : outcome audit_log.row :=
  match field r "id" with
  | None => thrown "record has no field id"
  | Some None => thrown "null value in column record_id"
  | Some (Some id) =>
      match varchar 50 tg_table_name, varchar 100 id with
      | Some t, Some i =>
          returned (audit_log.mk t i action old_values new_values)
      | _, _ => thrown "value too long"
      end
  end.

(** [audit_trigger()], fired AFTER INSERT OR UPDATE OR DELETE FOR EACH
    ROW. *)
Definition audit_trigger (op : tg_op) (tg_table_name : string)
  (old new : record) : outcome audit_log.row :=
  match op with
  | DELETE => log tg_table_name old "DELETE" (Some old) None
  | UPDATE => log tg_table_name new "UPDATE" (Some old) (Some new)
  | INSERT => log tg_table_name new "INSERT" None (Some new)
  end.

(** The columns of the three tables that carry the trigger. *)
Definition payment_hint_columns : list string :=
  ["id"; "bill_no"; "cash_amt"; "cheque_amt"; "cheque_no"; "bank";
   "digital_amt"; "digital_ref"; "remaining_due"; "cashier_id"; "notes";
   "created_at"]%string.

Definition release_self_columns : list string :=
  ["release_id"; "bill_no"; "gatepass_id"; "approved_by_manager_id";
   "dispatcher_id"; "receiver_name"; "receiver_phone"; "signature_path";
   "photo_path"; "released_ts"; "created_at"]%string.

Definition release_transporter_columns : list string :=
  ["release_id"; "bill_no"; "gatepass_id"; "approved_by_manager_id";
   "dispatcher_id"; "transporter_name"; "lr_no"; "vehicle_no";
   "driver_name"; "driver_phone"; "driver_id_type"; "driver_id_last4";
   "pkg_count"; "gross_weight"; "net_weight"; "pickup_ts"; "pod_uploaded";
   "pod_path"; "delivered_ts"; "created_at"]%string.

(** Whether the trigger raises on every row of a table with the columns
    [cols]: it does when the row type has no field [id]. *)
Definition raises_on (cols : list string) : bool :=
  negb (existsb (String.eqb "id") cols).

End AuditLog.

(* ----------------------------------------------------------------- *)
(** ** Cashier session close *)

Module Session.

(** PostgreSQL's [plpgsql.variable_conflict]: what a name means inside
    a PL/pgSQL function when it is both a parameter and a column.  The
    default is to raise an error. *)
Inductive variable_conflict := conflict_error | use_variable | use_column.

Definition between (x lo hi : timestamp) : bool := (lo <=? x) && (x <=? hi).

Definition sum_money (l : list money) : money := fold_right Z.add 0 l.

(** [SUM] skips NULLs. *)
Definition sum_nullable (l : list (option money)) : money :=
  sum_money (map (fun v => coalesce v 0) l).

Definition find_session (s : store) (session_id : string)
  : option cashier_session.row :=
  find (fun cs => String.eqb (cashier_session.id cs) session_id)
    (t_cashier_session s).

(** [SELECT COALESCE(SUM(ph.cash_amt), 0) FROM payment_hint ph
     JOIN cashier_session cs ON ph.cashier_id = cs.cashier_id
     WHERE cs.id = session_id AND ph.created_at BETWEEN cs.start_ts
           AND COALESCE(cs.end_ts, CURRENT_TIMESTAMP)]. *)
Definition cash_in (now : timestamp) (s : store) (session_id : string)
  : money :=
  sum_money
    (flat_map
       (fun cs =>
          if String.eqb (cashier_session.id cs) session_id then
            map (fun ph => coalesce (payment_hint.cash_amt ph) 0)
              (filter
                 (fun ph =>
                    sql_eq (payment_hint.cashier_id ph)
                      (cashier_session.cashier_id cs)
                    && between (payment_hint.created_at ph)
                         (cashier_session.start_ts cs)
                         (match cashier_session.end_ts cs with
                          | Some t => t
                          | None => now
                          end))
                 (t_payment_hint s))
          else [])
       (t_cashier_session s)).

(** The condition [session_id = session_id] of the petty-cash and
    till-adjustment queries of [calculate_expected_cash(session_id)]:
    read as the parameter on both sides it holds of every row, read as
    the column on both sides it holds of every row whose [session_id]
    is not NULL. *)
Definition session_id_eq_session_id (vc : variable_conflict)
  (column : option string) : bool :=
  match vc with
  | use_column => negb (is_null column)
  | _ => true
  end.

Definition petty_out (vc : variable_conflict) (s : store) : money :=
  sum_money
    (map petty_cash.amount
       (filter (fun p => session_id_eq_session_id vc (petty_cash.session_id p))
          (t_petty_cash s))).

Definition adjustments (vc : variable_conflict) (s : store) : money :=
  sum_money
    (map
       (fun a =>
          match till_adjustment.type a with
          | till_adjustment.ADD_TO_TILL => till_adjustment.amount a
          | till_adjustment.REMOVE_FROM_TILL => - till_adjustment.amount a
          end)
       (filter
          (fun a => session_id_eq_session_id vc (till_adjustment.session_id a))
          (t_till_adjustment s))).

(** [calculate_expected_cash(session_id)]; the result is NULL when the
    session does not exist. *)
Definition calculate_expected_cash (vc : variable_conflict)
  (now : timestamp) (s : store) (session_id : string)
  : outcome (option money) :=
  match vc with
  | conflict_error => thrown "column reference session_id is ambiguous"
  | _ =>
      returned
        (match find_session s session_id with
         | Some cs =>
             Some (cashier_session.start_float cs + cash_in now s session_id
                   - petty_out vc s + adjustments vc s)
         | None => None
         end)
  end.

(** The close request: the [:session_id] of the path, the body, the
    authenticated cashier. *)
Record request := mk_request {
  session_id : string;
  counted_cash : option money;
  denominations : bool;          (* the body carries a denominations object *)
  user_id : string
}.

(** What the middlewares leave on [req]. *)
Record annotations := mk_annotations {
  requiresApproval : bool;
  req_variance : option money;
  req_expectedCash : option money
}.

Inductive response :=
| json_error (status : Z) (error : string)
| closed (session : option cashier_session.row) (variance expectedCash : money)
    (requiresApproval : bool).

(** [parseFloat(process.env.CASH_VARIANCE_THRESHOLD || '100')]. *)
Definition varianceThreshold (configured : option money) : money :=
  match configured with
  | Some t => t
  | None => units 100
  end.

(** Payment hints of the cashier since the session start whose bill is
    PAID and has no release of either kind. *)
Definition unreleasedPaid (now : timestamp) (s : store)
  (cs : cashier_session.row) : list payment_hint.row :=
  filter
    (fun ph =>
       sql_eq (payment_hint.cashier_id ph) (cashier_session.cashier_id cs)
       && between (payment_hint.created_at ph) (cashier_session.start_ts cs) now
       && existsb
            (fun bs =>
               sql_eq (payment_hint.bill_no ph) (Some (bill_status.bill_no bs))
               && match bill_status.status bs with
                  | bill_status.PAID => true
                  | _ => false
                  end)
            (bill_status_of s)
       && negb (existsb
                  (fun rs => sql_eq (payment_hint.bill_no ph)
                               (release_self.bill_no rs))
                  (t_release_self s))
       && negb (existsb
                  (fun rt => sql_eq (payment_hint.bill_no ph)
                               (release_transporter.bill_no rt))
                  (t_release_transporter s)))
    (t_payment_hint s).

Definition validateSessionClose (now : timestamp) (s : store) (req : request)
  : cashier_session.row + response :=
  match find_session s (session_id req) with
  | None => inr (json_error 404 "Session not found")
  | Some cs =>
      match cashier_session.status cs with
      | cashier_session.ACTIVE =>
          match unreleasedPaid now s cs with
          | [] => inl cs
          | _ => inr (json_error 400
                        "Cannot close session with unreleased paid bills")
          end
      | _ => inr (json_error 400 "Session already closed")
      end
  end.

Definition validateCashVariance (vc : variable_conflict)
  (configured : option money) (now : timestamp) (s : store) (req : request)
  : annotations + response :=
  match calculate_expected_cash vc now s (session_id req) with
  | thrown _ => inr (json_error 500 "Variance validation failed")
  | returned result =>
      let expectedCash := coalesce result 0 in
      match counted_cash req with
      | None =>             (* the variance is NaN: no comparison holds *)
          inl (mk_annotations false None None)
      | Some counted =>
          let variance := counted - expectedCash in
          if varianceThreshold configured <? Z.abs variance
          then inl (mk_annotations true (Some variance) (Some expectedCash))
          else inl (mk_annotations false None None)
      end
  end.

(** [UPDATE cashier_session SET end_ts = CURRENT_TIMESTAMP, counted_cash = $1,
     expected_cash = $2, variance = $3, closed_by = $4,
     status = CASE WHEN ABS($3) > $5 THEN 'CLOSED' ELSE 'CLOSED' END
     WHERE id = $6 RETURNING *]: what the statement stores in a row once
    PostgreSQL has accepted it; both arms of the CASE yield 'CLOSED'. *)
Definition close_row (now : timestamp) (counted : option money)
  (expectedCash variance : money) (closed_by : string)
  (cs : cashier_session.row) : cashier_session.row :=
  cashier_session.mk (cashier_session.id cs) (cashier_session.cashier_id cs)
    (cashier_session.start_ts cs) (Some now) (cashier_session.start_float cs)
    counted (Some expectedCash) (Some variance) (Some closed_by)
    cashier_session.CLOSED.

Definition update_session (now : timestamp) (counted : option money)
  (expectedCash variance : money) (closed_by session_id : string)
  (tbl : list cashier_session.row) : list cashier_session.row :=
  map (fun cs =>
         if String.eqb (cashier_session.id cs) session_id
         then close_row now counted expectedCash variance closed_by cs
         else cs)
    tbl.

(** The parameters of that UPDATE as PostgreSQL analyses them.  All the
    SET sources are analysed before any is assigned to its column: the
    CASE coerces [$3] to double precision, the type [ABS] takes for an
    argument of unknown type, and [$5] with it; then the assignments
    coerce [$1], [$2] and [$3] to the NUMERIC of their columns and [$4]
    to a UUID, and the WHERE clause [$6]. *)
Definition close_update_parameters : list (nat * pg_type) :=
  [(3, pg_float8); (5, pg_float8);
   (1, pg_numeric); (2, pg_numeric); (3, pg_numeric); (4, pg_uuid);
   (6, pg_uuid)]%nat.

(** The route handler: the UPDATE, then the audit INSERT of the
    denominations, whose action 'CLOSE' the CHECK on [audit_log.action]
    refuses.  A statement the database refuses makes the handler answer
    500; what an earlier statement has stored stays. *)
Definition close_handler (now : timestamp) (s : store) (req : request)
  (ann : annotations) : response * store :=
  let expectedCash := coalesce (req_expectedCash ann) 0 in
  let variance := coalesce (req_variance ann) 0 in
  match deduce_types close_update_parameters [] with
  | thrown _ => (json_error 500 "Failed to close session", s)
  | returned _ =>
      let tbl :=
        update_session now (counted_cash req) expectedCash variance
          (user_id req) (session_id req) (t_cashier_session s) in
      let s' := with_cashier_session s tbl in
      if denominations req
      then (json_error 500 "Failed to close session", s')
      else (closed (find_session s' (session_id req)) variance expectedCash
              (requiresApproval ann), s')
  end.

(** [POST /session/:session_id/close]. *)
Definition close (vc : variable_conflict) (configured : option money)
  (now : timestamp) (req : request) (s : store) : response * store :=
  match validateSessionClose now s req with
  | inr resp => (resp, s)
  | inl _ =>
      match validateCashVariance vc configured now s req with
      | inr resp => (resp, s)
      | inl ann => close_handler now s req ann
      end
  end.

End Session.

(* ----------------------------------------------------------------- *)
(** ** Release workflow (middleware/businessRules.js, routes/dispatch.js) *)

Module Release.

(** The body of a release request; an absent field is [None]. *)
Record body_t := mk_body {
  bill_no : option string;
  gatepass_id : option string;
  manager_pin : option string;
  otp_verified : bool;           (* truthiness of the field *)
  receiver_name : option string;
  receiver_phone : option string;
  transporter_name : option string;
  lr_no : option string;
  vehicle_no : option string;
  driver_name : option string;
  driver_phone : option string;
  driver_id_type : option string;
  driver_id_last4 : option string;
  pkg_count : option Z;
  gross_weight : option money;
  net_weight : option money
}.

(** A request as the middlewares see it.  [has_params] tells whether
    [req.params] is an object; the paths [/release/self] and
    [/release/transporter] have no parameter, so such an object has
    no [bill_no]. *)
Record request := mk_request {
  has_params : bool;
  body : body_t;
  user_id : string;              (* req.user.id *)
  signature_file : option string;
  photo_file : option string
}.

(** [const { bill_no } = req.params || req.body]. *)
Definition params_or_body_bill_no (req : request) : option string :=
  if has_params req then None else bill_no (body req).

Inductive response :=
| json_error (status : Z) (error : string)
| released_self (release : release_self.row)
| released_transporter (release : release_transporter.row).

(** The statements sent to the database, each with the connection it
    is sent on: the shared pool, or the client that holds the
    transaction. *)
Inductive connection := pool | dbClient.

Inductive statement :=
| SELECT_bill_status (bill_no : option string)
| SELECT_release_by_bill (bill_no : option string)
| SELECT_release_by_gatepass (gatepass_id : option string)
| BEGIN
| SELECT_bill_FOR_UPDATE (bill_no : option string)
| SELECT_managers
| SELECT_pin_hash (id : string)
| INSERT_release_self
| INSERT_release_transporter
| COMMIT
| ROLLBACK.

Definition event := (connection * statement)%type.

(** A middleware either calls [next()] with a value or sends a
    response; it logs the statements it issues on the way. *)
Definition M (A : Type) : Type := (list event * (A + response))%type.

Definition next {A : Type} (a : A) : M A := ([], inl a).
Definition send {A : Type} (r : response) : M A := ([], inr r).
Definition query (c : connection) (q : statement) : M unit := ([(c, q)], inl tt).

Definition bind {A B : Type} (m : M A) (k : A -> M B) : M B :=
  match m with
  | (t, inl a) => let (t', r) := k a in (t ++ t', r)
  | (t, inr resp) => (t, inr resp)
  end.

Notation "x <- m ;; k" := (bind m (fun x => k))
  (at level 61, m at next level, right associativity).
Notation "m ;;; k" := (bind m (fun _ => k))
  (at level 61, right associativity).

Definition has_release (s : store) (bill_no : option string) : bool :=
  existsb (fun r => sql_eq (release_self.bill_no r) bill_no) (t_release_self s)
  || existsb (fun r => sql_eq (release_transporter.bill_no r) bill_no)
       (t_release_transporter s).

(** [WHERE gatepass_id = $1] over both tables: the text of the request
    against the texts stored. *)
Definition gatepass_used (s : store) (gatepass_id : option string) : bool :=
  existsb (fun r => sql_eq (Some (release_self.gatepass_id r)) gatepass_id)
    (t_release_self s)
  || existsb
       (fun r => sql_eq (Some (release_transporter.gatepass_id r)) gatepass_id)
       (t_release_transporter s).

Definition validateRelease (req : request) (s : store) : M bill_status.row :=
  let bill_no := params_or_body_bill_no req in
  query pool (SELECT_bill_status bill_no) ;;;
  match find (fun bs => sql_eq (Some (bill_status.bill_no bs)) bill_no)
          (bill_status_of s) with
  | None => send (json_error 404 "Bill not found")
  | Some bill =>
      query pool (SELECT_release_by_bill bill_no) ;;;
      if has_release s bill_no
      then send (json_error 400 "Bill already released")
      else if (0 <? bill_status.remaining_due bill)
              && negb (truthy (manager_pin (body req)))
              && negb (otp_verified (body req))
      then send (json_error 400
                   "Outstanding due requires manager PIN or customer OTP")
      else next bill
  end.

Definition validateGatepassId (req : request) (s : store) : M unit :=
  query pool (SELECT_release_by_gatepass (gatepass_id (body req))) ;;;
  if gatepass_used s (gatepass_id (body req))
  then send (json_error 400 "Gatepass ID already used")
  else next tt.

Definition enforceUniqueRelease (req : request) (s : store) : M unit :=
  let bill_no := params_or_body_bill_no req in
  query dbClient BEGIN ;;;
  query dbClient (SELECT_bill_FOR_UPDATE bill_no) ;;;
  query dbClient (SELECT_release_by_bill bill_no) ;;;
  if has_release s bill_no
  then query dbClient ROLLBACK ;;;
       send (json_error 400 "Bill already has a release record")
  else next tt.

Section Handlers.
(** [bcrypt.compare(pin, hash)]. *)
Variable bcrypt_compare : string -> string -> bool.
(** Whether the audit triggers of the DDL script are installed. *)
Variable audit_triggers : bool.

(** The loop over the active managers: the statements issued and the
    first manager whose PIN hash matches. *)
Fixpoint find_approver (manager_pin : string) (managers : list users.row)
  : list event * option string :=
  match managers with
  | [] => ([], None)
  | m :: rest =>
      if truthy (users.pin_hash m)
         && bcrypt_compare manager_pin
              (match users.pin_hash m with Some h => h | None => EmptyString end)
      then ([(pool, SELECT_pin_hash (users.id m))], Some (users.id m))
      else
        let (t, r) := find_approver manager_pin rest in
        ((pool, SELECT_pin_hash (users.id m)) :: t, r)
  end.

Definition active_managers (s : store) : list users.row :=
  filter (fun u => String.eqb (users.role u) "MANAGER" && users.active u)
    (t_users s).

(** The approval block common to both handlers: the approving
    manager, if any, or the rejection. *)
Definition approval (req : request) (billData : bill_status.row) (s : store)
  : M (option string) :=
  if 0 <? bill_status.remaining_due billData then
    match manager_pin (body req) with
    | Some pin =>
        if truthy (Some pin) then
          query pool SELECT_managers ;;;
          let (t, approvedBy) := find_approver pin (active_managers s) in
          match (if truthy approvedBy then approvedBy else None) with
          | Some id => (t, inl (Some id))
          | None =>
              (t ++ [(dbClient, ROLLBACK)],
               inr (json_error 400 "Invalid manager PIN"))
          end
        else if otp_verified (body req) then next None
        else query dbClient ROLLBACK ;;;
             send (json_error 400
                     "Outstanding due requires manager PIN or verified OTP")
    | None =>
        if otp_verified (body req) then next None
        else query dbClient ROLLBACK ;;;
             send (json_error 400
                     "Outstanding due requires manager PIN or verified OTP")
    end
  else next None.

Definition references_bill (s : store) (bill_no : option string) : bool :=
  match bill_no with
  | None => true
  | Some b => existsb (fun x => String.eqb (bill.bill_no x) b) (t_bill s)
  end.

Definition references_user (s : store) (id : option string) : bool :=
  match id with
  | None => true
  | Some u => existsb (fun x => String.eqb (users.id x) u) (t_users s)
  end.

(** Assignment to an [INTEGER] column, and to a nullable
    [DECIMAL(10,2)] column. *)
Definition int4 (n : Z) : option Z :=
  if (- 2 ^ 31 <=? n) && (n <? 2 ^ 31) then Some n else None.

Definition decimal_10_2_null (a : option money) : option (option money) :=
  match a with
  | None => Some None
  | Some x => if Z.abs x <? 10 ^ 10 then Some (Some x) else None
  end.

(** [INSERT INTO release_self (...) VALUES (...) RETURNING *]: the row
    stored, when nothing refuses it: the NOT NULL columns, the widths of
    the VARCHAR columns (what exceeds them must be spaces, which are cut
    off), UNIQUE (bill_no), the foreign keys, and the audit trigger,
    which raises on this table. *)
Definition insert_release_self (req : request) (approvedBy : option string)
  (s : store) : option release_self.row :=
  match gatepass_id (body req), receiver_name (body req) with
  | Some g, Some rn =>
      match varchar_null 50 (bill_no (body req)), varchar 50 g,
            varchar 100 rn, varchar_null 20 (receiver_phone (body req)),
            varchar_null 500 (signature_file req),
            varchar_null 500 (photo_file req) with
      | Some b, Some g', Some rn', Some phone, Some signature, Some photo =>
          if negb (existsb (fun r => sql_eq (release_self.bill_no r) b)
                     (t_release_self s))
             && references_bill s b
             && references_user s approvedBy
             && references_user s (Some (user_id req))
             && negb (audit_triggers
                      && AuditLog.raises_on AuditLog.release_self_columns)
          then Some (release_self.mk b g' approvedBy (user_id req) rn'
                       phone signature photo)
          else None
      | _, _, _, _, _, _ => None
      end
  | _, _ => None
  end.

Definition driver_id_type_ok (t : option string) : bool :=
  match t with
  | None => true
  | Some x => String.eqb x "AADHAR" || String.eqb x "PAN"
              || String.eqb x "LICENSE"
  end.

(** The value tuple of the transporter INSERT, each column assigned to
    its type. *)
Definition transporter_values (req : request) (approvedBy : option string)
  : option release_transporter.row :=
  match gatepass_id (body req), transporter_name (body req),
        lr_no (body req), vehicle_no (body req), driver_name (body req),
        driver_phone (body req), pkg_count (body req) with
  | Some g, Some tn, Some lr, Some vn, Some dn, Some dp, Some pc =>
      match varchar_null 50 (bill_no (body req)), varchar 50 g,
            varchar 100 tn, varchar 50 lr with
      | Some b, Some g', Some tn', Some lr' =>
          match varchar 20 vn, varchar 100 dn, varchar 20 dp,
                varchar_null 20 (driver_id_type (body req)) with
          | Some vn', Some dn', Some dp', Some idt =>
              match varchar_null 4 (driver_id_last4 (body req)), int4 pc,
                    decimal_10_2_null (gross_weight (body req)),
                    decimal_10_2_null (net_weight (body req)) with
              | Some last4, Some pc', Some gw, Some nw =>
                  Some (release_transporter.mk b g' approvedBy (user_id req)
                          tn' lr' vn' dn' dp' idt last4 pc' gw nw)
              | _, _, _, _ => None
              end
          | _, _, _, _ => None
          end
      | _, _, _, _ => None
      end
  | _, _, _, _, _, _, _ => None
  end.

(** [INSERT INTO release_transporter (...) VALUES (...) RETURNING *]. *)
Definition insert_release_transporter (req : request)
  (approvedBy : option string) (s : store)
  : option release_transporter.row :=
  match transporter_values req approvedBy with
  | Some row =>
      if negb (existsb
                 (fun r => sql_eq (release_transporter.bill_no r)
                             (release_transporter.bill_no row))
                 (t_release_transporter s))
         && references_bill s (release_transporter.bill_no row)
         && references_user s approvedBy
         && references_user s (Some (user_id req))
         && driver_id_type_ok (release_transporter.driver_id_type row)
         && negb (audit_triggers
                  && AuditLog.raises_on AuditLog.release_transporter_columns)
      then Some row
      else None
  | None => None
  end.

Definition self_handler (req : request) (billData : bill_status.row)
  (s : store) : M release_self.row :=
  approvedBy <- approval req billData s ;;
  query dbClient INSERT_release_self ;;;
  match insert_release_self req approvedBy s with
  | Some row => query dbClient COMMIT ;;; next row
  | None => query dbClient ROLLBACK ;;;
            send (json_error 500 "Failed to release bill")
  end.

Definition transporter_handler (req : request) (billData : bill_status.row)
  (s : store) : M release_transporter.row :=
  approvedBy <- approval req billData s ;;
  query dbClient INSERT_release_transporter ;;;
  match insert_release_transporter req approvedBy s with
  | Some row => query dbClient COMMIT ;;; next row
  | None => query dbClient ROLLBACK ;;;
            send (json_error 500 "Failed to release bill to transporter")
  end.

(** [POST /release/self]: the statements issued, the response and
    the store afterwards. *)
Definition release_self (req : request) (s : store)
  : list event * response * store :=
  match (billData <- validateRelease req s ;;
         validateGatepassId req s ;;;
         enforceUniqueRelease req s ;;;
         self_handler req billData s) with
  | (t, inl row) =>
      (t, released_self row,
       with_release_self s (t_release_self s ++ [row]))
  | (t, inr resp) => (t, resp, s)
  end.

(** [POST /release/transporter]. *)
Definition release_transporter (req : request) (s : store)
  : list event * response * store :=
  match (billData <- validateRelease req s ;;
         validateGatepassId req s ;;;
         enforceUniqueRelease req s ;;;
         transporter_handler req billData s) with
  | (t, inl row) =>
      (t, released_transporter row,
       with_release_transporter s (t_release_transporter s ++ [row]))
  | (t, inr resp) => (t, resp, s)
  end.

(** A release attempt on either route, and a sequence of attempts
    served one after the other. *)
Inductive attempt :=
| self (req : request)
| transporter (req : request).

Definition request_of (a : attempt) : request :=
  match a with self r => r | transporter r => r end.

Definition serve (a : attempt) (s : store) : list event * response * store :=
  match a with
  | self req => release_self req s
  | transporter req => release_transporter req s
  end.

Fixpoint serve_all (l : list attempt) (s : store) : list response * store :=
  match l with
  | [] => ([], s)
  | a :: l' =>
      let '(_, resp, s1) := serve a s in
      let (resps, s2) := serve_all l' s1 in
      (resp :: resps, s2)
  end.
End Handlers.

(** The bill numbers and the gatepass identifiers of the release
    records, over both tables. *)
Definition released_bills (s : store) : list (option string) :=
  map release_self.bill_no (t_release_self s)
  ++ map release_transporter.bill_no (t_release_transporter s).

Definition gatepasses (s : store) : list string :=
  map release_self.gatepass_id (t_release_self s)
  ++ map release_transporter.gatepass_id (t_release_transporter s).

(** The number of release records of a bill. *)
Definition releases_of (s : store) (b : string) : nat :=
  List.length (filter (fun x => sql_eq x (Some b)) (released_bills s)).

Definition is_error (r : response) : bool :=
  match r with json_error _ _ => true | _ => false end.

End Release.

(* ----------------------------------------------------------------- *)
(** ** OTPService: customer OTPs for due releases (services/otp.js) *)

Module customer_otp.
Record row := mk {
  id : string;                 (* PRIMARY KEY, generated *)
  bill_no : option string;     (* REFERENCES bill(bill_no) *)
  phone : string;              (* VARCHAR(20) NOT NULL *)
  otp_code : string;           (* VARCHAR(6) NOT NULL *)
  expires_at : timestamp;      (* NOT NULL *)
  verified : bool;             (* DEFAULT FALSE *)
  created_at : timestamp       (* DEFAULT CURRENT_TIMESTAMP *)
}.
End customer_otp.

Module OTPService.

(** [this.expiryMinutes * 60 * 1000]: the clock counts milliseconds. *)
Definition expiryMinutes : Z := 10.

(** [crypto.randomInt(100000, 999999).toString()], [draw] being the
    integer drawn. *)
Definition generateOTP (draw : Z) : string := decimal draw.

(** What [createOTP] resolves to (the message apart). *)
Record created := mk_created {
  id : string;
  phone : option string;
  expiresAt : timestamp
}.

(** [DELETE FROM customer_otp WHERE bill_no = $1]. *)
Definition delete_for_bill (billNo : option string)
  (tbl : list customer_otp.row) : list customer_otp.row :=
  filter (fun r => negb (sql_eq (customer_otp.bill_no r) billNo)) tbl.

(** [INSERT INTO customer_otp (bill_no, phone, otp_code, expires_at)
     VALUES ($1, $2, $3, $4) RETURNING id]: the row, when the
    constraints of the table accept it; [new_id] is the key the
    database generates, [db_now] its clock. *)
Definition insert_otp (new_id : string) (db_now : timestamp)
  (bills : list bill.row) (billNo phone : option string) (otp : string)
  (expiresAt : timestamp) (tbl : list customer_otp.row)
  : option customer_otp.row :=
  match phone with
  | None => None
  | Some ph =>
      match varchar 20 ph, varchar 6 otp with
      | Some ph', Some otp' =>
          if negb (existsb (fun r => String.eqb (customer_otp.id r) new_id)
                     tbl)
             && match billNo with
                | None => true
                | Some b =>
                    existsb (fun x => String.eqb (bill.bill_no x) b) bills
                end
          then Some (customer_otp.mk new_id billNo ph' otp' expiresAt false
                       db_now)
          else None
      | _, _ => None
      end
  end.

(** [createOTP(billNo, phone)]: the table afterwards and the result.
    The DELETE and the INSERT are two statements on the pool: when the
    INSERT is refused the DELETE has been made. *)
Definition createOTP (draw : Z) (now db_now : timestamp) (new_id : string)
  (bills : list bill.row) (billNo phone : option string)
  (tbl : list customer_otp.row)
  : list customer_otp.row * outcome created :=
  let otp := generateOTP draw in
  let expiresAt := now + expiryMinutes * 60 * 1000 in
  let tbl1 := delete_for_bill billNo tbl in
  match insert_otp new_id db_now bills billNo phone otp expiresAt tbl1 with
  | Some row =>
      (tbl1 ++ [row], returned (mk_created new_id phone expiresAt))
  | None => (tbl1, thrown "insert into customer_otp failed")
  end.

Inductive verification :=
| valid (phone : string)
| invalid (error : string).

(** [WHERE bill_no = $1 AND otp_code = $2]. *)
Definition matching (billNo otpCode : option string) (r : customer_otp.row)
  : bool :=
  sql_eq (customer_otp.bill_no r) billNo
  && sql_eq (Some (customer_otp.otp_code r)) otpCode.

Definition set_verified (r : customer_otp.row) : customer_otp.row :=
  customer_otp.mk (customer_otp.id r) (customer_otp.bill_no r)
    (customer_otp.phone r) (customer_otp.otp_code r)
    (customer_otp.expires_at r) true (customer_otp.created_at r).

(** [verifyOTP(billNo, otpCode)] at the instant [now]. *)
Definition verifyOTP (now : timestamp) (billNo otpCode : option string)
  (tbl : list customer_otp.row) : list customer_otp.row * verification :=
  match filter (matching billNo otpCode) tbl with
  | [] => (tbl, invalid "Invalid OTP")
  | otp :: _ =>
      if customer_otp.verified otp then (tbl, invalid "OTP already used")
      else if customer_otp.expires_at otp <? now
      then (tbl, invalid "OTP expired")
      else
        (map (fun r =>
                if String.eqb (customer_otp.id r) (customer_otp.id otp)
                then set_verified r else r)
           tbl,
         valid (customer_otp.phone otp))
  end.

(** [ORDER BY created_at DESC]. *)
Definition by_created_at_desc (a b : customer_otp.row) : bool :=
  customer_otp.created_at b <=? customer_otp.created_at a.

(** [resendOTP(billNo)]. *)
Definition resendOTP (draw : Z) (now db_now : timestamp) (new_id : string)
  (bills : list bill.row) (billNo : option string)
  (tbl : list customer_otp.row)
  : list customer_otp.row * outcome created :=
  match limit_1
          (order_by by_created_at_desc
             (filter (fun r => sql_eq (customer_otp.bill_no r) billNo) tbl))
  with
  | None => (tbl, thrown "No OTP request found for this bill")
  | Some existing =>
      createOTP draw now db_now new_id bills billNo
        (Some (customer_otp.phone existing)) tbl
  end.

(** [DELETE FROM customer_otp WHERE expires_at < CURRENT_TIMESTAMP]. *)
Definition cleanupExpiredOTPs (db_now : timestamp)
  (tbl : list customer_otp.row) : list customer_otp.row :=
  filter (fun r => negb (customer_otp.expires_at r <? db_now)) tbl.

End OTPService.

(* ----------------------------------------------------------------- *)
(** ** Cashier sessions: opening, and the active session of a cashier
       (the cashier routes of routes/auth.js, middleware/auth.js, the DDL
       script) *)

Module Cashier.

Definition is_active (cs : cashier_session.row) : bool :=
  match cashier_session.status cs with
  | cashier_session.ACTIVE => true
  | _ => false
  end.

(** [SELECT id FROM cashier_session
     WHERE cashier_id = $1 AND status = 'ACTIVE']. *)
Definition active_sessions (s : store) (user : string)
  : list cashier_session.row :=
  filter
    (fun cs => sql_eq (cashier_session.cashier_id cs) (Some user)
               && is_active cs)
    (t_cashier_session s).



(** [SELECT id FROM users WHERE role = 'MANAGER'
     AND pin_hash IS NOT NULL]. *)
Definition managers_with_pin (s : store) : list users.row :=
  filter
    (fun u => String.eqb (users.role u) "MANAGER"
              && negb (is_null (users.pin_hash u)))
    (t_users s).

Inductive response :=
| json_error (status : Z) (error : string)
| opened (session : cashier_session.row).

(** [POST /session/open] for the authenticated cashier [user]; the
    body gives [start_float] ([opened_by_pin] is not read).  [new_id] is
    the key the database generates.  The column [opened_by], set to the
    first manager found, is not among the columns kept here. *)
Definition open (now : timestamp) (new_id : string) (user : string)
  (start_float : option money) (s : store) : response * store :=
  match active_sessions s user with
  | _ :: _ => (json_error 400 "Active session already exists", s)
  | [] =>
      match managers_with_pin s with
      | [] => (json_error 400 "No manager available for session approval", s)
      | _ :: _ =>
          match start_float with
          | Some f =>
              if negb (existsb
                         (fun cs => String.eqb (cashier_session.id cs) new_id)
                         (t_cashier_session s))
                 && existsb (fun u => String.eqb (users.id u) user) (t_users s)
              then
                let row :=
                  cashier_session.mk new_id (Some user) now None f None None
                    None None cashier_session.ACTIVE in
                (opened row,
                 with_cashier_session s (t_cashier_session s ++ [row]))
              else (json_error 500 "Failed to open session", s)
          | None => (json_error 500 "Failed to open session", s)
          end
      end
  end.

Definition with_petty_cash (s : store) (t : list petty_cash.row) : store :=
  mk_store (t_bill s) (t_receipt s) (t_users s) (t_cashier_session s)
    (t_payment_hint s) t (t_till_adjustment s)
    (t_release_self s) (t_release_transporter s).

Definition with_till_adjustment (s : store) (t : list till_adjustment.row)
  : store :=
  mk_store (t_bill s) (t_receipt s) (t_users s) (t_cashier_session s)
    (t_payment_hint s) (t_petty_cash s) t
    (t_release_self s) (t_release_transporter s).

End Cashier.

(* ----------------------------------------------------------------- *)
(** ** Manual mapping of a receipt (the tally-sync routes of
       routes/dispatch.js) *)

Module TallySync.

Inductive response :=
| json_error (status : Z) (error : string)
| mapped (receipt : receipt.row).

(** [POST /map-receipt] with the body [{ receiptId, billNo }]:
    [UPDATE receipt SET bill_reference = $1 WHERE receipt_id = $2
     RETURNING *] once the bill is found. *)
Definition map_receipt (receiptId billNo : option string) (s : store)
  : response * store :=
  match receiptId, billNo with
  | Some rid, Some b =>
      if negb (truthy receiptId) || negb (truthy billNo)
      then (json_error 400 "Receipt ID and Bill No are required", s)
      else if existsb (fun x => String.eqb (bill.bill_no x) b) (t_bill s)
      then
        let tbl := set_bill_reference b rid (t_receipt s) in
        match filter (fun r => String.eqb (receipt.receipt_id r) rid) tbl
        with
        | [] => (json_error 404 "Receipt not found", with_receipt s tbl)
        | r :: _ => (mapped r, with_receipt s tbl)
        end
      else (json_error 404 "Bill not found", s)
  | _, _ => (json_error 400 "Receipt ID and Bill No are required", s)
  end.

End TallySync.

(* ----------------------------------------------------------------- *)
(** ** Transport releases: proof of delivery and status
       (routes/dispatch.js, the [release_status] view) *)

(** A row of [release_transporter] with the columns the release
    handler leaves to their defaults. *)
Module transport.
Record row := mk {
  release : release_transporter.row;
  pickup_ts : timestamp;           (* DEFAULT CURRENT_TIMESTAMP *)
  pod_uploaded : bool;             (* DEFAULT FALSE *)
  pod_path : option string;        (* VARCHAR(500) *)
  delivered_ts : option timestamp
}.
End transport.

Module Dispatch.

(** The row as the INSERT of the release handler stores it. *)
Definition picked_up (now : timestamp) (r : release_transporter.row)
  : transport.row :=
  transport.mk r now false None None.

Definition for_bill (bill_no : string) (r : transport.row) : bool :=
  sql_eq (release_transporter.bill_no (transport.release r)) (Some bill_no).

Inductive response :=
| json_error (status : Z) (error : string)
| pod_saved (transport : transport.row).

(** [SET pod_uploaded = true, pod_path = $1,
     delivered_ts = CURRENT_TIMESTAMP]. *)
Definition mark_delivered (now : timestamp) (pod_path : string)
  (r : transport.row) : transport.row :=
  transport.mk (transport.release r) (transport.pickup_ts r) true
    (Some pod_path) (Some now).

(** [POST /transport/:bill_no/pod]; [file] is [req.file?.path].
    [UPDATE release_transporter SET pod_uploaded = true, pod_path = $1,
     delivered_ts = CURRENT_TIMESTAMP WHERE bill_no = $2 RETURNING *].
    Where the audit triggers are installed, the trigger fires for each
    row the UPDATE changes and raises on this table: the statement is
    undone and the handler answers 500. *)
Definition pod (audit_triggers : bool) (now : timestamp) (bill_no : string)
  (file : option string) (tbl : list transport.row)
  : response * list transport.row :=
  match file with
  | Some path =>
      if negb (truthy file) then (json_error 400 "POD file required", tbl)
      else
        match varchar 500 path with
        | None => (json_error 500 "Failed to upload POD", tbl)
        | Some p =>
            let tbl' :=
              map (fun r =>
                     if for_bill bill_no r then mark_delivered now p r else r)
                tbl in
            match filter (for_bill bill_no) tbl' with
            | [] => (json_error 404 "Transport release not found", tbl')
            | r :: _ =>
                if audit_triggers
                   && AuditLog.raises_on AuditLog.release_transporter_columns
                then (json_error 500 "Failed to upload POD", tbl)
                else (pod_saved r, tbl')
            end
        end
  | None => (json_error 400 "POD file required", tbl)
  end.

Inductive transport_status := DELIVERED | POD_UPLOADED | IN_TRANSIT.

(** The CASE of [GET /transport/status]. *)
Definition status_of (r : transport.row) : transport_status :=
  match transport.delivered_ts r with
  | Some _ => DELIVERED
  | None => if transport.pod_uploaded r then POD_UPLOADED else IN_TRANSIT
  end.

(** [ORDER BY rt.pickup_ts DESC]. *)
Definition by_pickup_desc (a b : transport.row * transport_status) : bool :=
  transport.pickup_ts (fst b) <=? transport.pickup_ts (fst a).

(** The rows of [GET /transport/status] for the bills dated [date]:
    [FROM release_transporter rt JOIN bill b ON rt.bill_no = b.bill_no
     WHERE b.bill_date = $1]. *)
Definition transports (date : date) (bills : list bill.row)
  (tbl : list transport.row) : list (transport.row * transport_status) :=
  order_by by_pickup_desc
    (flat_map
       (fun rt =>
          map (fun _ => (rt, status_of rt))
            (filter
               (fun b =>
                  sql_eq (release_transporter.bill_no (transport.release rt))
                    (Some (bill.bill_no b))
                  && (bill.bill_date b =? date))
               bills))
       tbl).

Record summary := mk_summary {
  total : nat;
  in_transit : nat;
  delivered : nat;
  pod_uploaded : nat
}.

Definition has_status (st : transport_status)
  (row : transport.row * transport_status) : bool :=
  match st, snd row with
  | DELIVERED, DELIVERED | POD_UPLOADED, POD_UPLOADED
  | IN_TRANSIT, IN_TRANSIT => true
  | _, _ => false
  end.

Definition summary_of (rows : list (transport.row * transport_status))
  : summary :=
  mk_summary (List.length rows)
    (List.length (filter (has_status IN_TRANSIT) rows))
    (List.length (filter (has_status DELIVERED) rows))
    (List.length (filter (has_status POD_UPLOADED) rows)).

(** The [release_status] view:
    [FROM bill b LEFT JOIN release_self rs ON b.bill_no = rs.bill_no
     LEFT JOIN release_transporter rt ON b.bill_no = rt.bill_no]; the
    column [release_ts] is left out. *)
Module release_status.
Inductive status_t := RELEASED_SELF | DELIVERED | IN_TRANSIT | READY.
Record row := mk {
  bill_no : string;
  release_status : status_t;
  dispatcher_id : option string
}.
End release_status.

Definition left_join {A B : Type} (on : A -> B -> bool) (l : list A)
  (r : list B) : list (A * option B) :=
  flat_map
    (fun a =>
       match filter (on a) r with
       | [] => [(a, None)]
       | m => map (fun b => (a, Some b)) m
       end)
    l.

Definition release_status_row
  (j : bill.row * option release_self.row * option transport.row)
  : release_status.row :=
  let '(b, rs, rt) := j in
  release_status.mk (bill.bill_no b)
    (match rs, rt with
     | Some _, _ => release_status.RELEASED_SELF
     | None, Some t =>
         match transport.delivered_ts t with
         | Some _ => release_status.DELIVERED
         | None => release_status.IN_TRANSIT
         end
     | None, None => release_status.READY
     end)
    (match rs, rt with
     | Some r, _ => Some (release_self.dispatcher_id r)
     | None, Some t =>
         Some (release_transporter.dispatcher_id (transport.release t))
     | None, None => None
     end).

Definition release_status_view (bills : list bill.row)
  (rs : list release_self.row) (rt : list transport.row)
  : list release_status.row :=
  map release_status_row
    (left_join
       (fun (j : bill.row * option release_self.row) t =>
          for_bill (bill.bill_no (fst j)) t)
       (left_join
          (fun b r => sql_eq (Some (bill.bill_no b)) (release_self.bill_no r))
          bills rs)
       rt).

End Dispatch.

(* ----------------------------------------------------------------- *)
(** ** The migration script (scripts/migrate.js) *)

Module Migrate.

Definition is_semicolon (c : Ascii.ascii) : bool := char_in 59 59 c.

(** [s.split(';')]. *)
Fixpoint split_semicolon (s cur : string) : list string :=
  match s with
  | EmptyString => [cur]
  | String c s' =>
      if is_semicolon c then cur :: split_semicolon s' EmptyString
      else split_semicolon s' (cur ++ String c EmptyString)%string
  end.

Fixpoint trimEnd (s : string) : string :=
  match s with
  | EmptyString => EmptyString
  | String c s' =>
      match trimEnd s' with
      | EmptyString =>
          if is_space c then EmptyString else String c EmptyString
      | String c' t => String c (String c' t)
      end
  end.

(** [s.trim()]. *)
Definition trim (s : string) : string := trimEnd (drop_while is_space s).

(** The texts [runMigration] sends to the database, one query each and
    in this order, read off the text of the schema file. *)
Definition statements (schemaSql : string) : list string :=
  filter (fun stmt => negb (includes stmt "COMMENT ON DATABASE"))
    (filter (fun stmt => negb (includes stmt "CREATE DATABASE"))
       (filter
          (fun stmt =>
             (0 <? String.length stmt)%nat && negb (String.prefix "--" stmt))
          (map trim (split_semicolon schemaSql EmptyString)))).

End Migrate.

(* ----------------------------------------------------------------- *)
(** ** Deposit batches of cheques (routes/admin.js) *)

Module cheque_register.
Inductive status_t := PENDING | DEPOSITED | CLEARED | BOUNCED.
Record row := mk {
  id : string;                       (* PRIMARY KEY *)
  amount : money;                    (* NOT NULL *)
  status : option status_t;          (* DEFAULT 'PENDING' *)
  deposit_batch_id : option string   (* REFERENCES deposit_batch(id) *)
}.
End cheque_register.

Module deposit_batch.
Record row := mk {
  id : string;                       (* PRIMARY KEY, generated *)
  bank_name : string;                (* VARCHAR(100) NOT NULL *)
  deposit_date : date;               (* NOT NULL *)
  total_cash : money;
  total_cheque : money;
  prepared_by : option string
}.
End deposit_batch.

Module Admin.

(** The body of POST /cheques/deposit-batch; [cheque_ids] is absent or
    an array of ids. *)
Record request := mk_request {
  bank_name : option string;
  deposit_date : option date;
  total_cash : option money;
  cheque_ids : option (list string)
}.

Inductive response :=
| json_error (status : Z) (error : string)
| batch_created (batch : deposit_batch.row) (chequesUpdated : nat)
    (totalAmount : money).

(** [WHERE id = ANY($1) AND status = 'PENDING']. *)
Definition pending_in (ids : list string) (c : cheque_register.row) : bool :=
  existsb (String.eqb (cheque_register.id c)) ids
  && match cheque_register.status c with
     | Some cheque_register.PENDING => true
     | _ => false
     end.

(** [INSERT INTO deposit_batch ... RETURNING *]: the NOT NULL columns
    refuse a missing bank name or date, VARCHAR(100) a longer name. *)
Definition insert_batch (new_id : string) (user : string) (req : request)
  (totalCheque : money) : outcome deposit_batch.row :=
  match bank_name req, deposit_date req with
  | Some bank, Some d =>
      match varchar 100 bank with
      | Some bank' =>
          returned
            (deposit_batch.mk new_id bank' d
               (match total_cash req with
                | Some c => if c =? 0 then 0 else c
                | None => 0
                end)
               totalCheque (Some user))
      | None => thrown "value too long"
      end
  | _, _ => thrown "null value in a NOT NULL column"
  end.

Definition deposit (batch_id : string) (ids : list string)
  (c : cheque_register.row) : cheque_register.row :=
  if pending_in ids c
  then cheque_register.mk (cheque_register.id c) (cheque_register.amount c)
         (Some cheque_register.DEPOSITED) (Some batch_id)
  else c.

(** The route handler, for a user the role check has let through.
    [new_id] is the id the database generates for the batch.  When the
    INSERT is refused the transaction is never committed. *)
Definition deposit_batch_route (new_id user : string) (req : request)
  (cheques : list cheque_register.row) (batches : list deposit_batch.row)
  : (list cheque_register.row * list deposit_batch.row) * response :=
  match cheque_ids req with
  | None => ((cheques, batches), json_error 400 "At least one cheque required")
  | Some [] =>
      ((cheques, batches), json_error 400 "At least one cheque required")
  | Some ids =>
      let totalCheque :=
        Session.sum_money
          (map cheque_register.amount (filter (pending_in ids) cheques)) in
      match insert_batch new_id user req totalCheque with
      | thrown _ =>
          ((cheques, batches),
           json_error 500 "Failed to create deposit batch")
      | returned batch =>
          ((map (deposit new_id ids) cheques, batches ++ [batch]),
           batch_created batch (List.length ids) totalCheque)
      end
  end.

End Admin.

(* ================================================================= *)
(** * Part II: properties *)
(* ================================================================= *)

(** ** The [bill_status] view *)

Lemma group_lookup_add_same k a g :
  group_lookup k (add_to_group k a g) = Some (coalesce (group_lookup k g) 0 + a).
Proof.
  induction g as [|[k' s] g IH]; simpl.
  - rewrite String.eqb_refl. reflexivity.
  - destruct (String.eqb k' k) eqn:E; simpl; rewrite E; auto.
Qed.

Lemma group_lookup_add_other k k' a g :
  k <> k' -> group_lookup k (add_to_group k' a g) = group_lookup k g.
Proof.
  intros Hne. induction g as [|[k0 s] g IH]; simpl.
  - apply String.eqb_neq in Hne. rewrite String.eqb_sym in Hne.
    rewrite Hne. reflexivity.
  - destruct (String.eqb k0 k') eqn:E; simpl.
    + apply String.eqb_eq in E. subst k0.
      destruct (String.eqb k' k) eqn:E'; auto.
      apply String.eqb_eq in E'. congruence.
    + destruct (String.eqb k0 k); auto.
Qed.

Lemma group_lookup_receipt_totals_from rs k g :
  coalesce
    (group_lookup k
       (fold_left
          (fun g r =>
             match receipt.bill_reference r with
             | Some k => add_to_group k (receipt.amount r) g
             | None => g
             end) rs g)) 0
  = coalesce (group_lookup k g) 0 + mapped_total rs k.
Proof.
  revert g. unfold mapped_total.
  induction rs as [|r rs IH]; intros g; simpl.
  - lia.
  - rewrite IH. unfold linked_to.
    destruct (receipt.bill_reference r) as [k'|]; simpl.
    + destruct (String.eqb k' k) eqn:E; simpl.
      * apply String.eqb_eq in E. subst k'.
        rewrite group_lookup_add_same. simpl. lia.
      * apply String.eqb_neq in E.
        rewrite group_lookup_add_other by congruence. reflexivity.
    + reflexivity.
Qed.

Lemma coalesce_receipt_totals rs k :
  coalesce (group_lookup k (receipt_totals rs)) 0 = mapped_total rs k.
Proof.
  unfold receipt_totals. rewrite group_lookup_receipt_totals_from. reflexivity.
Qed.

(** A grouped subtotal exists exactly when some receipt is linked. *)
Lemma group_lookup_none_iff rs k :
  group_lookup k (receipt_totals rs) = None <-> filter (linked_to k) rs = [].
Proof.
  unfold receipt_totals.
  assert (H : forall g,
    group_lookup k
      (fold_left
         (fun g r =>
            match receipt.bill_reference r with
            | Some k => add_to_group k (receipt.amount r) g
            | None => g
            end) rs g) = None
    <-> group_lookup k g = None /\ filter (linked_to k) rs = []).
  { induction rs as [|r rs IH]; intros g; simpl.
    - tauto.
    - rewrite IH. unfold linked_to.
      destruct (receipt.bill_reference r) as [k'|]; simpl; [|tauto].
      destruct (String.eqb k' k) eqn:E.
      + apply String.eqb_eq in E. subst k'.
        rewrite group_lookup_add_same. split; intros [? ?]; discriminate.
      + apply String.eqb_neq in E.
        rewrite group_lookup_add_other by congruence. tauto. }
  rewrite H. simpl. tauto.
Qed.

Lemma bill_status_row_spec receipts b :
  let s := bill_status_row (receipt_totals receipts) b in
  let total := mapped_total receipts (bill.bill_no b) in
  bill_status.bill_no s = bill.bill_no b
  /\ bill_status.receipt_total s = total
  /\ bill_status.remaining_due s = bill.amount b - total
  /\ (total = 0 -> bill_status.status s = bill_status.DUE)
  /\ (total <> 0 -> bill.amount b <= total ->
      bill_status.status s = bill_status.PAID)
  /\ (total <> 0 -> total < bill.amount b ->
      bill_status.status s = bill_status.PART_PAID).
Proof.
  cbv zeta. unfold bill_status_row. cbn [bill_status.bill_no
    bill_status.receipt_total bill_status.remaining_due bill_status.status].
  rewrite coalesce_receipt_totals.
  set (total := mapped_total receipts (bill.bill_no b)).
  repeat split; intros.
  - replace (total =? 0) with true by (symmetry; apply Z.eqb_eq; assumption).
    reflexivity.
  - replace (total =? 0) with false by (symmetry; apply Z.eqb_neq; assumption).
    replace (bill.amount b <=? total) with true
      by (symmetry; apply Z.leb_le; assumption).
    reflexivity.
  - replace (total =? 0) with false by (symmetry; apply Z.eqb_neq; assumption).
    replace (bill.amount b <=? total) with false
      by (symmetry; apply Z.leb_gt; assumption).
    reflexivity.
Qed.

(** The sample data of the status scenarios: one bill of 1000.00 and
    receipts of 600.00, 400.00 (and one of 250.00 for another bill). *)
Definition sample_bill : bill.row :=
  bill.mk "S-1001" 20 "Acme Traders" (units 1000) 0 0.

Definition sample_receipt (id : string) (amt : Z) (link : option string)
  : receipt.row :=
  receipt.mk id 21 "Acme Traders" (units amt) receipt.CASH None link 0 0.

(** C4. For every bill, the [bill_status] view has exactly one row; its
    [receipt_total] is the sum of the amounts of the receipts whose
    [bill_reference] is that bill, its [remaining_due] is the bill amount
    minus that total, and its status is DUE when the total is 0, PAID when
    the (non-zero) total reaches the bill amount, PART-PAID otherwise.
    On a bill of 1000: receipts totalling 1000 give PAID, totalling 400
    give PART-PAID with 600 remaining, and no mapped receipt gives DUE. *)
Theorem C4_bill_status_derivation :
  (forall bills receipts,
     Forall2
       (fun b s =>
          let total := mapped_total receipts (bill.bill_no b) in
          bill_status.bill_no s = bill.bill_no b
          /\ bill_status.receipt_total s = total
          /\ bill_status.remaining_due s = bill.amount b - total
          /\ (total = 0 -> bill_status.status s = bill_status.DUE)
          /\ (total <> 0 -> bill.amount b <= total ->
              bill_status.status s = bill_status.PAID)
          /\ (total <> 0 -> total < bill.amount b ->
              bill_status.status s = bill_status.PART_PAID))
       bills (bill_status_view bills receipts))
  /\ map (fun s => (bill_status.receipt_total s, bill_status.remaining_due s,
                    bill_status.status s))
       (bill_status_view [sample_bill]
          [sample_receipt "R-1" 600 (Some "S-1001"%string);
           sample_receipt "R-2" 250 (Some "S-0999"%string);
           sample_receipt "R-3" 400 (Some "S-1001"%string)])
     = [(units 1000, 0, bill_status.PAID)]
  /\ map (fun s => (bill_status.receipt_total s, bill_status.remaining_due s,
                    bill_status.status s))
       (bill_status_view [sample_bill]
          [sample_receipt "R-3" 400 (Some "S-1001"%string);
           sample_receipt "R-4" 700 None])
     = [(units 400, units 600, bill_status.PART_PAID)]
  /\ map (fun s => (bill_status.receipt_total s, bill_status.remaining_due s,
                    bill_status.status s))
       (bill_status_view [sample_bill] [sample_receipt "R-4" 700 None])
     = [(0, units 1000, bill_status.DUE)].
Proof.
  split; [|repeat split; reflexivity].
  intros bills receipts. unfold bill_status_view.
  induction bills as [|b bills IH]; simpl; constructor; auto.
  apply bill_status_row_spec.
Qed.

(** ** [INSERT ... ON CONFLICT DO UPDATE], generically *)

Section OnConflictFacts.
Context {Row Val : Type}.
Variable key : Row -> string.
Variable vkey : Val -> string.
Variable ins : timestamp -> Val -> Row.
Variable upd : timestamp -> Val -> Row -> Row.
(** [erase] forgets the sync stamp of a row, [stamp] reads it. *)
Variable erase : Row -> Row.
Variable stamp : Row -> timestamp.

Hypothesis key_ins : forall t v, key (ins t v) = vkey v.
Hypothesis key_upd : forall t v b, key (upd t v b) = key b.
Hypothesis upd_over_upd :
  forall t t' v v' b, erase (upd t v (upd t' v' b)) = erase (upd t v b).
Hypothesis upd_over_ins :
  forall t t' v, erase (upd t v (ins t' v)) = erase (ins t' v).
Hypothesis upd_any_time :
  forall t t' v b, erase (upd t v b) = erase (upd t' v b).
Hypothesis stamp_upd : forall t v b, stamp (upd t v b) = t.
Hypothesis stamp_ins : forall t v, stamp (ins t v) = t.

Let upsert := on_conflict_do_update key vkey ins upd.

Definition upsert_all (now : timestamp) (vs : list Val) (tbl : list Row)
  : list Row :=
  fold_left (fun tbl v => upsert now v tbl) vs tbl.

(** What the updates of a pass do to one row. *)
Definition touch (now : timestamp) (v : Val) (b : Row) : Row :=
  if String.eqb (key b) (vkey v) then upd now v b else b.

Definition touch_all (now : timestamp) (vs : list Val) (b : Row) : Row :=
  fold_left (fun b v => touch now v b) vs b.

Definition holds_key (tbl : list Row) (k : string) : bool :=
  existsb (fun b => String.eqb (key b) k) tbl.

Lemma upsert_present now v tbl :
  holds_key tbl (vkey v) = true -> upsert now v tbl = map (touch now v) tbl.
Proof.
  intros H. unfold upsert, on_conflict_do_update, holds_key in *.
  rewrite H. reflexivity.
Qed.

Lemma upsert_absent now v tbl :
  holds_key tbl (vkey v) = false -> upsert now v tbl = tbl ++ [ins now v].
Proof.
  intros H. unfold upsert, on_conflict_do_update, holds_key in *.
  rewrite H. reflexivity.
Qed.

Lemma key_touch now v b : key (touch now v b) = key b.
Proof. unfold touch. destruct (String.eqb (key b) (vkey v)); auto. Qed.

Lemma key_touch_all now vs b : key (touch_all now vs b) = key b.
Proof.
  revert b. induction vs as [|v vs IH]; intros b; simpl; auto.
  unfold touch_all in *. simpl. rewrite IH. apply key_touch.
Qed.

Lemma holds_key_map_touch now v tbl k :
  holds_key (map (touch now v) tbl) k = holds_key tbl k.
Proof.
  unfold holds_key. induction tbl as [|b tbl IH]; simpl; auto.
  rewrite key_touch, IH. reflexivity.
Qed.

Lemma holds_key_app tbl tbl' k :
  holds_key (tbl ++ tbl') k = holds_key tbl k || holds_key tbl' k.
Proof. unfold holds_key. apply existsb_app. Qed.

Lemma holds_key_upsert now v tbl k :
  holds_key (upsert now v tbl) k
  = holds_key tbl k || String.eqb (vkey v) k.
Proof.
  destruct (holds_key tbl (vkey v)) eqn:H.
  - rewrite upsert_present by assumption. rewrite holds_key_map_touch.
    destruct (String.eqb (vkey v) k) eqn:E.
    + apply String.eqb_eq in E. subst k. rewrite H. reflexivity.
    + rewrite orb_false_r. reflexivity.
  - rewrite upsert_absent by assumption. rewrite holds_key_app.
    unfold holds_key at 2. simpl. rewrite key_ins, orb_false_r. reflexivity.
Qed.

Lemma holds_key_upsert_all now vs tbl k :
  holds_key (upsert_all now vs tbl) k
  = holds_key tbl k || existsb (fun v => String.eqb (vkey v) k) vs.
Proof.
  revert tbl. induction vs as [|v vs IH]; intros tbl; simpl.
  - rewrite orb_false_r. reflexivity.
  - unfold upsert_all in *. simpl. rewrite IH, holds_key_upsert.
    rewrite orb_assoc. reflexivity.
Qed.

(** Once every key of the pass is in the table, the pass only
    rewrites rows in place. *)
Lemma upsert_all_present now vs tbl :
  (forall v, In v vs -> holds_key tbl (vkey v) = true) ->
  upsert_all now vs tbl = map (touch_all now vs) tbl.
Proof.
  revert tbl. induction vs as [|v vs IH]; intros tbl H.
  - simpl. symmetry. unfold touch_all. simpl. apply map_id.
  - unfold upsert_all, touch_all in *. simpl.
    rewrite upsert_present by (apply H; left; reflexivity).
    rewrite IH.
    + rewrite map_map. reflexivity.
    + intros v' Hv'. rewrite holds_key_map_touch. apply H. right. assumption.
Qed.

Lemma erase_upd_touch_all t now v vs b :
  erase (upd t v (touch_all now vs b)) = erase (upd t v b).
Proof.
  revert b. induction vs as [|v' vs IH]; intros b; auto.
  unfold touch_all in *. simpl. rewrite IH. unfold touch.
  destruct (String.eqb (key b) (vkey v')); auto.
Qed.

Lemma touch_all_app now vs vs' b :
  touch_all now (vs ++ vs') b = touch_all now vs' (touch_all now vs b).
Proof. unfold touch_all. apply fold_left_app. Qed.

Lemma touch_all_untouched now vs b :
  existsb (fun v => String.eqb (vkey v) (key b)) vs = false ->
  touch_all now vs b = b.
Proof.
  revert b. induction vs as [|v vs IH]; intros b H; auto.
  simpl in H. apply orb_false_elim in H. destruct H as [H1 H2].
  unfold touch_all in *. simpl. unfold touch at 2.
  rewrite String.eqb_sym, H1. apply IH. assumption.
Qed.

(** A row is settled for a pass when replaying the pass on it changes
    nothing but its stamp. *)
Definition settled (vs : list Val) (b : Row) : Prop :=
  forall now, erase (touch_all now vs b) = erase b.

Lemma upsert_all_snoc now vs v tbl :
  upsert_all now (vs ++ [v]) tbl = upsert now v (upsert_all now vs tbl).
Proof. unfold upsert_all. rewrite fold_left_app. reflexivity. Qed.

Lemma settled_nil b : settled [] b.
Proof. intros now. reflexivity. Qed.

Lemma settled_snoc_other vs v b :
  String.eqb (key b) (vkey v) = false ->
  settled vs b -> settled (vs ++ [v]) b.
Proof.
  intros Hk Hs now. rewrite touch_all_app.
  unfold touch_all at 1. simpl. unfold touch.
  rewrite key_touch_all, Hk. apply Hs.
Qed.

Lemma settled_snoc_updated t vs v b :
  String.eqb (key b) (vkey v) = true ->
  settled (vs ++ [v]) (upd t v b).
Proof.
  intros Hk now. rewrite touch_all_app.
  unfold touch_all at 1. simpl. unfold touch.
  rewrite key_touch_all, key_upd, Hk.
  rewrite erase_upd_touch_all, upd_over_upd. apply upd_any_time.
Qed.

Lemma settled_snoc_inserted t vs v :
  existsb (fun v' => String.eqb (vkey v') (vkey v)) vs = false ->
  settled (vs ++ [v]) (ins t v).
Proof.
  intros Hk now. rewrite touch_all_app.
  rewrite (touch_all_untouched now vs) by (rewrite key_ins; assumption).
  unfold touch_all. simpl. unfold touch.
  rewrite key_ins, String.eqb_refl. apply upd_over_ins.
Qed.

Lemma holds_key_false tbl k b :
  holds_key tbl k = false -> In b tbl -> String.eqb (key b) k = false.
Proof.
  unfold holds_key. intros H Hb.
  destruct (String.eqb (key b) k) eqn:E; auto.
  assert (existsb (fun b => String.eqb (key b) k) tbl = true)
    by (apply existsb_exists; exists b; auto).
  congruence.
Qed.

(** After a pass every row is settled for that pass. *)
Lemma settled_after_pass now vs tbl :
  Forall (settled vs) (upsert_all now vs tbl).
Proof.
  revert tbl. induction vs as [|v vs IH] using rev_ind; intros tbl.
  - apply Forall_forall. intros b _. apply settled_nil.
  - rewrite upsert_all_snoc. specialize (IH tbl).
    rewrite Forall_forall in IH.
    destruct (holds_key (upsert_all now vs tbl) (vkey v)) eqn:H.
    + rewrite upsert_present by assumption.
      apply Forall_forall. intros b' Hb'.
      apply in_map_iff in Hb'. destruct Hb' as [b [Hb' Hb]]. subst b'.
      unfold touch. destruct (String.eqb (key b) (vkey v)) eqn:E.
      * apply settled_snoc_updated. assumption.
      * apply settled_snoc_other; auto.
    + rewrite upsert_absent by assumption.
      apply Forall_app. split.
      * apply Forall_forall. intros b Hb.
        apply settled_snoc_other; auto.
        eapply holds_key_false; eauto.
      * constructor; [|constructor].
        apply settled_snoc_inserted.
        rewrite holds_key_upsert_all in H.
        apply orb_false_elim in H. tauto.
Qed.

Lemma keys_present_after_pass now vs tbl v :
  In v vs -> holds_key (upsert_all now vs tbl) (vkey v) = true.
Proof.
  intros Hv. rewrite holds_key_upsert_all.
  apply orb_true_iff. right. apply existsb_exists.
  exists v. split; auto. apply String.eqb_refl.
Qed.

(** Replaying a pass rewrites the rows in place... *)
Lemma upsert_all_replay t1 t2 vs tbl :
  upsert_all t2 vs (upsert_all t1 vs tbl)
  = map (touch_all t2 vs) (upsert_all t1 vs tbl).
Proof.
  apply upsert_all_present. intros v Hv.
  apply keys_present_after_pass. assumption.
Qed.

(** ... and changes nothing but stamps. *)
Lemma upsert_all_idempotent t1 t2 vs tbl :
  map erase (upsert_all t2 vs (upsert_all t1 vs tbl))
  = map erase (upsert_all t1 vs tbl).
Proof.
  rewrite upsert_all_replay, map_map.
  apply map_ext_in. intros b Hb.
  pose proof (settled_after_pass t1 vs tbl) as H.
  rewrite Forall_forall in H. apply H. assumption.
Qed.

Lemma stamp_touch_all now vs b :
  stamp b = now
  \/ existsb (fun v => String.eqb (vkey v) (key b)) vs = true ->
  stamp (touch_all now vs b) = now.
Proof.
  revert b. induction vs as [|v vs IH]; intros b H.
  - simpl in H. destruct H as [H|H]; [exact H|discriminate].
  - unfold touch_all in *. simpl. apply IH.
    rewrite key_touch. unfold touch.
    destruct (String.eqb (key b) (vkey v)) eqn:E.
    + left. apply stamp_upd.
    + destruct H as [H|H]; [left; exact H|].
      simpl in H. rewrite String.eqb_sym, E in H. right. exact H.
Qed.

(** Every row the replay touches carries the stamp of the replay; the
    other rows are left as they are. *)
Lemma upsert_all_replay_rows t1 t2 vs tbl :
  Forall2
    (fun b b' =>
       if existsb (fun v => String.eqb (vkey v) (key b)) vs
       then stamp b' = t2
       else b' = b)
    (upsert_all t1 vs tbl)
    (upsert_all t2 vs (upsert_all t1 vs tbl)).
Proof.
  rewrite upsert_all_replay.
  induction (upsert_all t1 vs tbl) as [|b l IH]; simpl; constructor; auto.
  destruct (existsb (fun v => String.eqb (vkey v) (key b)) vs) eqn:E.
  - apply stamp_touch_all. right. assumption.
  - apply touch_all_untouched. assumption.
Qed.

(** After a pass, the row of every key of the pass carries the stamp
    of the pass. *)
Lemma upsert_all_stamps now vs tbl :
  Forall
    (fun b =>
       existsb (fun v => String.eqb (vkey v) (key b)) vs = true ->
       stamp b = now)
    (upsert_all now vs tbl).
Proof.
  revert tbl. induction vs as [|v vs IH] using rev_ind; intros tbl.
  - apply Forall_forall. intros b _ H. discriminate.
  - rewrite upsert_all_snoc. specialize (IH tbl).
    rewrite Forall_forall in IH.
    assert (Hsplit : forall k,
              existsb (fun v' => String.eqb (vkey v') k) (vs ++ [v]) = true ->
              String.eqb k (vkey v) = false ->
              existsb (fun v' => String.eqb (vkey v') k) vs = true).
    { intros k H E. rewrite existsb_app in H. simpl in H.
      rewrite String.eqb_sym, E in H. simpl in H.
      rewrite orb_false_r in H. exact H. }
    destruct (holds_key (upsert_all now vs tbl) (vkey v)) eqn:H.
    + rewrite upsert_present by assumption.
      apply Forall_forall. intros b' Hb'.
      apply in_map_iff in Hb'. destruct Hb' as [b [Hb' Hb]]. subst b'.
      unfold touch. destruct (String.eqb (key b) (vkey v)) eqn:E.
      * intros _. apply stamp_upd.
      * intros Hk. apply IH; auto.
    + rewrite upsert_absent by assumption.
      apply Forall_app. split.
      * apply Forall_forall. intros b Hb Hk. apply IH; auto.
        apply Hsplit; auto. eapply holds_key_false; eauto.
      * constructor; [|constructor]. intros _. apply stamp_ins.
Qed.

Lemma map_key_map_touch now v tbl :
  map key (map (touch now v) tbl) = map key tbl.
Proof.
  rewrite map_map. apply map_ext. intros b. apply key_touch.
Qed.

Lemma holds_key_In tbl k :
  holds_key tbl k = true <-> In k (map key tbl).
Proof.
  unfold holds_key. rewrite existsb_exists, in_map_iff.
  split; intros [b [H1 H2]]; exists b.
  - apply String.eqb_eq in H2. tauto.
  - subst k. split; auto. apply String.eqb_refl.
Qed.

(** The primary key stays a key. *)
Lemma NoDup_keys_upsert now v tbl :
  NoDup (map key tbl) -> NoDup (map key (upsert now v tbl)).
Proof.
  intros H. destruct (holds_key tbl (vkey v)) eqn:E.
  - rewrite upsert_present by assumption.
    rewrite map_key_map_touch. assumption.
  - rewrite upsert_absent by assumption.
    rewrite map_app. simpl. rewrite key_ins.
    apply NoDup_app; auto.
    + constructor; [intros []|constructor].
    + intros k Hk [Hk'|[]]. subst k.
      apply holds_key_In in Hk. congruence.
Qed.

Lemma NoDup_keys_upsert_all now vs tbl :
  NoDup (map key tbl) -> NoDup (map key (upsert_all now vs tbl)).
Proof.
  revert tbl. induction vs as [|v vs IH]; intros tbl H; auto.
  unfold upsert_all in *. simpl. apply IH. apply NoDup_keys_upsert. assumption.
Qed.

End OnConflictFacts.

(** ** The upsert loops of the ingestion services *)

Fixpoint check_all {Src Val : Type} (check : Src -> option Val)
  (rows : list Src) : option (list Val) :=
  match rows with
  | [] => Some []
  | r :: rows' =>
      match check r, check_all check rows' with
      | Some v, Some vs => Some (v :: vs)
      | _, _ => None
      end
  end.

Lemma upsert_loop_spec {Src Val Row : Type} (check : Src -> option Val)
  (upsert : Val -> list Row -> list Row) rows tbl n :
  upsert_loop check upsert rows tbl n
  = match check_all check rows with
    | Some vs =>
        Some (fold_left (fun tbl v => upsert v tbl) vs tbl,
              n + Z.of_nat (List.length rows))
    | None => None
    end.
Proof.
  revert tbl n. induction rows as [|r rows IH]; intros tbl n.
  - simpl. f_equal. f_equal. lia.
  - cbn [upsert_loop check_all]. destruct (check r) as [v|]; [|reflexivity].
    rewrite IH. destruct (check_all check rows) as [vs|]; [|reflexivity].
    cbn [fold_left List.length]. f_equal. f_equal. lia.
Qed.

Lemma check_all_length {Src Val : Type} (check : Src -> option Val) rows vs :
  check_all check rows = Some vs -> List.length vs = List.length rows.
Proof.
  revert vs. induction rows as [|r rows IH]; intros vs H; simpl in H.
  - inversion H. reflexivity.
  - destruct (check r); [|discriminate].
    destruct (check_all check rows); [|discriminate].
    inversion H. simpl. f_equal. apply IH. reflexivity.
Qed.

Lemma check_all_existsb {Src Val : Type} (check : Src -> option Val)
  (p : Src -> bool) (q : Val -> bool) rows vs :
  (forall r v, check r = Some v -> p r = q v) ->
  check_all check rows = Some vs -> existsb p rows = existsb q vs.
Proof.
  intros Hpq. revert vs. induction rows as [|r rows IH]; intros vs H; simpl in H.
  - inversion H. reflexivity.
  - destruct (check r) as [v|] eqn:Hr; [|discriminate].
    destruct (check_all check rows) as [vs'|]; [|discriminate].
    inversion H. simpl. rewrite (Hpq r v Hr), (IH vs' eq_refl). reflexivity.
Qed.

(** A row with its sync stamp forgotten. *)
Definition erase_bill (b : bill.row) : bill.row :=
  bill.mk (bill.bill_no b) (bill.bill_date b) (bill.party_name b)
    (bill.amount b) 0 (bill.created_at b).

Definition erase_receipt (r : receipt.row) : receipt.row :=
  receipt.mk (receipt.receipt_id r) (receipt.receipt_date r)
    (receipt.party_name r) (receipt.amount r) (receipt.mode r)
    (receipt.ref_text r) (receipt.bill_reference r) 0 (receipt.created_at r).

Definition upsert_bills (now : timestamp) :=
  upsert_all bill.bill_no bill_values.bill_no insert_bill update_bill now.

Definition upsert_receipts (now : timestamp) :=
  upsert_all receipt.receipt_id receipt_values.receipt_id insert_receipt
    update_receipt now.

Lemma upsert_bills_idempotent t1 t2 vs tbl :
  map erase_bill (upsert_bills t2 vs (upsert_bills t1 vs tbl))
  = map erase_bill (upsert_bills t1 vs tbl).
Proof. apply upsert_all_idempotent; reflexivity. Qed.

Lemma upsert_receipts_idempotent t1 t2 vs tbl :
  map erase_receipt (upsert_receipts t2 vs (upsert_receipts t1 vs tbl))
  = map erase_receipt (upsert_receipts t1 vs tbl).
Proof. apply upsert_all_idempotent; reflexivity. Qed.

Lemma upsert_bills_replay_rows t1 t2 vs tbl :
  Forall2
    (fun b b' =>
       if existsb (fun v => String.eqb (bill_values.bill_no v) (bill.bill_no b)) vs
       then bill.last_sync_ts b' = t2
       else b' = b)
    (upsert_bills t1 vs tbl) (upsert_bills t2 vs (upsert_bills t1 vs tbl)).
Proof.
  apply (upsert_all_replay_rows bill.bill_no bill_values.bill_no insert_bill
           update_bill bill.last_sync_ts); reflexivity.
Qed.

Lemma upsert_receipts_replay_rows t1 t2 vs tbl :
  Forall2
    (fun r r' =>
       if existsb
            (fun v => String.eqb (receipt_values.receipt_id v)
                        (receipt.receipt_id r)) vs
       then receipt.last_sync_ts r' = t2
       else r' = r)
    (upsert_receipts t1 vs tbl)
    (upsert_receipts t2 vs (upsert_receipts t1 vs tbl)).
Proof.
  apply (upsert_all_replay_rows receipt.receipt_id receipt_values.receipt_id
           insert_receipt update_receipt receipt.last_sync_ts); reflexivity.
Qed.

Lemma NoDup_upsert_bills now vs tbl :
  NoDup (map bill.bill_no tbl) ->
  NoDup (map bill.bill_no (upsert_bills now vs tbl)).
Proof. apply NoDup_keys_upsert_all; reflexivity. Qed.

Lemma NoDup_upsert_receipts now vs tbl :
  NoDup (map receipt.receipt_id tbl) ->
  NoDup (map receipt.receipt_id (upsert_receipts now vs tbl)).
Proof. apply NoDup_keys_upsert_all; reflexivity. Qed.

(** [TallyETL.syncBills] and [TallyETL.syncReceipts] in closed form. *)
Lemma TallyETL_syncBills_spec now rows s :
  TallyETL.syncBills now rows s
  = match rows, check_all bill_not_null rows with
    | [], _ => (s, returned 0)
    | _, Some vs =>
        (with_bill s (upsert_bills now vs (t_bill s)),
         returned (Z.of_nat (List.length rows)))
    | _, None => (s, thrown "null value violates not-null constraint")
    end.
Proof.
  unfold TallyETL.syncBills. destruct rows as [|r rows]; [reflexivity|].
  rewrite upsert_loop_spec.
  destruct (check_all bill_not_null (r :: rows)); reflexivity.
Qed.

Lemma TallyETL_syncReceipts_spec now rows s :
  TallyETL.syncReceipts now rows s
  = match rows, check_all receipt_not_null rows with
    | [], _ => (s, returned 0)
    | _, Some vs =>
        (with_receipt s (upsert_receipts now vs (t_receipt s)),
         returned (Z.of_nat (List.length rows)))
    | _, None => (s, thrown "null value violates not-null constraint")
    end.
Proof.
  unfold TallyETL.syncReceipts. destruct rows as [|r rows]; [reflexivity|].
  rewrite upsert_loop_spec.
  destruct (check_all receipt_not_null (r :: rows)); reflexivity.
Qed.

Lemma with_bill_same s : with_bill s (t_bill s) = s.
Proof. destruct s; reflexivity. Qed.

Lemma with_receipt_same s : with_receipt s (t_receipt s) = s.
Proof. destruct s; reflexivity. Qed.

Lemma TallyETL_syncBills_returned now rows s s1 n :
  TallyETL.syncBills now rows s = (s1, returned n) <->
  exists vs, check_all bill_not_null rows = Some vs
             /\ s1 = with_bill s (upsert_bills now vs (t_bill s))
             /\ n = Z.of_nat (List.length rows).
Proof.
  rewrite TallyETL_syncBills_spec. destruct rows as [|r rows].
  - simpl. split.
    + intros H. inversion H. subst. exists []. simpl.
      rewrite with_bill_same. auto.
    + intros [vs [H1 [H2 H3]]]. inversion H1. subst. simpl.
      rewrite with_bill_same. reflexivity.
  - destruct (check_all bill_not_null (r :: rows)) as [vs|]; split.
    + intros H. inversion H. subst. exists vs. auto.
    + intros [vs' [H1 [H2 H3]]]. inversion H1. subst. reflexivity.
    + intros H. inversion H.
    + intros [vs' [H1 _]]. discriminate.
Qed.

Lemma TallyETL_syncReceipts_returned now rows s s1 n :
  TallyETL.syncReceipts now rows s = (s1, returned n) <->
  exists vs, check_all receipt_not_null rows = Some vs
             /\ s1 = with_receipt s (upsert_receipts now vs (t_receipt s))
             /\ n = Z.of_nat (List.length rows).
Proof.
  rewrite TallyETL_syncReceipts_spec. destruct rows as [|r rows].
  - simpl. split.
    + intros H. inversion H. subst. exists []. simpl.
      rewrite with_receipt_same. auto.
    + intros [vs [H1 [H2 H3]]]. inversion H1. subst. simpl.
      rewrite with_receipt_same. reflexivity.
  - destruct (check_all receipt_not_null (r :: rows)) as [vs|]; split.
    + intros H. inversion H. subst. exists vs. auto.
    + intros [vs' [H1 [H2 H3]]]. inversion H1. subst. reflexivity.
    + intros H. inversion H.
    + intros [vs' [H1 _]]. discriminate.
Qed.

(** Whether the upstream result set carries a voucher number. *)
Definition bill_in_upstream (rows : list tally_bill.row) (k : string) : bool :=
  existsb (fun r => sql_eq (tally_bill.bill_no r) (Some k)) rows.

Definition receipt_in_upstream (rows : list tally_receipt.row) (k : string)
  : bool :=
  existsb (fun r => sql_eq (tally_receipt.receipt_id r) (Some k)) rows.

Lemma bill_in_upstream_checked rows vs k :
  check_all bill_not_null rows = Some vs ->
  bill_in_upstream rows k
  = existsb (fun v => String.eqb (bill_values.bill_no v) k) vs.
Proof.
  apply check_all_existsb. intros r v. unfold bill_not_null.
  destruct (tally_bill.bill_no r), (tally_bill.bill_date r),
    (tally_bill.party_name r), (tally_bill.amount r); try discriminate.
  intros H. inversion H. reflexivity.
Qed.

Lemma receipt_in_upstream_checked rows vs k :
  check_all receipt_not_null rows = Some vs ->
  receipt_in_upstream rows k
  = existsb (fun v => String.eqb (receipt_values.receipt_id v) k) vs.
Proof.
  apply check_all_existsb. intros r v. unfold receipt_not_null.
  destruct (tally_receipt.receipt_id r), (tally_receipt.receipt_date r),
    (tally_receipt.party_name r), (tally_receipt.amount r); try discriminate.
  intros H. inversion H. reflexivity.
Qed.

(** C7. Ingestion upsert is idempotent: once the bills sync and the
    receipts sync have run, running both again on the same upstream
    vouchers succeeds with the same counts and leaves both tables with the
    same rows, in the same places, up to [last_sync_ts]; each row whose
    voucher number is upstream carries the time of the second run as
    [last_sync_ts], every other row is untouched, the other tables are
    untouched, and the voucher number remains a key (no duplicate row). *)
Theorem C7_sync_twice_idempotent :
  forall (t1 t1' t2 t2' : timestamp) bills receipts s s1 s2 nb nr,
    TallyETL.syncBills t1 bills s = (s1, returned nb) ->
    TallyETL.syncReceipts t1' receipts s1 = (s2, returned nr) ->
    exists s3 s4,
      TallyETL.syncBills t2 bills s2 = (s3, returned nb)
      /\ TallyETL.syncReceipts t2' receipts s3 = (s4, returned nr)
      /\ map erase_bill (t_bill s4) = map erase_bill (t_bill s2)
      /\ map erase_receipt (t_receipt s4) = map erase_receipt (t_receipt s2)
      /\ s4 = with_receipt (with_bill s2 (t_bill s4)) (t_receipt s4)
      /\ Forall2
           (fun b b' =>
              if bill_in_upstream bills (bill.bill_no b)
              then bill.last_sync_ts b' = t2
              else b' = b)
           (t_bill s2) (t_bill s4)
      /\ Forall2
           (fun r r' =>
              if receipt_in_upstream receipts (receipt.receipt_id r)
              then receipt.last_sync_ts r' = t2'
              else r' = r)
           (t_receipt s2) (t_receipt s4)
      /\ (NoDup (map bill.bill_no (t_bill s)) ->
          NoDup (map bill.bill_no (t_bill s4)))
      /\ (NoDup (map receipt.receipt_id (t_receipt s)) ->
          NoDup (map receipt.receipt_id (t_receipt s4))).
Proof.
  intros t1 t1' t2 t2' bills receipts s s1 s2 nb nr Hb Hr.
  apply TallyETL_syncBills_returned in Hb. destruct Hb as [vb [Hvb [Hs1 Hnb]]].
  apply TallyETL_syncReceipts_returned in Hr. destruct Hr as [vr [Hvr [Hs2 Hnr]]].
  set (B1 := upsert_bills t1 vb (t_bill s)) in *.
  set (R1 := upsert_receipts t1' vr (t_receipt s)) in *.
  assert (HB : t_bill s2 = B1) by (subst s2 s1; reflexivity).
  assert (HR : t_receipt s2 = R1) by (subst s2 s1; reflexivity).
  exists (with_bill s2 (upsert_bills t2 vb (t_bill s2))).
  exists (with_receipt (with_bill s2 (upsert_bills t2 vb (t_bill s2)))
            (upsert_receipts t2' vr (t_receipt s2))).
  split.
  { apply TallyETL_syncBills_returned. exists vb. auto. }
  split.
  { apply TallyETL_syncReceipts_returned. exists vr. auto. }
  cbn [t_bill t_receipt with_bill with_receipt]. rewrite HB, HR.
  split. { apply upsert_bills_idempotent. }
  split. { apply upsert_receipts_idempotent. }
  split. { reflexivity. }
  split.
  { eapply Forall2_impl; [|apply upsert_bills_replay_rows].
    intros b b'. cbv beta.
    rewrite (bill_in_upstream_checked bills vb) by assumption. auto. }
  split.
  { eapply Forall2_impl; [|apply upsert_receipts_replay_rows].
    intros r r'. cbv beta.
    rewrite (receipt_in_upstream_checked receipts vr) by assumption. auto. }
  split; intros Hnd.
  - apply NoDup_upsert_bills. apply NoDup_upsert_bills. assumption.
  - apply NoDup_upsert_receipts. apply NoDup_upsert_receipts. assumption.
Qed.

(** The receipts sync overwrites [bill_reference] with the upstream
    value: the link the auto-mapping pass sets between two syncs is reset
    by the second sync, and set again by the pass that follows it. *)
Lemma syncReceipts_resets_auto_link :
  let upstream :=
    [tally_receipt.mk (Some "R-1"%string) (Some 30)
       (Some "Acme Traders"%string) (Some (units 500)) receipt.CASH None None] in
  let s0 :=
    with_bill empty_store [bill.mk "B1" 10 "Acme Traders" (units 500) 0 0] in
  let s1 := fst (TallyETL.syncReceipts 1 upstream s0) in
  let s2 := fst (TallyETL.autoMapReceipts numeric_as_text s1) in
  let s3 := fst (TallyETL.syncReceipts 2 upstream s2) in
  let s4 := fst (TallyETL.autoMapReceipts numeric_as_text s3) in
  map receipt.bill_reference (t_receipt s1) = [None]
  /\ map receipt.bill_reference (t_receipt s2) = [Some "B1"%string]
  /\ map receipt.bill_reference (t_receipt s3) = [None]
  /\ map receipt.bill_reference (t_receipt s4) = [Some "B1"%string].
Proof. repeat split. Qed.

(** ** Malformed vouchers *)

Lemma check_all_total {Src Val : Type} (check : Src -> option Val) rows :
  (forall r, In r rows -> check r <> None) ->
  exists vs, check_all check rows = Some vs
             /\ Forall2 (fun r v => check r = Some v) rows vs.
Proof.
  induction rows as [|r rows IH]; intros H.
  - exists []. split; [reflexivity|constructor].
  - destruct IH as [vs [Hvs HF]]. { intros r' Hr'. apply H. right. exact Hr'. }
    destruct (check r) as [v|] eqn:Hr.
    + exists (v :: vs). simpl. rewrite Hr, Hvs. split; [reflexivity|].
      constructor; assumption.
    + exfalso. apply (H r); [left; reflexivity|assumption].
Qed.

Lemma check_all_none {Src Val : Type} (check : Src -> option Val) rows r :
  In r rows -> check r = None -> check_all check rows = None.
Proof.
  induction rows as [|r' rows IH]; intros Hin Hr; [destruct Hin|].
  simpl. destruct Hin as [->|Hin].
  - rewrite Hr. reflexivity.
  - rewrite (IH Hin Hr). destruct (check r'); reflexivity.
Qed.

Lemma Forall2_In_l {A B : Type} (R : A -> B -> Prop) l l' a :
  Forall2 R l l' -> In a l -> exists b, In b l' /\ R a b.
Proof.
  induction 1 as [|x y l l' HR HF IH]; intros Hin; [destruct Hin|].
  destruct Hin as [->|Hin].
  - exists y. split; [left; reflexivity|assumption].
  - destruct (IH Hin) as [b [Hb HRb]]. exists b. split; [right|]; assumption.
Qed.

Definition bill_of_voucher (e : env) (v : xml_voucher.t) : text_bill.t :=
  text_bill.mk (Some (xml_voucher.VOUCHERNUMBER v))
    (TallyXMLETL.formatTallyDate e (xml_voucher.DATE v))
    (Some (xml_voucher.PARTYLEDGERNAME v))
    (parseFloat_or_0 e (strip_non_numeric (xml_voucher.AMOUNT v))).

Lemma parseVouchersFromXML_spec e vs :
  TallyXMLETL.parseVouchersFromXML e vs
  = (map (bill_of_voucher e) (filter TallyXMLETL.complete vs), []).
Proof.
  induction vs as [|v vs IH]; [reflexivity|].
  cbn [TallyXMLETL.parseVouchersFromXML filter]. rewrite IH.
  destruct (TallyXMLETL.complete v); reflexivity.
Qed.

Lemma nonempty_false s : nonempty s = false <-> s = EmptyString.
Proof.
  unfold nonempty. rewrite negb_false_iff. apply String.eqb_eq.
Qed.

Lemma complete_false_iff v :
  TallyXMLETL.complete v = false <->
  xml_voucher.VOUCHERNUMBER v = EmptyString
  \/ xml_voucher.DATE v = EmptyString
  \/ xml_voucher.PARTYLEDGERNAME v = EmptyString
  \/ xml_voucher.AMOUNT v = EmptyString.
Proof.
  unfold TallyXMLETL.complete.
  rewrite !andb_false_iff, !nonempty_false. tauto.
Qed.

Lemma bill_not_null_none_iff r :
  bill_not_null r = None <->
  tally_bill.bill_no r = None \/ tally_bill.bill_date r = None
  \/ tally_bill.party_name r = None \/ tally_bill.amount r = None.
Proof.
  unfold bill_not_null.
  destruct (tally_bill.bill_no r), (tally_bill.bill_date r),
    (tally_bill.party_name r), (tally_bill.amount r);
    split; intros H; try discriminate; auto;
    repeat (destruct H as [H|H]; try discriminate); discriminate.
Qed.

Lemma TallyXMLETL_syncBills_spec e now vs s :
  TallyXMLETL.syncBills e now vs s
  = let bills := map (bill_of_voucher e) (filter TallyXMLETL.complete vs) in
    match bills, check_all (text_bill_check e) bills with
    | [], _ => (s, returned 0, [])
    | _, Some vals =>
        (with_bill s (upsert_bills now vals (t_bill s)),
         returned (Z.of_nat (List.length bills)), [])
    | _, None => (s, thrown "insert into bill failed", [])
    end.
Proof.
  unfold TallyXMLETL.syncBills. rewrite parseVouchersFromXML_spec. cbv zeta.
  destruct (map (bill_of_voucher e) (filter TallyXMLETL.complete vs))
    as [|b bills]; [reflexivity|].
  rewrite upsert_loop_spec.
  destruct (check_all (text_bill_check e) (b :: bills)); reflexivity.
Qed.

Lemma filter_filter_same {A : Type} (f : A -> bool) l :
  filter f (filter f l) = filter f l.
Proof.
  induction l as [|a l IH]; simpl; auto.
  destruct (f a) eqn:E; simpl; rewrite ?E, IH; reflexivity.
Qed.

Lemma holds_key_exists {Row : Type} (key : Row -> string) tbl k :
  holds_key key tbl k = true -> exists b, In b tbl /\ key b = k.
Proof.
  unfold holds_key. intros H. apply existsb_exists in H.
  destruct H as [b [Hb Hk]]. exists b. split; auto.
  apply String.eqb_eq. assumption.
Qed.

(** After a pass, each value of the pass has its row, stamped by the
    pass. *)
Lemma upsert_bills_row_of now vals tbl val :
  In val vals ->
  exists b, In b (upsert_bills now vals tbl)
            /\ bill.bill_no b = bill_values.bill_no val
            /\ bill.last_sync_ts b = now.
Proof.
  intros Hval.
  assert (Hp : holds_key bill.bill_no (upsert_bills now vals tbl)
                 (bill_values.bill_no val) = true)
    by (apply keys_present_after_pass; auto).
  apply holds_key_exists in Hp. destruct Hp as [b [Hb Hbk]].
  exists b. split; [exact Hb|]. split; [exact Hbk|].
  assert (Hst : Forall
            (fun b =>
               existsb (fun v => String.eqb (bill_values.bill_no v)
                                   (bill.bill_no b)) vals = true ->
               bill.last_sync_ts b = now)
            (upsert_bills now vals tbl))
    by (apply upsert_all_stamps; reflexivity).
  rewrite Forall_forall in Hst. apply (Hst b Hb).
  apply existsb_exists. exists val. split; [exact Hval|].
  apply String.eqb_eq. congruence.
Qed.

(** PostgreSQL accepts the bill of a voucher: it can read the date, the
    voucher number and the party fit their columns ([VARCHAR(50)],
    [VARCHAR(200)]: what exceeds them is spaces) and the amount fits
    [DECIMAL(15,2)]. *)
Definition bill_accepted (e : env) (v : xml_voucher.t) : Prop :=
  pg_date e (TallyXMLETL.formatTallyDate e (xml_voucher.DATE v)) <> None
  /\ varchar 50 (xml_voucher.VOUCHERNUMBER v) <> None
  /\ varchar 200 (xml_voucher.PARTYLEDGERNAME v) <> None
  /\ Z.abs (parseFloat_or_0 e (strip_non_numeric (xml_voucher.AMOUNT v)))
     < 10 ^ 15.

Lemma text_bill_check_voucher e v :
  (bill_accepted e v ->
   exists val,
     text_bill_check e (bill_of_voucher e v) = Some val
     /\ varchar 50 (xml_voucher.VOUCHERNUMBER v)
        = Some (bill_values.bill_no val))
  /\ (~ bill_accepted e v -> text_bill_check e (bill_of_voucher e v) = None).
Proof.
  unfold bill_accepted, text_bill_check, bill_of_voucher, decimal_15_2.
  cbn [text_bill.bill_no text_bill.bill_date text_bill.party_name
       text_bill.amount].
  destruct (pg_date e (TallyXMLETL.formatTallyDate e (xml_voucher.DATE v)))
    as [d|];
    [|split; [intros [H _]; congruence|reflexivity]].
  destruct (varchar 50 (xml_voucher.VOUCHERNUMBER v)) as [k|];
    [|split; [intros [_ [H _]]; congruence|reflexivity]].
  destruct (varchar 200 (xml_voucher.PARTYLEDGERNAME v)) as [p|];
    [|split; [intros [_ [_ [H _]]]; congruence|reflexivity]].
  destruct (Z.abs (parseFloat_or_0 e
                     (strip_non_numeric (xml_voucher.AMOUNT v)))
            <? 10 ^ 15) eqn:E.
  - split; [|intros H; exfalso; apply H; apply Z.ltb_lt in E;
              repeat split; congruence].
    intros _. eexists. split; reflexivity.
  - split; [|reflexivity]. intros [_ [_ [_ H]]]. apply Z.ltb_ge in E. lia.
Qed.

(** What the XML bills phase does with the complete vouchers when
    PostgreSQL accepts them, and when it refuses one. *)
Lemma TallyXMLETL_syncBills_complete e now vs s :
  (forall v, In v vs -> TallyXMLETL.complete v = true -> bill_accepted e v) ->
  exists tbl,
    TallyXMLETL.syncBills e now vs s
    = (with_bill s tbl,
       returned (Z.of_nat (List.length (filter TallyXMLETL.complete vs))), [])
    /\ forall v, In v vs -> TallyXMLETL.complete v = true ->
         exists b, In b tbl
                   /\ varchar 50 (xml_voucher.VOUCHERNUMBER v)
                      = Some (bill.bill_no b)
                   /\ bill.last_sync_ts b = now.
Proof.
  intros Hacc. rewrite TallyXMLETL_syncBills_spec. cbv zeta.
  set (kept := filter TallyXMLETL.complete vs).
  destruct (check_all_total (text_bill_check e) (map (bill_of_voucher e) kept))
    as [vals [Hvals HF]].
  { intros b Hb. apply in_map_iff in Hb. destruct Hb as [v [<- Hv]].
    apply filter_In in Hv. destruct Hv as [Hv Hc].
    destruct (proj1 (text_bill_check_voucher e v) (Hacc v Hv Hc))
      as [val [Hval _]].
    congruence. }
  destruct (map (bill_of_voucher e) kept) as [|b0 bills] eqn:Hmap.
  - exists (t_bill s). rewrite with_bill_same.
    assert (Hk : kept = []) by (destruct kept; [reflexivity|discriminate]).
    rewrite Hk. split; [reflexivity|].
    intros v Hv Hc. exfalso.
    assert (Hin : In v kept) by (apply filter_In; auto).
    rewrite Hk in Hin. destruct Hin.
  - rewrite Hvals. exists (upsert_bills now vals (t_bill s)). split.
    + rewrite <- (length_map (bill_of_voucher e) kept), Hmap. reflexivity.
    + intros v Hv Hc.
      assert (Hin : In (bill_of_voucher e v) (b0 :: bills)).
      { rewrite <- Hmap. apply in_map. apply filter_In. auto. }
      destruct (Forall2_In_l _ _ _ _ HF Hin) as [val [Hval Hchk]].
      destruct (proj1 (text_bill_check_voucher e v) (Hacc v Hv Hc))
        as [val' [Hval' Hkey]].
      assert (val' = val) by congruence. subst val'.
      destruct (upsert_bills_row_of now vals (t_bill s) val Hval)
        as [b [Hb [Hbk Hst]]].
      exists b. split; [exact Hb|]. split; congruence.
Qed.

Lemma TallyXMLETL_syncBills_refused e now vs s v :
  In v vs -> TallyXMLETL.complete v = true -> ~ bill_accepted e v ->
  TallyXMLETL.syncBills e now vs s
  = (s, thrown "insert into bill failed", []).
Proof.
  intros Hv Hc Hacc. rewrite TallyXMLETL_syncBills_spec. cbv zeta.
  assert (Hin : In (bill_of_voucher e v)
                  (map (bill_of_voucher e) (filter TallyXMLETL.complete vs)))
    by (apply in_map, filter_In; auto).
  pose proof (check_all_none (text_bill_check e) _ _ Hin
                (proj2 (text_bill_check_voucher e v) Hacc)) as Hnone.
  destruct (map (bill_of_voucher e) (filter TallyXMLETL.complete vs));
    [destruct Hin|].
  rewrite Hnone. reflexivity.
Qed.

(** C9 (as amended).  In the XML service a raw bill voucher missing any
    of voucher number, date, party or amount is dropped by the parser,
    without a warning, as a per-record skip: the bills phase behaves
    exactly as on the remaining vouchers.  It upserts every one of them
    when PostgreSQL accepts them all (a date it can read, a number and
    a party within their column widths, an amount within DECIMAL(15,2));
    a single complete voucher that PostgreSQL refuses makes the phase
    throw and roll back, nothing being upserted.  In the TallyETL
    service a result row missing any of the four columns makes the
    bills phase throw and roll back, and the cycle is logged as failed:
    no record of the phase is upserted. *)
Theorem C9_malformed_vouchers :
  forall (e : env) (now now' : timestamp),
    (forall v,
       TallyXMLETL.complete v = false <->
       xml_voucher.VOUCHERNUMBER v = EmptyString
       \/ xml_voucher.DATE v = EmptyString
       \/ xml_voucher.PARTYLEDGERNAME v = EmptyString
       \/ xml_voucher.AMOUNT v = EmptyString)
    /\ (forall vs,
          TallyXMLETL.parseVouchersFromXML e vs
          = (map (bill_of_voucher e) (filter TallyXMLETL.complete vs), []))
    /\ (forall vs s,
          TallyXMLETL.syncBills e now vs s
          = TallyXMLETL.syncBills e now (filter TallyXMLETL.complete vs) s)
    /\ (forall vs s,
          (forall v, In v vs -> TallyXMLETL.complete v = true ->
                     bill_accepted e v) ->
          exists tbl,
            TallyXMLETL.syncBills e now vs s
            = (with_bill s tbl,
               returned
                 (Z.of_nat (List.length (filter TallyXMLETL.complete vs))),
               [])
            /\ forall v, In v vs -> TallyXMLETL.complete v = true ->
                 exists b, In b tbl
                           /\ varchar 50 (xml_voucher.VOUCHERNUMBER v)
                              = Some (bill.bill_no b)
                           /\ bill.last_sync_ts b = now)
    /\ (forall vs s v,
          In v vs -> TallyXMLETL.complete v = true -> ~ bill_accepted e v ->
          TallyXMLETL.syncBills e now vs s
          = (s, thrown "insert into bill failed", []))
    /\ (forall r,
          bill_not_null r = None <->
          tally_bill.bill_no r = None \/ tally_bill.bill_date r = None
          \/ tally_bill.party_name r = None \/ tally_bill.amount r = None)
    /\ (forall rows s r,
          In r rows -> bill_not_null r = None ->
          TallyETL.syncBills now rows s
          = (s, thrown "null value violates not-null constraint"))
    /\ (forall p rows receipts s r,
          In r rows -> bill_not_null r = None ->
          TallyETL.runETL p now now'
            (TallyETL.mk_tally true (Some rows) receipts) false s
          = (s, false,
             [log_failed "null value violates not-null constraint"],
             js_undefined)).
Proof.
  intros e now now'.
  split; [apply complete_false_iff|].
  split; [apply parseVouchersFromXML_spec|].
  split.
  { intros vs s. rewrite !TallyXMLETL_syncBills_spec, filter_filter_same.
    reflexivity. }
  split; [intros vs s; apply TallyXMLETL_syncBills_complete|].
  split; [intros vs s v; apply TallyXMLETL_syncBills_refused|].
  split; [apply bill_not_null_none_iff|].
  assert (Hsync : forall rows s r,
            In r rows -> bill_not_null r = None ->
            TallyETL.syncBills now rows s
            = (s, thrown "null value violates not-null constraint")).
  { intros rows s r Hin Hr. rewrite TallyETL_syncBills_spec.
    destruct rows as [|r0 rows]; [destruct Hin|].
    rewrite (check_all_none bill_not_null (r0 :: rows) r Hin Hr).
    reflexivity. }
  split; [exact Hsync|].
  intros p rows receipts s r Hin Hr. unfold TallyETL.runETL.
  cbn [negb TallyETL.connected TallyETL.bills_result].
  rewrite (Hsync rows s r Hin Hr). reflexivity.
Qed.

(** C9 fails as stated on the TallyETL service: a result set made of a
    well-formed row and of a row without voucher number makes the bills
    phase throw, and the well-formed row is not upserted either. *)
Lemma C9_counterexample :
  let good := tally_bill.mk (Some "S-1001"%string) (Some 20)
                (Some "Acme Traders"%string) (Some (units 1000)) in
  let malformed := tally_bill.mk None (Some 21)
                     (Some "Acme Traders"%string) (Some (units 50)) in
  TallyETL.syncBills 100 [good; malformed] empty_store
  = (empty_store, thrown "null value violates not-null constraint")
  /\ t_bill (fst (TallyETL.syncBills 100 [good; malformed] empty_store)) = []
  /\ TallyETL.runETL numeric_as_text 100 101
       (TallyETL.mk_tally true (Some [good; malformed]) (Some [])) false
       empty_store
     = (empty_store, false,
        [log_failed "null value violates not-null constraint"], js_undefined).
Proof. repeat split. Qed.

(** ** [ORDER BY ... LIMIT 1] *)

Section OrderBy.
Context {A : Type}.
Variable le : A -> A -> bool.

Lemma insert_by_perm x l : Permutation (insert_by le x l) (x :: l).
Proof.
  induction l as [|y l IH]; simpl; auto.
  destruct (le x y); auto.
  rewrite IH. apply perm_swap.
Qed.

Lemma order_by_perm l : Permutation (order_by le l) l.
Proof.
  induction l as [|x l IH]; simpl; auto.
  rewrite insert_by_perm. auto.
Qed.

Lemma order_by_In x l : In x (order_by le l) <-> In x l.
Proof.
  split; apply Permutation_in;
    [apply order_by_perm | symmetry; apply order_by_perm].
Qed.

Lemma order_by_nil l : order_by le l = [] <-> l = [].
Proof.
  split; intros H.
  - apply Permutation_nil. rewrite <- H. apply order_by_perm.
  - subst. reflexivity.
Qed.

Hypothesis le_total : forall x y, le x y = true \/ le y x = true.
Hypothesis le_trans :
  forall x y z, le x y = true -> le y z = true -> le x z = true.

(** The first row of the ordered result is below every row. *)
Lemma order_by_head l m :
  hd_error (order_by le l) = Some m ->
  In m l /\ forall x, In x l -> le m x = true.
Proof.
  revert m. induction l as [|a l IH]; intros m H; [discriminate|].
  simpl in H. destruct (order_by le l) as [|y s] eqn:Hs.
  - apply (proj1 (order_by_nil l)) in Hs. subst l. simpl in H.
    inversion H. subst m.
    split; [left; reflexivity|].
    intros x [->|[]]. destruct (le_total x x); assumption.
  - destruct (IH y eq_refl) as [Hy Hmin]. simpl in H.
    destruct (le a y) eqn:E; inversion H; subst m.
    + split; [left; reflexivity|].
      intros x [->|Hx].
      * destruct (le_total x x); assumption.
      * eapply le_trans; eauto.
    + split; [right; assumption|].
      intros x [->|Hx]; auto.
      destruct (le_total x y); congruence.
Qed.
End OrderBy.

Lemma by_bill_date_total x y :
  by_bill_date x y = true \/ by_bill_date y x = true.
Proof. unfold by_bill_date. rewrite !Z.leb_le. lia. Qed.

Lemma by_bill_date_trans x y z :
  by_bill_date x y = true -> by_bill_date y z = true ->
  by_bill_date x z = true.
Proof. unfold by_bill_date. rewrite !Z.leb_le. lia. Qed.

(** [... WHERE p ORDER BY bill_date LIMIT 1]: the row returned passes
    [p] and no row that passes [p] is older; no row is returned exactly
    when no row passes [p]. *)
Lemma oldest_spec (p : bill_status.row -> bool) l b :
  limit_1 (order_by by_bill_date (filter p l)) = Some b ->
  In b l /\ p b = true
  /\ forall b', In b' l -> p b' = true ->
       bill_status.bill_date b <= bill_status.bill_date b'.
Proof.
  intros H. unfold limit_1 in H.
  apply order_by_head in H;
    [|apply by_bill_date_total|apply by_bill_date_trans].
  destruct H as [Hin Hmin]. apply filter_In in Hin. destruct Hin as [Hin Hp].
  split; [exact Hin|]. split; [exact Hp|].
  intros b' Hb' Hp'. apply Z.leb_le. apply (Hmin b').
  apply filter_In. auto.
Qed.

Lemma oldest_none (p : bill_status.row -> bool) l :
  limit_1 (order_by by_bill_date (filter p l)) = None <->
  forall b, In b l -> p b = false.
Proof.
  unfold limit_1. split.
  - intros H b Hb. destruct (p b) eqn:E; auto.
    assert (Hin : In b (order_by by_bill_date (filter p l)))
      by (apply order_by_In, filter_In; auto).
    destruct (order_by by_bill_date (filter p l)); [destruct Hin|discriminate].
  - intros H.
    assert (Hnil : filter p l = []).
    { destruct (filter p l) as [|b t] eqn:E; auto.
      assert (Hb : In b (filter p l)) by (rewrite E; left; reflexivity).
      apply filter_In in Hb. destruct Hb as [Hb Hp].
      rewrite (H b Hb) in Hp. discriminate. }
    rewrite Hnil. reflexivity.
Qed.

(** ** The candidate queries *)

Lemma matchingBills_sound s r b :
  matchingBills s r = Some b ->
  In b (bill_status_of s)
  /\ bill_status.party_name b = receipt.party_name r
  /\ 0 < bill_status.remaining_due b
  /\ receipt.amount r <= bill_status.remaining_due b
  /\ forall b', In b' (bill_status_of s) ->
       bill_status.party_name b' = receipt.party_name r ->
       0 < bill_status.remaining_due b' ->
       receipt.amount r <= bill_status.remaining_due b' ->
       bill_status.bill_date b <= bill_status.bill_date b'.
Proof.
  unfold matchingBills. intros H. apply oldest_spec in H.
  destruct H as [Hin [Hp Hmin]].
  apply andb_true_iff in Hp. destruct Hp as [Hp H3].
  apply andb_true_iff in Hp. destruct Hp as [H1 H2].
  apply String.eqb_eq in H1. apply Z.ltb_lt in H2. apply Z.leb_le in H3.
  repeat split; auto.
  intros b' Hb' P1 P2 P3. apply Hmin; auto.
  rewrite P1, String.eqb_refl. simpl.
  apply andb_true_iff. split; [apply Z.ltb_lt|apply Z.leb_le]; assumption.
Qed.

Lemma matchingBills_none s r :
  matchingBills s r = None <->
  forall b, In b (bill_status_of s) ->
    bill_status.party_name b = receipt.party_name r ->
    0 < bill_status.remaining_due b ->
    bill_status.remaining_due b < receipt.amount r.
Proof.
  unfold matchingBills. rewrite oldest_none. split.
  - intros H b Hb P1 P2. specialize (H b Hb).
    rewrite P1, String.eqb_refl in H. simpl in H.
    apply andb_false_iff in H. destruct H as [H|H].
    + apply Z.ltb_ge in H. lia.
    + apply Z.leb_gt in H. exact H.
  - intros H b Hb.
    destruct (String.eqb (bill_status.party_name b) (receipt.party_name r))
      eqn:E1; auto. simpl.
    destruct (0 <? bill_status.remaining_due b) eqn:E2; auto. simpl.
    apply String.eqb_eq in E1. apply Z.ltb_lt in E2.
    apply Z.leb_gt. apply H; auto.
Qed.

Lemma TallyETL_candidateBill_sound s r c :
  TallyETL.candidateBill s r = Some c ->
  In c (bill_status_of s)
  /\ bill_status.party_name c = receipt.party_name r
  /\ 0 < bill_status.remaining_due c
  /\ bill_status.bill_date c <= receipt.receipt_date r
  /\ forall b', In b' (bill_status_of s) ->
       bill_status.party_name b' = receipt.party_name r ->
       0 < bill_status.remaining_due b' ->
       bill_status.bill_date b' <= receipt.receipt_date r ->
       bill_status.bill_date c <= bill_status.bill_date b'.
Proof.
  unfold TallyETL.candidateBill. intros H. apply oldest_spec in H.
  destruct H as [Hin [Hp Hmin]].
  apply andb_true_iff in Hp. destruct Hp as [Hp H3].
  apply andb_true_iff in Hp. destruct Hp as [H1 H2].
  apply String.eqb_eq in H1. apply Z.ltb_lt in H2. apply Z.leb_le in H3.
  repeat split; auto.
  intros b' Hb' P1 P2 P3. apply Hmin; auto.
  rewrite P1, String.eqb_refl. simpl.
  apply andb_true_iff. split; [apply Z.ltb_lt|apply Z.leb_le]; assumption.
Qed.

Lemma TallyETL_candidateBill_none s r :
  TallyETL.candidateBill s r = None <->
  forall b, In b (bill_status_of s) ->
    bill_status.party_name b = receipt.party_name r ->
    0 < bill_status.remaining_due b ->
    receipt.receipt_date r < bill_status.bill_date b.
Proof.
  unfold TallyETL.candidateBill. rewrite oldest_none. split.
  - intros H b Hb P1 P2. specialize (H b Hb).
    rewrite P1, String.eqb_refl in H. simpl in H.
    apply andb_false_iff in H. destruct H as [H|H].
    + apply Z.ltb_ge in H. lia.
    + apply Z.leb_gt in H. exact H.
  - intros H b Hb.
    destruct (String.eqb (bill_status.party_name b) (receipt.party_name r))
      eqn:E1; auto. simpl.
    destruct (0 <? bill_status.remaining_due b) eqn:E2; auto. simpl.
    apply String.eqb_eq in E1. apply Z.ltb_lt in E2.
    apply Z.leb_gt. apply H; auto.
Qed.

(** ** Comparing two NUMERIC values in JavaScript *)

Lemma js_ge_number x y : js_ge numeric_as_number x y = (y <=? x).
Proof.
  unfold js_ge. destruct (Z.ltb_spec x y), (Z.leb_spec y x);
    try reflexivity; lia.
Qed.

Lemma js_ge_number_iff x y : js_ge numeric_as_number x y = true <-> y <= x.
Proof. rewrite js_ge_number. apply Z.leb_le. Qed.

(** As texts, 500.00 is not below 1000.00, and 300.00 is below 500.00:
    the comparison of texts agrees with the comparison of amounts only
    when both have as many digits. *)
Lemma js_ge_text_samples :
  js_ge numeric_as_text (units 500) (units 1000) = true
  /\ js_ge numeric_as_text (units 500) (units 500) = true
  /\ js_ge numeric_as_text (units 500) (units 700) = false
  /\ js_ge numeric_as_text (units 300) (units 500) = false
  /\ js_ge numeric_as_text (units 1500) (units 10000) = true.
Proof. repeat split. Qed.

(** The TallyETL service links to the candidate exactly when the
    comparison with the receipt amount succeeds. *)
Lemma TallyETL_choose_sound p s r b :
  TallyETL.choose p s r = Some b ->
  TallyETL.candidateBill s r = Some b
  /\ js_ge p (bill_status.remaining_due b) (receipt.amount r) = true.
Proof.
  unfold TallyETL.choose.
  destruct (TallyETL.candidateBill s r) as [c|]; [|discriminate].
  destruct (js_ge p (bill_status.remaining_due c) (receipt.amount r)) eqn:E;
    [|discriminate].
  intros H. inversion H. subst. split; auto.
Qed.

Lemma TallyETL_choose_none p s r :
  TallyETL.choose p s r = None <->
  match TallyETL.candidateBill s r with
  | Some c => js_ge p (bill_status.remaining_due c) (receipt.amount r) = false
  | None => True
  end.
Proof.
  unfold TallyETL.choose.
  destruct (TallyETL.candidateBill s r) as [c|]; [|tauto].
  destruct (js_ge p (bill_status.remaining_due c) (receipt.amount r));
    split; intros H; try discriminate; reflexivity.
Qed.

(** ** The mapping loop *)

(** The three auto-mapping engines: the snapshot of unmapped receipts
    and the choice made for one receipt. *)
Record engine := mk_engine {
  unmapped : store -> list receipt.row;
  pick : store -> receipt.row -> option bill_status.row
}.

Definition run (E : engine) (s : store) : store * Z :=
  map_loop (pick E) (unmapped E s) s 0.

Definition realtime_engine : engine :=
  mk_engine TallyODBCService.unmappedReceipts matchingBills.

Definition xml_engine : engine :=
  mk_engine TallyXMLETL.unmappedReceipts matchingBills.

Definition etl_engine (p : numeric_parser) : engine :=
  mk_engine TallyETL.unmappedReceipts (TallyETL.choose p).

Lemma run_realtime s : TallyODBCService.autoMapReceipts s = run realtime_engine s.
Proof. reflexivity. Qed.

Lemma run_xml s : TallyXMLETL.autoMapReceipts s = run xml_engine s.
Proof. reflexivity. Qed.

Lemma run_etl p s : TallyETL.autoMapReceipts p s = run (etl_engine p) s.
Proof.
  unfold TallyETL.autoMapReceipts, run. cbn [unmapped pick etl_engine].
  destruct (TallyETL.unmappedReceipts s); reflexivity.
Qed.

(** The bill link of the receipt [rid], if the table has that receipt. *)
Definition link_of (tbl : list receipt.row) (rid : string)
  : option (option string) :=
  option_map receipt.bill_reference
    (find (fun r => String.eqb (receipt.receipt_id r) rid) tbl).

Lemma map_loop_app c l1 l2 s n :
  map_loop c (l1 ++ l2) s n
  = map_loop c l2 (fst (map_loop c l1 s n)) (snd (map_loop c l1 s n)).
Proof.
  revert s n. induction l1 as [|r l1 IH]; intros s n; [reflexivity|].
  simpl. destruct (c s r); apply IH.
Qed.

Lemma set_bill_reference_ids k rid tbl :
  map receipt.receipt_id (set_bill_reference k rid tbl)
  = map receipt.receipt_id tbl.
Proof.
  unfold set_bill_reference. rewrite map_map. apply map_ext.
  intros r. destruct (String.eqb (receipt.receipt_id r) rid); reflexivity.
Qed.

Lemma map_loop_ids c l s n :
  map receipt.receipt_id (t_receipt (fst (map_loop c l s n)))
  = map receipt.receipt_id (t_receipt s).
Proof.
  revert s n. induction l as [|r l IH]; intros s n; [reflexivity|].
  simpl. destruct (c s r); rewrite IH; [|reflexivity].
  cbn [t_receipt with_receipt]. apply set_bill_reference_ids.
Qed.

Lemma map_loop_bills c l s n : t_bill (fst (map_loop c l s n)) = t_bill s.
Proof.
  revert s n. induction l as [|r l IH]; intros s n; [reflexivity|].
  simpl. destruct (c s r); rewrite IH; reflexivity.
Qed.

Lemma link_of_set_other k rid rid' tbl :
  rid' <> rid ->
  link_of (set_bill_reference k rid tbl) rid' = link_of tbl rid'.
Proof.
  intros Hne. unfold link_of, set_bill_reference.
  induction tbl as [|r tbl IH]; [reflexivity|]. simpl.
  destruct (String.eqb (receipt.receipt_id r) rid) eqn:E; simpl.
  - apply String.eqb_eq in E.
    destruct (String.eqb (receipt.receipt_id r) rid') eqn:E'.
    + apply String.eqb_eq in E'. congruence.
    + exact IH.
  - destruct (String.eqb (receipt.receipt_id r) rid'); [reflexivity|exact IH].
Qed.

Lemma link_of_set_same k rid tbl :
  In rid (map receipt.receipt_id tbl) ->
  link_of (set_bill_reference k rid tbl) rid = Some (Some k).
Proof.
  unfold link_of, set_bill_reference.
  induction tbl as [|r tbl IH]; intros Hin; [destruct Hin|]. simpl.
  destruct (String.eqb (receipt.receipt_id r) rid) eqn:E; simpl; rewrite E.
  - reflexivity.
  - apply IH. destruct Hin as [Hin|Hin]; auto.
    apply String.eqb_neq in E. congruence.
Qed.

Lemma map_loop_link_other c l s n rid :
  ~ In rid (map receipt.receipt_id l) ->
  link_of (t_receipt (fst (map_loop c l s n))) rid = link_of (t_receipt s) rid.
Proof.
  revert s n. induction l as [|r l IH]; intros s n Hnin; [reflexivity|].
  simpl in Hnin. simpl. destruct (c s r).
  - rewrite IH by tauto. cbn [t_receipt with_receipt].
    apply link_of_set_other. intros ->. tauto.
  - apply IH. tauto.
Qed.

Lemma link_of_row tbl r :
  NoDup (map receipt.receipt_id tbl) -> In r tbl ->
  link_of tbl (receipt.receipt_id r) = Some (receipt.bill_reference r).
Proof.
  unfold link_of. induction tbl as [|x tbl IH]; intros Hnd Hin; [destruct Hin|].
  simpl in Hnd. inversion Hnd as [|? ? Hx Hnd']; subst. simpl.
  destruct Hin as [->|Hin].
  - rewrite String.eqb_refl. reflexivity.
  - destruct (String.eqb (receipt.receipt_id x) (receipt.receipt_id r)) eqn:E.
    + apply String.eqb_eq in E. exfalso. apply Hx. rewrite E.
      apply in_map. assumption.
    + apply IH; assumption.
Qed.

Lemma NoDup_map_filter {A B : Type} (f : A -> B) (p : A -> bool) l :
  NoDup (map f l) -> NoDup (map f (filter p l)).
Proof.
  induction l as [|a l IH]; intros H; simpl; [constructor|].
  simpl in H. inversion H as [|? ? Ha Hl]; subst.
  destruct (p a); simpl; auto.
  constructor; auto.
  intros Hin. apply Ha. apply in_map_iff in Hin. destruct Hin as [x [Hx Hin]].
  apply filter_In in Hin. rewrite <- Hx. apply in_map. tauto.
Qed.

Lemma NoDup_ids_ordered_filter (le : receipt.row -> receipt.row -> bool)
  (p : receipt.row -> bool) tbl :
  NoDup (map receipt.receipt_id tbl) ->
  NoDup (map receipt.receipt_id (order_by le (filter p tbl))).
Proof.
  intros H. eapply Permutation_NoDup.
  - apply Permutation_map. symmetry. apply order_by_perm.
  - apply NoDup_map_filter. assumption.
Qed.

(** A snapshot is well formed when it lists receipts of the table, each
    once. *)
Definition snapshot_ok (E : engine) : Prop :=
  forall s,
    NoDup (map receipt.receipt_id (t_receipt s)) ->
    NoDup (map receipt.receipt_id (unmapped E s))
    /\ forall r, In r (unmapped E s) -> In r (t_receipt s).

Lemma snapshot_ok_ordered_filter pick le p :
  snapshot_ok
    (mk_engine (fun s => order_by le (filter p (t_receipt s))) pick).
Proof.
  intros s Hnd. cbn [unmapped]. split.
  - apply NoDup_ids_ordered_filter. assumption.
  - intros r Hr. apply order_by_In in Hr. apply filter_In in Hr. tauto.
Qed.

Lemma snapshot_ok_realtime : snapshot_ok realtime_engine.
Proof. apply snapshot_ok_ordered_filter. Qed.

Lemma snapshot_ok_xml : snapshot_ok xml_engine.
Proof. apply snapshot_ok_ordered_filter. Qed.

Lemma snapshot_ok_etl p : snapshot_ok (etl_engine p).
Proof. apply snapshot_ok_ordered_filter. Qed.

(** The link a receipt of the snapshot has after the run is the one
    chosen at its turn, in the store [map_loop] has reached by then. *)
Lemma run_link (E : engine) s pre r post :
  snapshot_ok E ->
  NoDup (map receipt.receipt_id (t_receipt s)) ->
  unmapped E s = pre ++ r :: post ->
  link_of (t_receipt (fst (run E s))) (receipt.receipt_id r)
  = match pick E (fst (map_loop (pick E) pre s 0)) r with
    | Some b => Some (Some (bill_status.bill_no b))
    | None => Some (receipt.bill_reference r)
    end.
Proof.
  intros Hok Hnd Hsplit. destruct (Hok s Hnd) as [Hsnap Hsub].
  assert (Hr : In r (t_receipt s)).
  { apply Hsub. rewrite Hsplit. apply in_or_app. right. left. reflexivity. }
  rewrite Hsplit, map_app in Hsnap. simpl in Hsnap.
  apply NoDup_remove in Hsnap. destruct Hsnap as [_ Hnin].
  assert (Hpre : ~ In (receipt.receipt_id r) (map receipt.receipt_id pre))
    by (intros H; apply Hnin; apply in_or_app; auto).
  assert (Hpost : ~ In (receipt.receipt_id r) (map receipt.receipt_id post))
    by (intros H; apply Hnin; apply in_or_app; auto).
  unfold run. rewrite Hsplit, map_loop_app.
  set (si := fst (map_loop (pick E) pre s 0)).
  set (ni := snd (map_loop (pick E) pre s 0)).
  cbn [map_loop]. destruct (pick E si r) as [b|].
  - rewrite map_loop_link_other by assumption.
    cbn [t_receipt with_receipt]. apply link_of_set_same.
    unfold si. rewrite map_loop_ids. apply in_map. assumption.
  - rewrite map_loop_link_other by assumption.
    unfold si. rewrite map_loop_link_other by assumption.
    apply link_of_row; assumption.
Qed.

(** With no acceptable candidate for any receipt of the snapshot, the
    loop changes nothing. *)
Lemma map_loop_none c l s n :
  (forall r, In r l -> c s r = None) -> map_loop c l s n = (s, n).
Proof.
  induction l as [|r l IH]; intros H; [reflexivity|].
  simpl. rewrite (H r) by (left; reflexivity).
  apply IH. intros r' Hr'. apply H. right. assumption.
Qed.

(** ** FIFO mapping *)

(** The scenario of the FIFO property: two bills of one party, due 500
    each, the later one stored first, and one unmapped receipt. *)
Definition fifo_bills (d1 d2 : date) : list bill.row :=
  [bill.mk "B2" d2 "Acme Traders" (units 500) 0 0;
   bill.mk "B1" d1 "Acme Traders" (units 500) 0 0].

Definition fifo_receipt (dr : date) (amt : Z) (link : option string)
  : receipt.row :=
  receipt.mk "R-1" dr "Acme Traders" (units amt) receipt.CASH None link 0 0.

Definition fifo_store (d1 d2 dr : date) (amt : Z) (link : option string)
  : store :=
  with_receipt (with_bill empty_store (fifo_bills d1 d2))
    [fifo_receipt dr amt link].

Lemma fifo_realtime d1 d2 dr :
  d1 < d2 ->
  TallyODBCService.autoMapReceipts (fifo_store d1 d2 dr 500 None)
  = (fifo_store d1 d2 dr 500 (Some "B1"%string), 1).
Proof.
  intros H. assert (E : (d2 <=? d1) = false) by (apply Z.leb_gt; lia).
  unfold TallyODBCService.autoMapReceipts, TallyODBCService.unmappedReceipts,
    matchingBills, bill_status_of, fifo_store.
  cbn. unfold by_bill_date. cbn. rewrite E. reflexivity.
Qed.

Lemma fifo_xml d1 d2 dr :
  d1 < d2 ->
  TallyXMLETL.autoMapReceipts (fifo_store d1 d2 dr 500 None)
  = (fifo_store d1 d2 dr 500 (Some "B1"%string), 1).
Proof.
  intros H. assert (E : (d2 <=? d1) = false) by (apply Z.leb_gt; lia).
  unfold TallyXMLETL.autoMapReceipts, TallyXMLETL.unmappedReceipts,
    matchingBills, bill_status_of, fifo_store.
  cbn. unfold by_bill_date. cbn. rewrite E. reflexivity.
Qed.

Lemma fifo_etl p d1 d2 dr :
  d1 < d2 ->
  TallyETL.autoMapReceipts p (fifo_store d1 d2 dr 500 None)
  = if d1 <=? dr then (fifo_store d1 d2 dr 500 (Some "B1"%string), 1)
    else (fifo_store d1 d2 dr 500 None, 0).
Proof.
  intros H. assert (E : (d2 <=? d1) = false) by (apply Z.leb_gt; lia).
  assert (Hge : js_ge p 50000 50000 = true) by (destruct p; reflexivity).
  unfold TallyETL.autoMapReceipts, TallyETL.unmappedReceipts,
    TallyETL.choose, TallyETL.candidateBill, bill_status_of, fifo_store.
  cbn -[js_ge].
  destruct (d1 <=? dr) eqn:E1; destruct (d2 <=? dr) eqn:E2; cbn -[js_ge];
    unfold by_bill_date; cbn -[js_ge]; rewrite ?E; cbn -[js_ge];
    rewrite ?Hge; try reflexivity.
  apply Z.leb_le in E2. apply Z.leb_gt in E1. lia.
Qed.

(** C5 (as amended).  For a receipt without bill link, the real-time and
    XML services link the bill with the earliest bill date among the
    bills of the same party with [remaining_due > 0] that pass the
    eligibility rule, and leave the receipt alone only when there is no
    such bill.  The TallyETL service looks at one bill only, the earliest
    among the party's bills with [remaining_due > 0] dated on or before
    the receipt date, and links no other bill; where the driver delivers
    amounts as numbers it links that bill exactly when it passes the
    eligibility rule.  In the scenario (B1 at d1 and B2 at d2 > d1, 500
    due each, a receipt of 500) the real-time and XML services link the
    receipt to B1; TallyETL does so when the receipt is not dated before
    d1 and leaves it unmapped otherwise. *)
Theorem C5_fifo_oldest_bill :
  (forall s r b,
     matchingBills s r = Some b ->
     In b (bill_status_of s)
     /\ bill_status.party_name b = receipt.party_name r
     /\ 0 < bill_status.remaining_due b
     /\ receipt.amount r <= bill_status.remaining_due b
     /\ forall b', In b' (bill_status_of s) ->
          bill_status.party_name b' = receipt.party_name r ->
          0 < bill_status.remaining_due b' ->
          receipt.amount r <= bill_status.remaining_due b' ->
          bill_status.bill_date b <= bill_status.bill_date b')
  /\ (forall s r,
        matchingBills s r = None <->
        forall b, In b (bill_status_of s) ->
          bill_status.party_name b = receipt.party_name r ->
          0 < bill_status.remaining_due b ->
          bill_status.remaining_due b < receipt.amount r)
  /\ (forall p s r b,
        TallyETL.choose p s r = Some b ->
        In b (bill_status_of s)
        /\ bill_status.party_name b = receipt.party_name r
        /\ 0 < bill_status.remaining_due b
        /\ bill_status.bill_date b <= receipt.receipt_date r
        /\ (p = numeric_as_number ->
            receipt.amount r <= bill_status.remaining_due b)
        /\ forall b', In b' (bill_status_of s) ->
             bill_status.party_name b' = receipt.party_name r ->
             0 < bill_status.remaining_due b' ->
             bill_status.bill_date b' <= receipt.receipt_date r ->
             bill_status.bill_date b <= bill_status.bill_date b')
  /\ (forall p s r,
        TallyETL.candidateBill s r = None -> TallyETL.choose p s r = None)
  /\ (forall s r,
        TallyETL.choose numeric_as_number s r = None <->
        match TallyETL.candidateBill s r with
        | Some c => bill_status.remaining_due c < receipt.amount r
        | None => True
        end)
  /\ (forall p d1 d2 dr,
        d1 < d2 ->
        TallyODBCService.autoMapReceipts (fifo_store d1 d2 dr 500 None)
        = (fifo_store d1 d2 dr 500 (Some "B1"%string), 1)
        /\ TallyXMLETL.autoMapReceipts (fifo_store d1 d2 dr 500 None)
           = (fifo_store d1 d2 dr 500 (Some "B1"%string), 1)
        /\ (d1 <= dr ->
            TallyETL.autoMapReceipts p (fifo_store d1 d2 dr 500 None)
            = (fifo_store d1 d2 dr 500 (Some "B1"%string), 1))
        /\ (dr < d1 ->
            TallyETL.autoMapReceipts p (fifo_store d1 d2 dr 500 None)
            = (fifo_store d1 d2 dr 500 None, 0))).
Proof.
  split; [apply matchingBills_sound|].
  split; [apply matchingBills_none|].
  split.
  { intros p s r b H. apply TallyETL_choose_sound in H.
    destruct H as [Hc Hamt].
    apply TallyETL_candidateBill_sound in Hc.
    destruct Hc as (H1 & H2 & H3 & H4 & H5).
    repeat (split; [assumption|]).
    split; [|assumption].
    intros ->. apply js_ge_number_iff. assumption. }
  split.
  { intros p s r H. apply TallyETL_choose_none. rewrite H. exact I. }
  split.
  { intros s r. rewrite TallyETL_choose_none.
    destruct (TallyETL.candidateBill s r) as [c|]; [|tauto].
    rewrite js_ge_number. rewrite Z.leb_gt. tauto. }
  intros p d1 d2 dr H.
  split; [apply fifo_realtime; assumption|].
  split; [apply fifo_xml; assumption|].
  split; intros H'; rewrite fifo_etl by assumption.
  - replace (d1 <=? dr) with true by (symmetry; apply Z.leb_le; lia).
    reflexivity.
  - replace (d1 <=? dr) with false by (symmetry; apply Z.leb_gt; lia).
    reflexivity.
Qed.

(** C5 fails as stated on the TallyETL service.  First store: B1 (day 1,
    300 due) and B2 (day 2, 500 due), a receipt of 500 on day 3; the only
    bill that passes the eligibility rule is B2, which the shared
    candidate query of the other services returns, yet TallyETL leaves
    the receipt unmapped.  Second store, the scenario itself: B1 (day 10)
    and B2 (day 20), 500 due each, a receipt of 500 dated day 5; TallyETL
    leaves it unmapped. *)
Lemma C5_counterexample :
  let s1 :=
    with_receipt
      (with_bill empty_store
         [bill.mk "B1" 1 "Acme Traders" (units 300) 0 0;
          bill.mk "B2" 2 "Acme Traders" (units 500) 0 0])
      [fifo_receipt 3 500 None] in
  option_map bill_status.bill_no (matchingBills s1 (fifo_receipt 3 500 None))
  = Some "B2"%string
  /\ TallyETL.autoMapReceipts numeric_as_number s1 = (s1, 0)
  /\ TallyETL.autoMapReceipts numeric_as_text s1 = (s1, 0)
  /\ TallyETL.autoMapReceipts numeric_as_number (fifo_store 10 20 5 500 None)
     = (fifo_store 10 20 5 500 None, 0)
  /\ TallyETL.autoMapReceipts numeric_as_text (fifo_store 10 20 5 500 None)
     = (fifo_store 10 20 5 500 None, 0).
Proof. repeat split. Qed.

(** ** Eligibility *)

(** What it means for an engine to respect the eligibility rule, for a
    receipt [r] of the snapshot, [si] being the store when the loop
    reaches [r]: the link [r] has after the run is the bill chosen for it
    in [si], or its former link when none is chosen; a chosen bill is a
    row of [bill_status] for the party of [r] whose [remaining_due] is at
    least the amount of [r]; and none is chosen when the amount of [r]
    exceeds the [remaining_due] of every bill of its party. *)
Definition eligibility_respected (E : engine) : Prop :=
  forall s pre r post,
    NoDup (map receipt.receipt_id (t_receipt s)) ->
    unmapped E s = pre ++ r :: post ->
    let si := fst (map_loop (pick E) pre s 0) in
    link_of (t_receipt (fst (run E s))) (receipt.receipt_id r)
    = match pick E si r with
      | Some b => Some (Some (bill_status.bill_no b))
      | None => Some (receipt.bill_reference r)
      end
    /\ (forall b,
          pick E si r = Some b ->
          In b (bill_status_of si)
          /\ bill_status.party_name b = receipt.party_name r
          /\ receipt.amount r <= bill_status.remaining_due b)
    /\ ((forall b,
           In b (bill_status_of si) ->
           bill_status.party_name b = receipt.party_name r ->
           bill_status.remaining_due b < receipt.amount r) ->
        pick E si r = None).

Lemma eligibility_realtime : eligibility_respected realtime_engine.
Proof.
  intros s pre r post Hnd Hsplit si.
  split; [apply (run_link realtime_engine s pre r post);
          auto using snapshot_ok_realtime|].
  cbn [pick realtime_engine]. split.
  - intros b H. apply matchingBills_sound in H. tauto.
  - intros H. apply matchingBills_none. intros b Hb Hp _. apply H; auto.
Qed.

Lemma eligibility_xml : eligibility_respected xml_engine.
Proof.
  intros s pre r post Hnd Hsplit si.
  split; [apply (run_link xml_engine s pre r post);
          auto using snapshot_ok_xml|].
  cbn [pick xml_engine]. split.
  - intros b H. apply matchingBills_sound in H. tauto.
  - intros H. apply matchingBills_none. intros b Hb Hp _. apply H; auto.
Qed.

(** TallyETL respects the rule where the driver delivers amounts as
    numbers. *)
Lemma eligibility_etl : eligibility_respected (etl_engine numeric_as_number).
Proof.
  intros s pre r post Hnd Hsplit si.
  split; [apply (run_link (etl_engine numeric_as_number) s pre r post);
          auto using snapshot_ok_etl|].
  cbn [pick etl_engine]. split.
  - intros b H. apply TallyETL_choose_sound in H. destruct H as [Hc Hamt].
    apply js_ge_number_iff in Hamt.
    apply TallyETL_candidateBill_sound in Hc. tauto.
  - intros H. apply TallyETL_choose_none.
    destruct (TallyETL.candidateBill si r) as [c|] eqn:Hc; [|exact I].
    apply TallyETL_candidateBill_sound in Hc.
    destruct Hc as [Hin [Hp _]].
    specialize (H c Hin Hp).
    rewrite js_ge_number. apply Z.leb_gt. assumption.
Qed.

(** Whatever the driver does, the link a receipt has after a TallyETL
    run is the candidate of its turn, taken exactly when the JavaScript
    comparison with the receipt amount succeeds. *)
Lemma etl_run_link p s pre r post :
  NoDup (map receipt.receipt_id (t_receipt s)) ->
  TallyETL.unmappedReceipts s = pre ++ r :: post ->
  let si := fst (map_loop (TallyETL.choose p) pre s 0) in
  link_of (t_receipt (fst (TallyETL.autoMapReceipts p s)))
    (receipt.receipt_id r)
  = match TallyETL.candidateBill si r with
    | Some c =>
        if js_ge p (bill_status.remaining_due c) (receipt.amount r)
        then Some (Some (bill_status.bill_no c))
        else Some (receipt.bill_reference r)
    | None => Some (receipt.bill_reference r)
    end.
Proof.
  intros Hnd Hsplit si. rewrite run_etl.
  rewrite (run_link (etl_engine p) s pre r post);
    auto using snapshot_ok_etl.
  cbn [pick etl_engine]. fold si. unfold TallyETL.choose.
  destruct (TallyETL.candidateBill si r) as [c|]; [|reflexivity].
  destruct (js_ge p (bill_status.remaining_due c) (receipt.amount r));
    reflexivity.
Qed.

Lemma unmapped_is_null_xml s r :
  In r (TallyXMLETL.unmappedReceipts s) -> receipt.bill_reference r = None.
Proof.
  unfold TallyXMLETL.unmappedReceipts. intros H.
  apply order_by_In in H. apply filter_In in H. destruct H as [_ H].
  destruct (receipt.bill_reference r); [discriminate|reflexivity].
Qed.

Lemma unmapped_is_null_etl s r :
  In r (TallyETL.unmappedReceipts s) -> receipt.bill_reference r = None.
Proof.
  unfold TallyETL.unmappedReceipts. intros H.
  apply order_by_In in H. apply filter_In in H. destruct H as [_ H].
  destruct (receipt.bill_reference r); [discriminate|reflexivity].
Qed.

Lemma unmapped_is_null_realtime s r :
  In r (TallyODBCService.unmappedReceipts s) ->
  receipt.bill_reference r = None
  \/ receipt.bill_reference r = Some EmptyString.
Proof.
  unfold TallyODBCService.unmappedReceipts. intros H.
  apply order_by_In in H. apply filter_In in H. destruct H as [_ H].
  destruct (receipt.bill_reference r) as [k|]; [right|left; reflexivity].
  simpl in H. apply String.eqb_eq in H. congruence.
Qed.

(** C6.  The real-time and XML services, and the TallyETL service where
    the driver delivers amounts as numbers, link a receipt to a bill only
    if, when the loop reaches the receipt, the [remaining_due] of that
    bill is at least the amount of the receipt; a receipt whose amount
    exceeds the [remaining_due] of every bill of its party is left as it
    was, that is without bill link (the real-time service also treats an
    empty link as no link).  A receipt of 700 against B1 and B2, 500 due
    each, remains unmapped in all three.  Where the driver delivers
    amounts as text, TallyETL compares the two texts: a receipt of 1000
    against B1 and B2, 500 due each, is linked to B1, which the other two
    services leave unmapped. *)
Theorem C6_eligibility_rule :
  eligibility_respected realtime_engine
  /\ eligibility_respected xml_engine
  /\ eligibility_respected (etl_engine numeric_as_number)
  /\ (forall p s,
        TallyODBCService.autoMapReceipts s = run realtime_engine s
        /\ TallyXMLETL.autoMapReceipts s = run xml_engine s
        /\ TallyETL.autoMapReceipts p s = run (etl_engine p) s)
  /\ (forall p s r,
        (In r (unmapped realtime_engine s) ->
         receipt.bill_reference r = None
         \/ receipt.bill_reference r = Some EmptyString)
        /\ (In r (unmapped xml_engine s) -> receipt.bill_reference r = None)
        /\ (In r (unmapped (etl_engine p) s) ->
            receipt.bill_reference r = None))
  /\ TallyODBCService.autoMapReceipts (fifo_store 10 20 30 700 None)
     = (fifo_store 10 20 30 700 None, 0)
  /\ TallyXMLETL.autoMapReceipts (fifo_store 10 20 30 700 None)
     = (fifo_store 10 20 30 700 None, 0)
  /\ (forall p,
        TallyETL.autoMapReceipts p (fifo_store 10 20 30 700 None)
        = (fifo_store 10 20 30 700 None, 0))
  /\ TallyODBCService.autoMapReceipts (fifo_store 10 20 30 1000 None)
     = (fifo_store 10 20 30 1000 None, 0)
  /\ TallyXMLETL.autoMapReceipts (fifo_store 10 20 30 1000 None)
     = (fifo_store 10 20 30 1000 None, 0)
  /\ TallyETL.autoMapReceipts numeric_as_number
       (fifo_store 10 20 30 1000 None)
     = (fifo_store 10 20 30 1000 None, 0)
  /\ TallyETL.autoMapReceipts numeric_as_text
       (fifo_store 10 20 30 1000 None)
     = (fifo_store 10 20 30 1000 (Some "B1"%string), 1)
  /\ map (fun b => (bill_status.bill_no b, bill_status.remaining_due b))
       (bill_status_of (fifo_store 10 20 30 1000 (Some "B1"%string)))
     = [("B2"%string, units 500); ("B1"%string, units (-500))].
Proof.
  split; [apply eligibility_realtime|].
  split; [apply eligibility_xml|].
  split; [apply eligibility_etl|].
  split.
  { intros p s. split; [apply run_realtime|]. split; [apply run_xml|].
    apply run_etl. }
  split.
  { intros p s r. split; [apply unmapped_is_null_realtime|].
    split; [apply unmapped_is_null_xml|apply unmapped_is_null_etl]. }
  split; [reflexivity|].
  split; [reflexivity|].
  split; [intros p; destruct p; reflexivity|].
  repeat split.
Qed.

(** ** The sync cycle *)

Lemma TallyETL_runETL_undefined p t t' src running s :
  snd (TallyETL.runETL p t t' src running s) = js_undefined.
Proof.
  unfold TallyETL.runETL.
  destruct running; [reflexivity|].
  destruct (negb (TallyETL.connected src)); [reflexivity|].
  destruct (TallyETL.bills_result src) as [bills|]; [|reflexivity].
  destruct (TallyETL.syncBills t bills s) as [s1 [n|msg]]; [|reflexivity].
  destruct (TallyETL.receipts_result src) as [receipts|]; [|reflexivity].
  destruct (TallyETL.syncReceipts t' receipts s1) as [s2 [m|msg]];
    [|reflexivity].
  destruct (TallyETL.autoMapReceipts p s2). reflexivity.
Qed.

Lemma TallyXMLETL_runETL_undefined e t t' src running s :
  snd (TallyXMLETL.runETL e t t' src running s) = js_undefined.
Proof.
  unfold TallyXMLETL.runETL.
  destruct running; [reflexivity|].
  destruct (negb (TallyXMLETL.connected src)); [reflexivity|].
  destruct (TallyXMLETL.bills_response src) as [bills|]; [|reflexivity].
  destruct (TallyXMLETL.syncBills e t bills s) as [[s1 [n|msg]] w];
    [|reflexivity].
  destruct (TallyXMLETL.receipts_response src) as [receipts|]; [|reflexivity].
  destruct (TallyXMLETL.syncReceipts e t' receipts s1) as [[s2 [m|msg]] w'];
    [|reflexivity].
  destruct (TallyXMLETL.autoMapReceipts s2). reflexivity.
Qed.

Lemma TallyODBCService_runSync_undefined e t t' now src this s :
  snd (TallyODBCService.runSync e t t' now src this s) = js_undefined.
Proof.
  unfold TallyODBCService.runSync.
  destruct (TallyODBCService.isRunning this); [reflexivity|].
  destruct (TallyODBCService.connectionMethod this) as [[| |]|].
  - destruct (TallyODBCService.odbc_bills src) as [bills|]; [|reflexivity].
    destruct (TallyODBCService.syncBillsODBC e t bills s) as [s1 [n|msg]];
      [|reflexivity].
    destruct (TallyODBCService.odbc_receipts src) as [receipts|];
      [|reflexivity].
    destruct (TallyODBCService.syncReceiptsODBC e t' receipts s1)
      as [s2 [m|msg]]; [|reflexivity].
    destruct (TallyODBCService.autoMapReceipts s2). reflexivity.
  - destruct (TallyODBCService.xml_bills src) as [bills|]; [|reflexivity].
    destruct (TallyXMLETL.syncBills e t bills s) as [[s1 [n|msg]] w];
      [|reflexivity].
    destruct (TallyODBCService.xml_receipts src) as [receipts|];
      [|reflexivity].
    destruct (TallyXMLETL.syncReceipts e t' receipts s1) as [[s2 [m|msg]] w'];
      [|reflexivity].
    destruct (TallyODBCService.autoMapReceipts s2). reflexivity.
  - destruct (TallyODBCService.odbc_bills src) as [bills|]; [|reflexivity].
    destruct (TallyODBCService.syncBillsODBC e t bills s) as [s1 [n|msg]];
      [|reflexivity].
    destruct (TallyODBCService.odbc_receipts src) as [receipts|];
      [|reflexivity].
    destruct (TallyODBCService.syncReceiptsODBC e t' receipts s1)
      as [s2 [m|msg]]; [|reflexivity].
    destruct (TallyODBCService.autoMapReceipts s2). reflexivity.
  - destruct (TallyODBCService.xml_bills src) as [bills|]; [|reflexivity].
    destruct (TallyXMLETL.syncBills e t bills s) as [[s1 [n|msg]] w];
      [|reflexivity].
    destruct (TallyODBCService.xml_receipts src) as [receipts|];
      [|reflexivity].
    destruct (TallyXMLETL.syncReceipts e t' receipts s1) as [[s2 [m|msg]] w'];
      [|reflexivity].
    destruct (TallyODBCService.autoMapReceipts s2). reflexivity.
Qed.

(** An upstream source that answers and yields no voucher at all. *)
Definition etl_no_vouchers : TallyETL.tally :=
  TallyETL.mk_tally true (Some []) (Some []).

Definition xml_no_vouchers : TallyXMLETL.tally :=
  TallyXMLETL.mk_tally true (Some []) (Some []).

Definition realtime_no_vouchers (ledgers : option (list string))
  : TallyODBCService.tally :=
  TallyODBCService.mk_tally (Some []) (Some []) ledgers (Some []) (Some []).

(** C10 (as amended).  A sync cycle whose upstream source yields zero
    bill vouchers and zero receipt vouchers completes without error:
    it leaves the bill table as it was, logs the completion with a bills
    count of 0, a receipts count of 0 and the count of the auto-mapping
    pass over the receipts already in the store (0, with the store left
    untouched, when no receipt of the snapshot has an acceptable bill, as
    in an empty store), clears the running flag, and resolves to
    [undefined]: [runETL] and [runSync] log their counts and return no
    statistics object, on any input. *)
Theorem C10_cycle_without_vouchers :
  (forall p t t' s,
     TallyETL.runETL p t t' etl_no_vouchers false s
     = (fst (TallyETL.autoMapReceipts p s), false,
        [log_completed 0 0 (snd (TallyETL.autoMapReceipts p s))],
        js_undefined))
  /\ (forall e t t' s,
        TallyXMLETL.runETL e t t' xml_no_vouchers false s
        = (fst (TallyXMLETL.autoMapReceipts s), false,
           [log_completed 0 0 (snd (TallyXMLETL.autoMapReceipts s))],
           js_undefined))
  /\ (forall e t t' now ledgers method last s,
        TallyODBCService.runSync e t t' now (realtime_no_vouchers ledgers)
          (TallyODBCService.mk_service method false last) s
        = (fst (TallyODBCService.autoMapReceipts s),
           TallyODBCService.mk_service method false (Some now),
           [TallyODBCService.sync_completed 0 0
              (match method with
               | Some TallyODBCService.odbc | Some TallyODBCService.hybrid =>
                   TallyODBCService.syncLedgers ledgers
               | _ => 0
               end)
              (snd (TallyODBCService.autoMapReceipts s))],
           js_undefined))
  /\ (forall p s,
        t_bill (fst (TallyETL.autoMapReceipts p s)) = t_bill s
        /\ t_bill (fst (TallyXMLETL.autoMapReceipts s)) = t_bill s
        /\ t_bill (fst (TallyODBCService.autoMapReceipts s)) = t_bill s)
  /\ (forall p s,
        ((forall r, In r (TallyETL.unmappedReceipts s) ->
                    TallyETL.choose p s r = None) ->
         TallyETL.autoMapReceipts p s = (s, 0))
        /\ ((forall r, In r (TallyXMLETL.unmappedReceipts s) ->
                       matchingBills s r = None) ->
            TallyXMLETL.autoMapReceipts s = (s, 0))
        /\ ((forall r, In r (TallyODBCService.unmappedReceipts s) ->
                       matchingBills s r = None) ->
            TallyODBCService.autoMapReceipts s = (s, 0)))
  /\ (forall p t t' e now ledgers method last,
        TallyETL.runETL p t t' etl_no_vouchers false empty_store
        = (empty_store, false, [log_completed 0 0 0], js_undefined)
        /\ TallyXMLETL.runETL e t t' xml_no_vouchers false empty_store
           = (empty_store, false, [log_completed 0 0 0], js_undefined)
        /\ fst (fst (fst
             (TallyODBCService.runSync e t t' now (realtime_no_vouchers ledgers)
                (TallyODBCService.mk_service method false last) empty_store)))
           = empty_store)
  /\ (forall p e t t' now src running this s src' src'',
        snd (TallyETL.runETL p t t' src running s) = js_undefined
        /\ snd (TallyXMLETL.runETL e t t' src' running s) = js_undefined
        /\ snd (TallyODBCService.runSync e t t' now src'' this s)
           = js_undefined).
Proof.
  split.
  { intros p t t' s. unfold TallyETL.runETL. cbn.
    destruct (TallyETL.autoMapReceipts p s). reflexivity. }
  split.
  { intros e t t' s. unfold TallyXMLETL.runETL. cbn.
    destruct (TallyXMLETL.autoMapReceipts s). reflexivity. }
  split.
  { intros e t t' now ledgers method last s. unfold TallyODBCService.runSync.
    destruct method as [[| |]|]; cbn;
      destruct (TallyODBCService.autoMapReceipts s); reflexivity. }
  split.
  { intros p s. rewrite run_etl, run_xml, run_realtime.
    repeat split; apply map_loop_bills. }
  split.
  { intros p s. rewrite run_etl, run_xml, run_realtime.
    repeat split; intros H; apply map_loop_none; assumption. }
  split.
  { intros p t t' e now ledgers method last.
    split; [reflexivity|]. split; [reflexivity|].
    destruct method as [[| |]|]; reflexivity. }
  intros p e t t' now src running this s src' src''.
  split; [apply TallyETL_runETL_undefined|].
  split; [apply TallyXMLETL_runETL_undefined|].
  apply TallyODBCService_runSync_undefined.
Qed.

(** C10 fails as stated: on an upstream source without vouchers and an
    empty store, no service resolves to the statistics object; and on a
    store that already holds an unmapped receipt and its bill, the count
    of the auto-mapping pass is 1, not 0. *)
Lemma C10_counterexample :
  snd (TallyETL.runETL numeric_as_text 100 101 etl_no_vouchers false
         empty_store)
  <> js_stats 0 0 0
  /\ snd (TallyODBCService.runSync (mk_env "2026-01-01" (fun _ => None)
                                      (fun _ => None))
            100 101 102 (realtime_no_vouchers (Some []))
            (TallyODBCService.mk_service (Some TallyODBCService.odbc) false None)
            empty_store)
     <> js_stats 0 0 0
  /\ snd (fst (TallyETL.runETL numeric_as_text 100 101 etl_no_vouchers
                 false (fifo_store 10 20 30 500 None)))
     = [log_completed 0 0 1]
  /\ snd (fst (TallyETL.runETL numeric_as_number 100 101 etl_no_vouchers
                 false (fifo_store 10 20 30 500 None)))
     = [log_completed 0 0 1].
Proof.
  split; [discriminate|]. split; [discriminate|]. split; reflexivity.
Qed.

(** ** Session close *)

(** The approval flag is raised exactly when the variance exceeds the
    threshold, and only then are variance and expected cash left on the
    request for the handler. *)
Lemma validateCashVariance_flag vc cfg now s req counted expected :
  Session.counted_cash req = Some counted ->
  Session.calculate_expected_cash vc now s (Session.session_id req)
  = returned (Some expected) ->
  exists ann,
    Session.validateCashVariance vc cfg now s req = inl ann
    /\ (Session.requiresApproval ann = true <->
        Session.varianceThreshold cfg < Z.abs (counted - expected))
    /\ (Session.requiresApproval ann = true ->
        Session.req_variance ann = Some (counted - expected)
        /\ Session.req_expectedCash ann = Some expected)
    /\ (Session.requiresApproval ann = false ->
        Session.req_variance ann = None
        /\ Session.req_expectedCash ann = None).
Proof.
  intros Hc He. unfold Session.validateCashVariance. rewrite He, Hc.
  cbn [coalesce].
  destruct (Session.varianceThreshold cfg <? Z.abs (counted - expected)) eqn:E;
    eexists; (split; [reflexivity|]); cbn.
  - apply Z.ltb_lt in E. repeat split; auto; discriminate.
  - apply Z.ltb_ge in E. repeat split; auto; try discriminate.
    intros. lia.
Qed.

(** PostgreSQL refuses the UPDATE of the close handler: [$3] is at once
    the NUMERIC value of [variance] and the argument of [ABS]. *)
Lemma close_update_refused :
  deduce_types Session.close_update_parameters []
  = thrown "inconsistent types deduced for parameter".
Proof. reflexivity. Qed.

Lemma close_handler_refused now s req ann :
  Session.close_handler now s req ann
  = (Session.json_error 500 "Failed to close session", s).
Proof.
  unfold Session.close_handler. rewrite close_update_refused. reflexivity.
Qed.

(** No close request changes the store, and none is answered with a
    closed session. *)
Lemma close_changes_nothing vc cfg now req s :
  snd (Session.close vc cfg now req s) = s
  /\ exists status error,
       fst (Session.close vc cfg now req s) = Session.json_error status error.
Proof.
  unfold Session.close.
  destruct (Session.validateSessionClose now s req) as [cs|resp] eqn:Hv.
  - destruct (Session.validateCashVariance vc cfg now s req) as [ann|resp]
      eqn:Hc.
    + rewrite close_handler_refused. split; [reflexivity|do 2 eexists; reflexivity].
    + split; [reflexivity|]. unfold Session.validateCashVariance in Hc.
      destruct (Session.calculate_expected_cash vc now s
                  (Session.session_id req)).
      * destruct (Session.counted_cash req); [|discriminate].
        match type of Hc with (if ?c then _ else _) = _ => destruct c end;
          discriminate.
      * inversion Hc. cbn [fst]. do 2 eexists; reflexivity.
  - split; [reflexivity|]. unfold Session.validateSessionClose in Hv.
    destruct (Session.find_session s (Session.session_id req)) as [cs|].
    + destruct (cashier_session.status cs).
      * destruct (Session.unreleasedPaid now s cs); inversion Hv;
          cbn [fst]; do 2 eexists; reflexivity.
      * inversion Hv; cbn [fst]; do 2 eexists; reflexivity.
      * inversion Hv; cbn [fst]; do 2 eexists; reflexivity.
    + inversion Hv; cbn [fst]; do 2 eexists; reflexivity.
Qed.

(** The scenario of the variance property: an opening float of 1000 and
    one cash payment hint of 1500 recorded during the session, for a bill
    that is still due. *)
Definition variance_store : store :=
  mk_store
    [bill.mk "S-1001" 20 "Acme Traders" (units 2000) 0 0]
    []
    [users.mk "cashier-1" "CASHIER" None true]
    [cashier_session.mk "session-1" (Some "cashier-1"%string) 100 None
       (units 1000) None None None None cashier_session.ACTIVE]
    [payment_hint.mk (Some "S-1001"%string) (Some (units 1500)) (Some 0)
       (Some 0) (Some "cashier-1"%string) 150]
    [] [] [] [].

Definition close_request (counted : Z) : Session.request :=
  Session.mk_request "session-1" (Some (units counted)) false "cashier-1".

(** C8: no session is ever stored CLOSED.  Whatever the request, the
    store, the threshold and the way [calculate_expected_cash] resolves
    [session_id], the close route leaves the store as it was and answers
    with an error: a request that passes both middlewares has its UPDATE
    refused by PostgreSQL and is answered 500.  At the scenario of the
    claim (opening float 1000, one cash hint of 1500, counted 2000, the
    default threshold) the middleware finds the expected cash 2500, the
    variance -500 and flags approval, as the claim says, and the handler
    then answers 500, the session staying ACTIVE with no variance
    stored; with PostgreSQL's default setting the middleware itself
    answers 500, [calculate_expected_cash] raising on its ambiguous
    [session_id]. *)
Theorem C8_session_close_refused :
  (forall vc cfg now req s,
     snd (Session.close vc cfg now req s) = s
     /\ (exists status error,
          fst (Session.close vc cfg now req s)
          = Session.json_error status error)
     /\ (forall cs ann,
          Session.validateSessionClose now s req = inl cs ->
          Session.validateCashVariance vc cfg now s req = inl ann ->
          Session.close vc cfg now req s
          = (Session.json_error 500 "Failed to close session", s)))
  /\ (forall vc,
        vc <> Session.conflict_error ->
        Session.calculate_expected_cash vc 200 variance_store "session-1"
        = returned (Some (units 2500))
        /\ Session.validateCashVariance vc None 200 variance_store
             (close_request 2000)
           = inl (Session.mk_annotations true (Some (- units 500))
                    (Some (units 2500)))
        /\ Session.close vc None 200 (close_request 2000) variance_store
           = (Session.json_error 500 "Failed to close session",
              variance_store))
  /\ Session.close Session.conflict_error None 200 (close_request 2000)
       variance_store
     = (Session.json_error 500 "Variance validation failed", variance_store)
  /\ Session.find_session variance_store "session-1"
     = Some (cashier_session.mk "session-1" (Some "cashier-1"%string) 100
               None (units 1000) None None None None cashier_session.ACTIVE).
Proof.
  split; [|split; [|split; reflexivity]].
  - intros vc cfg now req s.
    destruct (close_changes_nothing vc cfg now req s) as [H1 H2].
    split; [exact H1|]. split; [exact H2|].
    intros cs ann Hv Hc. unfold Session.close. rewrite Hv, Hc.
    apply close_handler_refused.
  - intros vc Hvc. destruct vc; [congruence| |]; repeat split.
Qed.

(** ** The release routes *)

Section ReleaseFacts.
Import Release.
Variable bcrypt_compare : string -> string -> bool.
Variable audit_triggers : bool.

(** The row of [bill_status] the first middleware reads. *)
Definition find_bill (s : store) (b : option string)
  : option bill_status.row :=
  find (fun bs => sql_eq (Some (bill_status.bill_no bs)) b) (bill_status_of s).

Definition approval_missing (req : request) (bill : bill_status.row) : bool :=
  (0 <? bill_status.remaining_due bill)
  && negb (truthy (manager_pin (body req)))
  && negb (otp_verified (body req)).

(** The statements of a request that reaches the handler, up to the
    approval block. *)
Definition opening (b g : option string) : list event :=
  [(pool, SELECT_bill_status b); (pool, SELECT_release_by_bill b);
   (pool, SELECT_release_by_gatepass g); (dbClient, BEGIN);
   (dbClient, SELECT_bill_FOR_UPDATE b); (dbClient, SELECT_release_by_bill b)].

(** Both routes in closed form. *)
Definition route_outcome {Row : Type}
  (insert : request -> option string -> store -> option Row)
  (stmt : statement) (ok : Row -> response) (put : store -> Row -> store)
  (failure : string) (req : request) (s : store)
  : list event * response * store :=
  let b := params_or_body_bill_no req in
  let g := gatepass_id (body req) in
  match find_bill s b with
  | None => ([(pool, SELECT_bill_status b)],
             json_error 404 "Bill not found", s)
  | Some bill =>
      if has_release s b then
        ([(pool, SELECT_bill_status b); (pool, SELECT_release_by_bill b)],
         json_error 400 "Bill already released", s)
      else if approval_missing req bill then
        ([(pool, SELECT_bill_status b); (pool, SELECT_release_by_bill b)],
         json_error 400
           "Outstanding due requires manager PIN or customer OTP", s)
      else if gatepass_used s g then
        ([(pool, SELECT_bill_status b); (pool, SELECT_release_by_bill b);
          (pool, SELECT_release_by_gatepass g)],
         json_error 400 "Gatepass ID already used", s)
      else
        match approval bcrypt_compare req bill s with
        | (t, inr resp) => (opening b g ++ t, resp, s)
        | (t, inl approvedBy) =>
            match insert req approvedBy s with
            | Some row =>
                (opening b g ++ t ++ [(dbClient, stmt); (dbClient, COMMIT)],
                 ok row, put s row)
            | None =>
                (opening b g ++ t ++ [(dbClient, stmt); (dbClient, ROLLBACK)],
                 json_error 500 failure, s)
            end
        end
  end.

Definition put_self (s : store) (row : release_self.row) : store :=
  with_release_self s (t_release_self s ++ [row]).

Definition put_transporter (s : store) (row : release_transporter.row)
  : store :=
  with_release_transporter s (t_release_transporter s ++ [row]).

Lemma release_self_closed req s :
  release_self bcrypt_compare audit_triggers req s
  = route_outcome (insert_release_self audit_triggers) INSERT_release_self released_self
      put_self "Failed to release bill" req s.
Proof.
  unfold release_self, route_outcome, validateRelease, validateGatepassId,
    enforceUniqueRelease, self_handler, find_bill, approval_missing, opening,
    put_self.
  cbv zeta.
  destruct (find _ (bill_status_of s)) as [bill|]; [|reflexivity].
  cbn [bind query fst snd app].
  destruct (has_release s (params_or_body_bill_no req)); [reflexivity|].
  destruct ((0 <? bill_status.remaining_due bill)
            && negb (truthy (manager_pin (body req)))
            && negb (otp_verified (body req))); [reflexivity|].
  cbn [bind query next send fst snd app].
  destruct (gatepass_used s (gatepass_id (body req))); [reflexivity|].
  cbn [bind query next send fst snd app].
  destruct (approval bcrypt_compare req bill s) as [t [approvedBy|resp]];
    [|reflexivity].
  cbn [bind query next send fst snd app].
  destruct (insert_release_self audit_triggers req approvedBy s) as [row|];
    reflexivity.
Qed.

Lemma release_transporter_closed req s :
  release_transporter bcrypt_compare audit_triggers req s
  = route_outcome (insert_release_transporter audit_triggers)
      INSERT_release_transporter
      released_transporter put_transporter
      "Failed to release bill to transporter" req s.
Proof.
  unfold release_transporter, route_outcome, validateRelease,
    validateGatepassId, enforceUniqueRelease, transporter_handler, find_bill,
    approval_missing, opening, put_transporter.
  cbv zeta.
  destruct (find _ (bill_status_of s)) as [bill|]; [|reflexivity].
  cbn [bind query fst snd app].
  destruct (has_release s (params_or_body_bill_no req)); [reflexivity|].
  destruct ((0 <? bill_status.remaining_due bill)
            && negb (truthy (manager_pin (body req)))
            && negb (otp_verified (body req))); [reflexivity|].
  cbn [bind query next send fst snd app].
  destruct (gatepass_used s (gatepass_id (body req))); [reflexivity|].
  cbn [bind query next send fst snd app].
  destruct (approval bcrypt_compare req bill s) as [t [approvedBy|resp]];
    [|reflexivity].
  cbn [bind query next send fst snd app].
  destruct (insert_release_transporter audit_triggers req approvedBy s)
    as [row|];
    reflexivity.
Qed.

(** *** The pieces of a route *)

(** With [req.params] an object the middlewares read no bill number
    and the request is answered 404. *)
Lemma params_object_not_found {Row : Type} insert stmt ok put failure req s :
  has_params req = true ->
  @route_outcome Row insert stmt ok put failure req s
  = ([(pool, SELECT_bill_status None)], json_error 404 "Bill not found", s).
Proof.
  intros H. unfold route_outcome, params_or_body_bill_no, find_bill.
  rewrite H. cbv zeta.
  assert (Hf : forall l,
            find (fun bs => sql_eq (Some (bill_status.bill_no bs)) None) l
            = None).
  { induction l as [|x l IH]; [reflexivity|]. simpl. exact IH. }
  rewrite Hf. reflexivity.
Qed.


(** *** The routes as Express mounts them

    The paths [/release/self] and [/release/transporter] have no
    parameter and Express hands the middlewares an object [req.params]:
    [has_params] is true of every request that reaches them. *)

Lemma serve_mounted a s :
  has_params (request_of a) = true ->
  serve bcrypt_compare audit_triggers a s
  = ([(pool, SELECT_bill_status None)], json_error 404 "Bill not found", s).
Proof.
  intros H. destruct a as [req|req]; cbn [serve request_of] in *.
  - rewrite release_self_closed. apply params_object_not_found. assumption.
  - rewrite release_transporter_closed. apply params_object_not_found.
    assumption.
Qed.

Lemma serve_all_mounted l s :
  Forall (fun a => has_params (request_of a) = true) l ->
  serve_all bcrypt_compare audit_triggers l s
  = (map (fun _ => json_error 404 "Bill not found") l, s).
Proof.
  intros H. induction H as [|a l Ha _ IH]; [reflexivity|].
  cbn [serve_all map]. rewrite (serve_mounted a s Ha), IH. reflexivity.
Qed.

Definition about_gatepass (ev : event) : bool :=
  match snd ev with
  | SELECT_release_by_gatepass _ => true
  | _ => false
  end.

Definition on_dbClient (ev : event) : bool :=
  match fst ev with
  | dbClient => true
  | pool => false
  end.

(** C1: no release is ever recorded.  Whatever sequence of release
    attempts the mounted routes serve, on whatever store, every attempt
    is answered 404 "Bill not found" and the store is left as it was:
    the number of release records of every bill stays what it was, so
    that the attempts on a bill without record leave it without record,
    not with exactly one; and an attempt on a bill that does have a
    record is answered 404 as well, not "Bill already released". *)
Theorem C1_release_never_recorded :
  forall (l : list attempt) (s : store),
    Forall (fun a => has_params (request_of a) = true) l ->
    snd (serve_all bcrypt_compare audit_triggers l s) = s
    /\ (forall b,
          releases_of (snd (serve_all bcrypt_compare audit_triggers l s)) b
          = releases_of s b)
    /\ Forall (fun r => r = json_error 404 "Bill not found")
         (fst (serve_all bcrypt_compare audit_triggers l s))
    /\ (forall a s0,
          In a l ->
          has_release s0 (bill_no (body (request_of a))) = true ->
          snd (fst (serve bcrypt_compare audit_triggers a s0))
          = json_error 404 "Bill not found").
Proof.
  intros l s H. rewrite (serve_all_mounted l s H). cbn [fst snd].
  split; [reflexivity|]. split; [reflexivity|]. split.
  - apply Forall_forall. intros r Hr. apply in_map_iff in Hr.
    destruct Hr as [a [Hr _]]. symmetry. exact Hr.
  - intros a s0 Hin _. rewrite Forall_forall in H.
    rewrite (serve_mounted a s0 (H a Hin)). reflexivity.
Qed.

(** C2: the gatepass is never looked up.  A release attempt served by a
    mounted route issues one statement, the bill lookup with a NULL bill
    number, on the pool, and is answered 404 "Bill not found" with the
    store left as it was: no query about the gatepass is sent, on the
    pool or on a client holding a transaction, no transaction is opened
    and no row is locked; an attempt whose gatepass is in use is not
    answered "Gatepass ID already used". *)
Theorem C2_gatepass_never_checked :
  forall (a : attempt) (s : store),
    has_params (request_of a) = true ->
    serve bcrypt_compare audit_triggers a s
    = ([(pool, SELECT_bill_status None)], json_error 404 "Bill not found", s)
    /\ existsb about_gatepass
         (fst (fst (serve bcrypt_compare audit_triggers a s))) = false
    /\ existsb on_dbClient
         (fst (fst (serve bcrypt_compare audit_triggers a s))) = false
    /\ (gatepass_used s (gatepass_id (body (request_of a))) = true ->
        snd (fst (serve bcrypt_compare audit_triggers a s))
        <> json_error 400 "Gatepass ID already used").
Proof.
  intros a s H. rewrite (serve_mounted a s H). cbn [fst snd].
  split; [reflexivity|]. split; [reflexivity|]. split; [reflexivity|].
  intros _. discriminate.
Qed.

(** C3: no release proceeds.  A release attempt served by a mounted
    route is answered 404 "Bill not found" whatever the bill it names in
    its body: for a bill with a remaining due and a request without PIN
    and without OTP flag the answer is not the approval-required error;
    for a bill with nothing due the attempt does not proceed either, it
    is rejected and no release record is inserted. *)
Theorem C3_release_never_proceeds :
  forall (a : attempt) (s : store) (bill : bill_status.row),
    has_params (request_of a) = true ->
    find_bill s (bill_no (body (request_of a))) = Some bill ->
    serve bcrypt_compare audit_triggers a s
    = ([(pool, SELECT_bill_status None)], json_error 404 "Bill not found", s)
    /\ (0 < bill_status.remaining_due bill ->
        approval_missing (request_of a) bill = true ->
        snd (fst (serve bcrypt_compare audit_triggers a s))
        <> json_error 400
             "Outstanding due requires manager PIN or customer OTP")
    /\ (bill_status.remaining_due bill <= 0 ->
        is_error (snd (fst (serve bcrypt_compare audit_triggers a s))) = true
        /\ snd (serve bcrypt_compare audit_triggers a s) = s).
Proof.
  intros a s bill H _. rewrite (serve_mounted a s H). cbn [fst snd].
  split; [reflexivity|]. split.
  - intros _ _. discriminate.
  - intros _. split; reflexivity.
Qed.
End ReleaseFacts.

(** ** Scenarios *)

(** A stand-in for [bcrypt.compare] in the scenarios. *)
Definition demo_bcrypt (pin hash : string) : bool :=
  String.eqb hash ("hash:" ++ pin).

(** Two bills of one party: S-1001 of 1000, paid in full by a linked
    receipt, and S-1002 of 500 with nothing received; a dispatcher and a
    manager whose PIN is 4321. *)
Definition release_store : store :=
  mk_store
    [bill.mk "S-1001" 20 "Acme Traders" (units 1000) 0 0;
     bill.mk "S-1002" 21 "Acme Traders" (units 500) 0 0]
    [receipt.mk "R-1" 22 "Acme Traders" (units 1000) receipt.CASH None
       (Some "S-1001"%string) 0 0]
    [users.mk "disp-1" "DISPATCHER" None true;
     users.mk "mgr-1" "MANAGER" (Some "hash:4321"%string) true]
    [] [] [] [] [] [].

Definition release_body (bill_no gatepass : string) (pin : option string)
  (otp : bool) : Release.body_t :=
  Release.mk_body (Some bill_no) (Some gatepass) pin otp
    (Some "Ravi"%string) (Some "9876543210"%string)
    (Some "Speedy Cargo"%string) (Some "LR-77"%string) (Some "MH12AB1234"%string)
    (Some "Suresh"%string) (Some "9123456780"%string) (Some "LICENSE"%string)
    (Some "4455"%string) (Some 12) None None.

(** A request as a mounted route receives it: [req.params] is an
    object. *)
Definition mounted_request (bill_no gatepass : string) (pin : option string)
  (otp : bool) : Release.request :=
  Release.mk_request true (release_body bill_no gatepass pin otp) "disp-1"
    None None.

(** [release_store] with a release record of S-1001 to the customer,
    under gatepass GP-1. *)
Definition released_store : store :=
  with_release_self release_store
    [release_self.mk (Some "S-1001"%string) "GP-1" None "disp-1" "Ravi"
       (Some "9876543210"%string) None None].

(** The petty cash and the till adjustments of every session enter the
    expected cash of a session: here 200 paid out in another session
    lowers the expected cash of session-1 from 2500 to 2300. *)
Lemma calculate_expected_cash_other_session :
  let s :=
    mk_store (t_bill variance_store) (t_receipt variance_store)
      (t_users variance_store) (t_cashier_session variance_store)
      (t_payment_hint variance_store)
      [petty_cash.mk (Some "session-0"%string) (units 200)]
      [] [] [] in
  Session.calculate_expected_cash Session.use_variable 200 s "session-1"
  = returned (Some (units 2300))
  /\ Session.calculate_expected_cash Session.use_column 200 s "session-1"
     = returned (Some (units 2300)).
Proof. split; reflexivity. Qed.

(** ** Instances *)

(** C1 at the scenario of the repository's tests: two attempts to
    release the paid bill S-1001 to the customer.  Both are answered
    404 and S-1001 has no release record afterwards. *)
Lemma C1_witness :
  Release.serve_all demo_bcrypt true
    [Release.self (mounted_request "S-1001" "GP-1" None false);
     Release.self (mounted_request "S-1001" "GP-2" None false)]
    release_store
  = ([Release.json_error 404 "Bill not found";
      Release.json_error 404 "Bill not found"], release_store)
  /\ Release.releases_of
       (snd (Release.serve_all demo_bcrypt true
               [Release.self (mounted_request "S-1001" "GP-1" None false);
                Release.self (mounted_request "S-1001" "GP-2" None false)]
               release_store))
       "S-1001"
     = 0%nat
  /\ option_map bill_status.status
       (find_bill release_store (Some "S-1001"%string))
     = Some bill_status.PAID.
Proof.
  split; [reflexivity|]. split; [|reflexivity].
  refine (proj1 (proj2
            (C1_release_never_recorded demo_bcrypt true
               [Release.self (mounted_request "S-1001" "GP-1" None false);
                Release.self (mounted_request "S-1001" "GP-2" None false)]
               release_store _)) "S-1001"%string).
  repeat constructor.
Defined.

(** C2 at the scenario of the repository's tests: GP-1 is in use for
    S-1001 and an attempt on S-1002, with the manager's PIN, names GP-1.
    It is answered 404. *)
Lemma C2_witness :
  Release.gatepass_used released_store (Some "GP-1"%string) = true
  /\ Release.serve demo_bcrypt true
       (Release.self (mounted_request "S-1002" "GP-1" (Some "4321"%string)
                        false))
       released_store
     = ([(Release.pool, Release.SELECT_bill_status None)],
        Release.json_error 404 "Bill not found", released_store).
Proof.
  split; [reflexivity|].
  refine (proj1
            (C2_gatepass_never_checked demo_bcrypt true
               (Release.self
                  (mounted_request "S-1002" "GP-1" (Some "4321"%string)
                     false))
               released_store _)).
  reflexivity.
Defined.

(** C3 at the scenarios: the paid bill S-1001 does not proceed, and
    the due bill S-1002, without PIN and OTP, is answered 404. *)
Lemma C3_witness :
  Release.serve demo_bcrypt true
    (Release.self (mounted_request "S-1001" "GP-1" None false)) release_store
  = ([(Release.pool, Release.SELECT_bill_status None)],
     Release.json_error 404 "Bill not found", release_store)
  /\ Release.serve demo_bcrypt true
       (Release.transporter (mounted_request "S-1002" "GP-2" None false))
       release_store
     = ([(Release.pool, Release.SELECT_bill_status None)],
        Release.json_error 404 "Bill not found", release_store).
Proof.
  split.
  - refine (proj1
              (C3_release_never_proceeds demo_bcrypt true
                 (Release.self (mounted_request "S-1001" "GP-1" None false))
                 release_store
                 (bill_status.mk "S-1001" 20 "Acme Traders" (units 1000)
                    (units 1000) 0 bill_status.PAID) _ _));
      reflexivity.
  - refine (proj1
              (C3_release_never_proceeds demo_bcrypt true
                 (Release.transporter
                    (mounted_request "S-1002" "GP-2" None false))
                 release_store
                 (bill_status.mk "S-1002" 21 "Acme Traders" (units 500)
                    0 (units 500) bill_status.DUE) _ _));
      reflexivity.
Defined.

Lemma C5_witness :
  TallyODBCService.autoMapReceipts (fifo_store 10 20 15 500 None)
  = (fifo_store 10 20 15 500 (Some "B1"%string), 1)
  /\ TallyXMLETL.autoMapReceipts (fifo_store 10 20 15 500 None)
     = (fifo_store 10 20 15 500 (Some "B1"%string), 1)
  /\ (10 <= 15 ->
      TallyETL.autoMapReceipts numeric_as_text (fifo_store 10 20 15 500 None)
      = (fifo_store 10 20 15 500 (Some "B1"%string), 1))
  /\ (15 < 10 ->
      TallyETL.autoMapReceipts numeric_as_text (fifo_store 10 20 15 500 None)
      = (fifo_store 10 20 15 500 None, 0)).
Proof.
  apply (proj2 (proj2 (proj2 (proj2 (proj2 C5_fifo_oldest_bill))))
           numeric_as_text 10 20 15).
  lia.
Defined.

(** A receipt of 400 against B1 and B2: linked to B1, whose remaining
    due of 500 covers it. *)
Lemma C6_witness :
  link_of
    (t_receipt
       (fst (run (etl_engine numeric_as_number)
               (fifo_store 10 20 30 400 None))))
    "R-1"
  = Some (Some "B1"%string).
Proof.
  apply (proj1 (proj1 (proj2 (proj2 C6_eligibility_rule))
                  (fifo_store 10 20 30 400 None) []
                  (fifo_receipt 30 400 None) []
                  ltac:(repeat constructor; simpl; tauto) eq_refl)).
Defined.

Definition sample_tally_bills : list tally_bill.row :=
  [tally_bill.mk (Some "S-1001"%string) (Some 20) (Some "Acme Traders"%string)
     (Some (units 1000));
   tally_bill.mk (Some "S-1002"%string) (Some 21) (Some "Bharat Mills"%string)
     (Some (units 500));
   tally_bill.mk (Some "S-1001"%string) (Some 20) (Some "Acme Traders"%string)
     (Some (units 1100))].

Definition sample_tally_receipts : list tally_receipt.row :=
  [tally_receipt.mk (Some "R-1"%string) (Some 22) (Some "Acme Traders"%string)
     (Some (units 600)) receipt.CASH (Some "cash"%string) None].

Definition synced_once : store :=
  fst (TallyETL.syncReceipts 11 sample_tally_receipts
         (fst (TallyETL.syncBills 10 sample_tally_bills
                 (with_bill empty_store [sample_bill])))).

Lemma C7_witness :
  exists s3 s4,
    TallyETL.syncBills 20 sample_tally_bills synced_once = (s3, returned 3)
    /\ TallyETL.syncReceipts 21 sample_tally_receipts s3 = (s4, returned 1)
    /\ map erase_bill (t_bill s4) = map erase_bill (t_bill synced_once)
    /\ map erase_receipt (t_receipt s4)
       = map erase_receipt (t_receipt synced_once)
    /\ s4 = with_receipt (with_bill synced_once (t_bill s4)) (t_receipt s4)
    /\ Forall2
         (fun b b' =>
            if bill_in_upstream sample_tally_bills (bill.bill_no b)
            then bill.last_sync_ts b' = 20
            else b' = b)
         (t_bill synced_once) (t_bill s4)
    /\ Forall2
         (fun r r' =>
            if receipt_in_upstream sample_tally_receipts (receipt.receipt_id r)
            then receipt.last_sync_ts r' = 21
            else r' = r)
         (t_receipt synced_once) (t_receipt s4)
    /\ (NoDup (map bill.bill_no (t_bill (with_bill empty_store [sample_bill])))
        -> NoDup (map bill.bill_no (t_bill s4)))
    /\ (NoDup (map receipt.receipt_id
                 (t_receipt (with_bill empty_store [sample_bill])))
        -> NoDup (map receipt.receipt_id (t_receipt s4))).
Proof.
  apply (C7_sync_twice_idempotent 10 11 20 21 sample_tally_bills
           sample_tally_receipts (with_bill empty_store [sample_bill])
           (fst (TallyETL.syncBills 10 sample_tally_bills
                   (with_bill empty_store [sample_bill])))
           synced_once 3 1); reflexivity.
Defined.

Definition sample_env : env :=
  mk_env "2026-01-31"
    (fun s => if String.eqb s "1000.00" then Some (units 1000) else None)
    (fun s => if String.eqb s "2025-01-15" then Some 20103 else None).

Definition sample_vouchers : list xml_voucher.t :=
  [xml_voucher.mk "S-1001" "20250115" "Acme Traders" "1000.00" "" "";
   xml_voucher.mk "S-1002" "" "Acme Traders" "500.00" "" "";
   xml_voucher.mk "" "20250115" "Acme Traders" "70.00" "" ""].

(** A complete voucher whose number has 51 characters. *)
Definition long_voucher : xml_voucher.t :=
  xml_voucher.mk "S-100000000000000000000000000000000000000000000000X"
    "20250115" "Acme Traders" "1000.00" "" "".

Lemma C9_witness :
  (exists tbl,
     TallyXMLETL.syncBills sample_env 100 sample_vouchers empty_store
     = (with_bill empty_store tbl, returned 1, [])
     /\ forall v, In v sample_vouchers -> TallyXMLETL.complete v = true ->
          exists b, In b tbl
                    /\ varchar 50 (xml_voucher.VOUCHERNUMBER v)
                       = Some (bill.bill_no b)
                    /\ bill.last_sync_ts b = 100)
  /\ TallyXMLETL.syncBills sample_env 100 (sample_vouchers ++ [long_voucher])
       empty_store
     = (empty_store, thrown "insert into bill failed", [])
  /\ TallyETL.syncBills 100
       [tally_bill.mk (Some "S-1001"%string) None (Some "Acme"%string)
          (Some 5)] empty_store
     = (empty_store, thrown "null value violates not-null constraint").
Proof.
  split; [|split].
  - apply (proj1 (proj2 (proj2 (proj2
             (C9_malformed_vouchers sample_env 100 101))))
             sample_vouchers empty_store).
    intros v [<-|[<-|[<-|[]]]] Hc; try discriminate Hc.
    repeat split; discriminate.
  - apply (proj1 (proj2 (proj2 (proj2 (proj2
             (C9_malformed_vouchers sample_env 100 101)))))
             (sample_vouchers ++ [long_voucher]) empty_store long_voucher).
    + apply in_or_app. right. left. reflexivity.
    + reflexivity.
    + intros [_ [H _]]. apply H. reflexivity.
  - apply (proj1 (proj2 (proj2 (proj2 (proj2 (proj2 (proj2
             (C9_malformed_vouchers sample_env 100 101)))))))
             _ empty_store
             (tally_bill.mk (Some "S-1001"%string) None (Some "Acme"%string)
                (Some 5))).
    + left. reflexivity.
    + reflexivity.
Defined.

Lemma C10_witness :
  TallyODBCService.autoMapReceipts (fifo_store 10 20 30 700 None)
  = (fifo_store 10 20 30 700 None, 0).
Proof.
  apply (proj2 (proj2
           (proj1 (proj2 (proj2 (proj2 (proj2 C10_cycle_without_vouchers))))
              numeric_as_text (fifo_store 10 20 30 700 None)))).
  intros r [<-|[]]. reflexivity.
Defined.

(* ================================================================= *)
(** * Part III: further properties of the services *)
(* ================================================================= *)

(** ** What a mapping pass touches *)

(** A receipt with its bill link forgotten. *)
Definition erase_link (r : receipt.row) : receipt.row :=
  receipt.mk (receipt.receipt_id r) (receipt.receipt_date r)
    (receipt.party_name r) (receipt.amount r) (receipt.mode r)
    (receipt.ref_text r) None (receipt.last_sync_ts r) (receipt.created_at r).

Lemma set_bill_reference_erase k rid tbl :
  map erase_link (set_bill_reference k rid tbl) = map erase_link tbl.
Proof.
  unfold set_bill_reference. rewrite map_map. apply map_ext.
  intros r. destruct (String.eqb (receipt.receipt_id r) rid); reflexivity.
Qed.

Lemma map_loop_erase c l s n :
  map erase_link (t_receipt (fst (map_loop c l s n)))
  = map erase_link (t_receipt s).
Proof.
  revert s n. induction l as [|r l IH]; intros s n; [reflexivity|].
  simpl. destruct (c s r); rewrite IH; [|reflexivity].
  cbn [t_receipt with_receipt]. apply set_bill_reference_erase.
Qed.

Lemma map_loop_other_tables c l s n :
  fst (map_loop c l s n)
  = with_receipt s (t_receipt (fst (map_loop c l s n))).
Proof.
  revert s n. induction l as [|r l IH]; intros s n.
  - destruct s. reflexivity.
  - simpl. destruct (c s r) as [b|]; [|apply IH].
    rewrite IH at 1. reflexivity.
Qed.

(** A receipt that is not in the snapshot keeps its row. *)
Lemma set_bill_reference_other k rid tbl r :
  receipt.receipt_id r <> rid -> In r tbl ->
  In r (set_bill_reference k rid tbl).
Proof.
  intros Hne Hin. unfold set_bill_reference. apply in_map_iff.
  exists r. split; [|assumption].
  destruct (String.eqb (receipt.receipt_id r) rid) eqn:E; [|reflexivity].
  apply String.eqb_eq in E. congruence.
Qed.

Lemma map_loop_keeps_row c l s n r :
  ~ In (receipt.receipt_id r) (map receipt.receipt_id l) ->
  In r (t_receipt s) ->
  In r (t_receipt (fst (map_loop c l s n))).
Proof.
  revert s n. induction l as [|x l IH]; intros s n Hnin Hin; [assumption|].
  simpl in Hnin. simpl. destruct (c s x).
  - apply IH; [tauto|]. cbn [t_receipt with_receipt].
    apply set_bill_reference_other; [|assumption].
    intros E. apply Hnin. left. congruence.
  - apply IH; [tauto|assumption].
Qed.

Lemma snapshot_misses (le : receipt.row -> receipt.row -> bool)
  (p : receipt.row -> bool) tbl r :
  NoDup (map receipt.receipt_id tbl) -> In r tbl -> p r = false ->
  ~ In (receipt.receipt_id r)
      (map receipt.receipt_id (order_by le (filter p tbl))).
Proof.
  intros Hnd Hin Hp H. apply in_map_iff in H. destruct H as [x [Hid Hx]].
  apply order_by_In in Hx. apply filter_In in Hx. destruct Hx as [Hx Hpx].
  assert (x = r); [|congruence].
  clear Hpx Hp. induction tbl as [|y tbl IH]; [destruct Hin|].
  simpl in Hnd. inversion Hnd as [|? ? Hy Hnd']; subst.
  destruct Hin as [->|Hin], Hx as [->|Hx]; auto.
  - exfalso. apply Hy. rewrite <- Hid. apply in_map. assumption.
  - exfalso. apply Hy. rewrite Hid. apply in_map. assumption.
Qed.

(** X1.  An auto-mapping pass of any of the three services changes
    nothing but bill links: the other tables are as before and every
    receipt keeps its other columns.  When receipt ids are unique, a
    receipt that already carries a (non-empty) bill link keeps its row:
    an existing link is never overwritten. *)
Theorem autoMapReceipts_only_sets_missing_links :
  forall (p : numeric_parser) (s : store),
    let after :=
      [fst (TallyODBCService.autoMapReceipts s);
       fst (TallyXMLETL.autoMapReceipts s);
       fst (TallyETL.autoMapReceipts p s)] in
    Forall
      (fun s' =>
         s' = with_receipt s (t_receipt s')
         /\ map erase_link (t_receipt s') = map erase_link (t_receipt s))
      after
    /\ (NoDup (map receipt.receipt_id (t_receipt s)) ->
        forall r k,
          In r (t_receipt s) ->
          receipt.bill_reference r = Some k -> k <> EmptyString ->
          Forall (fun s' => In r (t_receipt s')) after).
Proof.
  intros p s after. subst after.
  rewrite run_etl, run_xml, run_realtime. unfold run. split.
  - repeat constructor;
      first [apply map_loop_other_tables | apply map_loop_erase].
  - intros Hnd r k Hin Hk Hne.
    repeat constructor; apply map_loop_keeps_row; try assumption;
      cbn [unmapped pick realtime_engine xml_engine etl_engine];
      apply snapshot_misses; try assumption; rewrite Hk; simpl;
      try reflexivity.
    apply String.eqb_neq. assumption.
Qed.

(** ** The count a mapping pass returns *)

Section MappedCount.
(** What a service takes for a missing link. *)
Variable unlinked : option string -> bool.

Definition count_unlinked (tbl : list receipt.row) : Z :=
  Z.of_nat
    (List.length (filter (fun r => unlinked (receipt.bill_reference r)) tbl)).

Lemma count_unlinked_cons r tbl :
  count_unlinked (r :: tbl)
  = (if unlinked (receipt.bill_reference r) then 1 else 0)
    + count_unlinked tbl.
Proof.
  unfold count_unlinked. cbn [filter].
  destruct (unlinked (receipt.bill_reference r)); cbn [List.length]; lia.
Qed.

Lemma set_bill_reference_absent k rid tbl :
  ~ In rid (map receipt.receipt_id tbl) ->
  set_bill_reference k rid tbl = tbl.
Proof.
  intros H. unfold set_bill_reference.
  induction tbl as [|x tbl IH]; [reflexivity|]. simpl in *.
  destruct (String.eqb (receipt.receipt_id x) rid) eqn:E.
  - apply String.eqb_eq in E. tauto.
  - f_equal. apply IH. tauto.
Qed.

Lemma count_unlinked_set k r tbl :
  NoDup (map receipt.receipt_id tbl) -> In r tbl ->
  unlinked (receipt.bill_reference r) = true ->
  unlinked (Some k) = false ->
  count_unlinked (set_bill_reference k (receipt.receipt_id r) tbl) + 1
  = count_unlinked tbl.
Proof.
  intros Hnd Hin Hu Hk. induction tbl as [|x tbl IH]; [destruct Hin|].
  simpl in Hnd. inversion Hnd as [|? ? Hx Hnd']; subst.
  destruct Hin as [->|Hin].
  - change (set_bill_reference k (receipt.receipt_id r) (r :: tbl))
      with ((if String.eqb (receipt.receipt_id r) (receipt.receipt_id r)
             then receipt.mk (receipt.receipt_id r) (receipt.receipt_date r)
                    (receipt.party_name r) (receipt.amount r)
                    (receipt.mode r) (receipt.ref_text r) (Some k)
                    (receipt.last_sync_ts r) (receipt.created_at r)
             else r)
            :: set_bill_reference k (receipt.receipt_id r) tbl).
    rewrite String.eqb_refl, set_bill_reference_absent by assumption.
    rewrite !count_unlinked_cons. cbn [receipt.bill_reference].
    rewrite Hu, Hk. lia.
  - change (set_bill_reference k (receipt.receipt_id r) (x :: tbl))
      with ((if String.eqb (receipt.receipt_id x) (receipt.receipt_id r)
             then receipt.mk (receipt.receipt_id x) (receipt.receipt_date x)
                    (receipt.party_name x) (receipt.amount x)
                    (receipt.mode x) (receipt.ref_text x) (Some k)
                    (receipt.last_sync_ts x) (receipt.created_at x)
             else x)
            :: set_bill_reference k (receipt.receipt_id r) tbl).
    destruct (String.eqb (receipt.receipt_id x) (receipt.receipt_id r)) eqn:E.
    + apply String.eqb_eq in E. exfalso. apply Hx. rewrite E.
      apply in_map. assumption.
    + rewrite !count_unlinked_cons. rewrite <- (IH Hnd' Hin). lia.
Qed.

Variable c : store -> receipt.row -> option bill_status.row.
(** A property of the store that setting links keeps, under which a
    chosen bill number does not read as a missing link. *)
Variable P : store -> Prop.
Hypothesis P_kept :
  forall s k rid, P s ->
    P (with_receipt s (set_bill_reference k rid (t_receipt s))).
Hypothesis chosen_is_link :
  forall s r b, P s -> c s r = Some b ->
    unlinked (Some (bill_status.bill_no b)) = false.

Lemma map_loop_count l s n :
  P s ->
  NoDup (map receipt.receipt_id (t_receipt s)) ->
  NoDup (map receipt.receipt_id l) ->
  (forall r, In r l ->
     In r (t_receipt s) /\ unlinked (receipt.bill_reference r) = true) ->
  snd (map_loop c l s n)
  = n + count_unlinked (t_receipt s)
    - count_unlinked (t_receipt (fst (map_loop c l s n))).
Proof.
  revert s n. induction l as [|r l IH]; intros s n HP Hnd Hl Hrows.
  - simpl. lia.
  - simpl in Hl. inversion Hl as [|? ? Hr Hl']; subst.
    destruct (Hrows r (or_introl eq_refl)) as [Hin Hu].
    cbn [map_loop]. destruct (c s r) as [b|] eqn:Hc.
    + rewrite IH.
      * cbn [t_receipt with_receipt].
        pose proof (count_unlinked_set (bill_status.bill_no b) r (t_receipt s)
                      Hnd Hin Hu (chosen_is_link s r b HP Hc)).
        lia.
      * apply P_kept. assumption.
      * cbn [t_receipt with_receipt]. rewrite set_bill_reference_ids.
        assumption.
      * assumption.
      * intros r' Hr'. destruct (Hrows r' (or_intror Hr')) as [Hin' Hu'].
        split; [|assumption]. cbn [t_receipt with_receipt].
        apply set_bill_reference_other; [|assumption].
        intros E. apply Hr. rewrite <- E. apply in_map. assumption.
    + apply IH; try assumption.
      intros r' Hr'. apply Hrows. right. assumption.
Qed.
End MappedCount.

Lemma snapshot_rows (le : receipt.row -> receipt.row -> bool)
  (p : receipt.row -> bool) tbl r :
  In r (order_by le (filter p tbl)) -> In r tbl /\ p r = true.
Proof. intros H. apply order_by_In in H. apply filter_In in H. exact H. Qed.

Definition is_unmapped (v : option string) : bool :=
  is_null v || sql_eq v (Some EmptyString).

(** X2.  The count an auto-mapping pass returns is the drop in the
    number of receipts without bill link (for the real-time service: with
    a NULL or empty link, provided no bill has the empty bill number),
    when receipt ids are unique. *)
Theorem autoMapReceipts_count :
  forall (p : numeric_parser) (s : store),
    NoDup (map receipt.receipt_id (t_receipt s)) ->
    snd (TallyXMLETL.autoMapReceipts s)
    = count_unlinked is_null (t_receipt s)
      - count_unlinked is_null (t_receipt (fst (TallyXMLETL.autoMapReceipts s)))
    /\ snd (TallyETL.autoMapReceipts p s)
       = count_unlinked is_null (t_receipt s)
         - count_unlinked is_null
             (t_receipt (fst (TallyETL.autoMapReceipts p s)))
    /\ ((forall b, In b (t_bill s) -> bill.bill_no b <> EmptyString) ->
        snd (TallyODBCService.autoMapReceipts s)
        = count_unlinked is_unmapped (t_receipt s)
          - count_unlinked is_unmapped
              (t_receipt (fst (TallyODBCService.autoMapReceipts s)))).
Proof.
  intros p s Hnd. rewrite run_etl, run_xml, run_realtime. unfold run.
  cbn [unmapped pick realtime_engine xml_engine etl_engine].
  split; [|split].
  - rewrite (map_loop_count is_null matchingBills (fun _ => True)); auto.
    + apply NoDup_ids_ordered_filter. assumption.
    + intros r Hr. apply snapshot_rows in Hr. exact Hr.
  - rewrite (map_loop_count is_null (TallyETL.choose p) (fun _ => True)); auto.
    + apply NoDup_ids_ordered_filter. assumption.
    + intros r Hr. apply snapshot_rows in Hr. exact Hr.
  - intros Hb.
    rewrite (map_loop_count is_unmapped matchingBills
               (fun s' => t_bill s' = t_bill s)); auto.
    + intros s' r b Hs' Hc. apply matchingBills_sound in Hc.
      destruct Hc as [Hin _]. unfold bill_status_of, bill_status_view in Hin.
      apply in_map_iff in Hin. destruct Hin as [x [Hx Hin]].
      rewrite Hs' in Hin. specialize (Hb x Hin).
      subst b. cbn. apply String.eqb_neq. assumption.
    + apply NoDup_ids_ordered_filter. assumption.
    + intros r Hr. apply snapshot_rows in Hr. exact Hr.
Qed.

(** ** Linking a receipt and the [bill_status] view *)

Lemma mapped_total_cons r tbl x :
  mapped_total (r :: tbl) x
  = (if linked_to x r then receipt.amount r else 0) + mapped_total tbl x.
Proof. unfold mapped_total. simpl. destruct (linked_to x r); reflexivity. Qed.

(** Setting the link of one receipt moves its amount from the bill it
    was linked to, if any, to the bill it is linked to now. *)
Lemma mapped_total_set k r tbl x :
  NoDup (map receipt.receipt_id tbl) -> In r tbl ->
  mapped_total (set_bill_reference k (receipt.receipt_id r) tbl) x
  = mapped_total tbl x
    - (if linked_to x r then receipt.amount r else 0)
    + (if String.eqb k x then receipt.amount r else 0).
Proof.
  intros Hnd Hin. induction tbl as [|y tbl IH]; [destruct Hin|].
  simpl in Hnd. inversion Hnd as [|? ? Hy Hnd']; subst.
  change (set_bill_reference k (receipt.receipt_id r) (y :: tbl))
    with ((if String.eqb (receipt.receipt_id y) (receipt.receipt_id r)
           then receipt.mk (receipt.receipt_id y) (receipt.receipt_date y)
                  (receipt.party_name y) (receipt.amount y)
                  (receipt.mode y) (receipt.ref_text y) (Some k)
                  (receipt.last_sync_ts y) (receipt.created_at y)
           else y)
          :: set_bill_reference k (receipt.receipt_id r) tbl).
  destruct Hin as [->|Hin].
  - rewrite String.eqb_refl, set_bill_reference_absent by assumption.
    rewrite !mapped_total_cons. unfold linked_to at 1.
    cbn [receipt.bill_reference receipt.amount sql_eq].
    destruct (String.eqb k x), (linked_to x r); lia.
  - destruct (String.eqb (receipt.receipt_id y) (receipt.receipt_id r)) eqn:E.
    + apply String.eqb_eq in E. exfalso. apply Hy. rewrite E.
      apply in_map. assumption.
    + rewrite !mapped_total_cons, (IH Hnd' Hin). lia.
Qed.

(** The remaining due of a bill, as the view computes it. *)
Definition due (s : store) (x : bill.row) : money :=
  bill.amount x - mapped_total (t_receipt s) (bill.bill_no x).

Lemma due_is_remaining_due s x :
  bill_status.remaining_due (bill_status_row (receipt_totals (t_receipt s)) x)
  = due s x.
Proof. apply (bill_status_row_spec (t_receipt s) x). Qed.


Section NoOverAllocation.
Variable c : store -> receipt.row -> option bill_status.row.
Hypothesis c_sound :
  forall s r b, c s r = Some b ->
    In b (bill_status_of s)
    /\ receipt.amount r <= bill_status.remaining_due b.

End NoOverAllocation.

(** The [remaining_due] the view shows for the bill [x]. *)
Definition remaining_due_of (s : store) (x : bill.row) : money :=
  bill_status.remaining_due
    (bill_status_row (receipt_totals (t_receipt s)) x).


(** ** Manual mapping *)

Lemma no_row_with_id rid (tbl : list receipt.row) :
  filter (fun r => String.eqb (receipt.receipt_id r) rid) tbl = [] ->
  ~ In rid (map receipt.receipt_id tbl).
Proof.
  intros H Hin. apply in_map_iff in Hin. destruct Hin as [r [Hid Hr]].
  assert (Hf : In r (filter (fun r => String.eqb (receipt.receipt_id r) rid)
                       tbl)).
  { apply filter_In. split; [assumption|]. apply String.eqb_eq. assumption. }
  rewrite H in Hf. destruct Hf.
Qed.

Lemma truthy_Some x : truthy (Some x) = true -> x <> EmptyString.
Proof.
  simpl. intros H E. subst x. discriminate.
Qed.

Lemma set_bill_reference_row k rid tbl r' :
  In r' (filter (fun r => String.eqb (receipt.receipt_id r) rid)
           (set_bill_reference k rid tbl)) ->
  receipt.receipt_id r' = rid /\ receipt.bill_reference r' = Some k.
Proof.
  intros H. apply filter_In in H. destruct H as [Hin Hid].
  apply String.eqb_eq in Hid. split; [assumption|].
  unfold set_bill_reference in Hin. apply in_map_iff in Hin.
  destruct Hin as [r [Hr _]].
  destruct (String.eqb (receipt.receipt_id r) rid) eqn:E.
  - subst r'. reflexivity.
  - subst r'. apply String.eqb_neq in E. congruence.
Qed.

(** X4.  [POST /map-receipt] changes nothing but the receipt table.  A
    request that is answered with an error leaves the receipts as they
    were.  A request that is accepted names a receipt of the table and
    a bill of the bill table, both by non-empty text, and afterwards
    that receipt is linked to that bill, whatever its link was before
    and whatever the bill's remaining due, while the other receipts keep
    their links. *)
Theorem map_receipt_links :
  forall (receiptId billNo : option string) (s : store),
    let resp := fst (TallySync.map_receipt receiptId billNo s) in
    let s' := snd (TallySync.map_receipt receiptId billNo s) in
    s' = with_receipt s (t_receipt s')
    /\ match resp with
       | TallySync.json_error _ _ => t_receipt s' = t_receipt s
       | TallySync.mapped r' =>
           exists rid b,
             receiptId = Some rid /\ billNo = Some b
             /\ rid <> EmptyString /\ b <> EmptyString
             /\ In b (map bill.bill_no (t_bill s))
             /\ In rid (map receipt.receipt_id (t_receipt s))
             /\ In r' (t_receipt s')
             /\ receipt.receipt_id r' = rid
             /\ receipt.bill_reference r' = Some b
             /\ link_of (t_receipt s') rid = Some (Some b)
             /\ forall rid', rid' <> rid ->
                  link_of (t_receipt s') rid' = link_of (t_receipt s) rid'
       end.
Proof.
  intros receiptId billNo s. cbv zeta. unfold TallySync.map_receipt.
  destruct receiptId as [rid|], billNo as [b|];
    try (cbn [fst snd]; split; [destruct s|]; reflexivity).
  destruct (truthy (Some rid)) eqn:Hrid;
    [|cbn [negb orb fst snd]; split; [destruct s|]; reflexivity].
  destruct (truthy (Some b)) eqn:Hb;
    [|cbn [negb orb fst snd]; split; [destruct s|]; reflexivity].
  cbn [negb orb].
  destruct (existsb (fun x => String.eqb (bill.bill_no x) b) (t_bill s))
    eqn:Hbill; [|cbn [fst snd]; split; [destruct s|]; reflexivity].
  cbv zeta.
  destruct (filter (fun r => String.eqb (receipt.receipt_id r) rid)
              (set_bill_reference b rid (t_receipt s))) as [|r' rest] eqn:Hf;
    cbn [fst snd t_receipt with_receipt]; (split; [reflexivity|]).
  - apply set_bill_reference_absent.
    rewrite <- (set_bill_reference_ids b rid). apply no_row_with_id.
    assumption.
  - assert (Hr' : In r' (filter (fun r => String.eqb (receipt.receipt_id r) rid)
                          (set_bill_reference b rid (t_receipt s))))
      by (rewrite Hf; left; reflexivity).
    destruct (set_bill_reference_row _ _ _ _ Hr') as [Hid Hlink].
    apply filter_In in Hr'. destruct Hr' as [Hin _].
    assert (Hrin : In rid (map receipt.receipt_id (t_receipt s))).
    { rewrite <- (set_bill_reference_ids b rid). apply in_map_iff.
      exists r'. split; assumption. }
    exists rid, b. repeat split; auto using truthy_Some.
    + apply existsb_exists in Hbill. destruct Hbill as [x [Hx Hxb]].
      apply String.eqb_eq in Hxb. subst b. apply in_map. assumption.
    + apply link_of_set_same. assumption.
    + intros rid' Hne. apply link_of_set_other. assumption.
Qed.

(** X5.  Manual mapping applies no eligibility rule: when receipt ids
    are unique, accepting the mapping of the receipt [r] to the bill
    [b] moves the whole amount of [r] in the view, adding it to the
    remaining due of the bill it was linked to and taking it from the
    remaining due of [b], which may become negative. *)
Theorem map_receipt_moves_amount :
  forall (s : store) (r : receipt.row) (b : string) (x : bill.row),
    NoDup (map receipt.receipt_id (t_receipt s)) ->
    In r (t_receipt s) ->
    receipt.receipt_id r <> EmptyString -> b <> EmptyString ->
    In b (map bill.bill_no (t_bill s)) ->
    let s' :=
      snd (TallySync.map_receipt (Some (receipt.receipt_id r)) (Some b) s) in
    (exists r', fst (TallySync.map_receipt (Some (receipt.receipt_id r))
                       (Some b) s) = TallySync.mapped r')
    /\ remaining_due_of s' x
       = remaining_due_of s x
         + (if linked_to (bill.bill_no x) r then receipt.amount r else 0)
         - (if String.eqb b (bill.bill_no x) then receipt.amount r else 0).
Proof.
  intros s r b x Hnd Hin Hrid Hb Hbill. cbv zeta.
  unfold TallySync.map_receipt.
  replace (truthy (Some (receipt.receipt_id r))) with true
    by (symmetry; simpl; apply negb_true_iff, String.eqb_neq; assumption).
  replace (truthy (Some b)) with true
    by (symmetry; simpl; apply negb_true_iff, String.eqb_neq; assumption).
  cbn [negb orb].
  replace (existsb (fun x => String.eqb (bill.bill_no x) b) (t_bill s))
    with true.
  2:{ symmetry. apply existsb_exists. apply in_map_iff in Hbill.
      destruct Hbill as [y [Hy Hyin]]. exists y. split; [assumption|].
      apply String.eqb_eq. assumption. }
  cbv zeta.
  destruct (filter
              (fun r0 => String.eqb (receipt.receipt_id r0)
                           (receipt.receipt_id r))
              (set_bill_reference b (receipt.receipt_id r) (t_receipt s)))
    as [|r' rest] eqn:Hf.
  - exfalso. apply no_row_with_id in Hf. apply Hf.
    rewrite set_bill_reference_ids. apply in_map. assumption.
  - cbn [fst snd]. split; [exists r'; reflexivity|].
    unfold remaining_due_of. rewrite !due_is_remaining_due. unfold due.
    cbn [t_receipt with_receipt].
    rewrite (mapped_total_set b r) by assumption. lia.
Qed.

(** ** Who approves a release *)

Section Approval.
Import Release.
Variable bcrypt_compare : string -> string -> bool.
Variable audit_triggers : bool.








End Approval.

(** X7.  On the release routes as Express mounts them, [req.params] is
    an object, and the paths have no parameter: the middlewares then
    read no bill number from [req.params || req.body], so that every
    release attempt of a sequence is answered 404 and the store is left
    as it was. *)
Theorem release_routes_read_no_bill_number :
  forall (bcrypt_compare : string -> string -> bool) (audit_triggers : bool)
         (l : list Release.attempt) (s : store),
    Forall (fun a => Release.has_params (Release.request_of a) = true) l ->
    Release.serve_all bcrypt_compare audit_triggers l s
    = (map (fun _ => Release.json_error 404 "Bill not found") l, s).
Proof.
  intros bc tr l s H. induction H as [|a l Ha _ IH]; [reflexivity|].
  cbn [Release.serve_all map].
  assert (Hs : Release.serve bc tr a s
               = ([(Release.pool, Release.SELECT_bill_status None)],
                  Release.json_error 404 "Bill not found", s)).
  { destruct a as [req|req]; cbn [Release.serve Release.request_of] in *.
    - rewrite release_self_closed. apply params_object_not_found. assumption.
    - rewrite release_transporter_closed. apply params_object_not_found.
      assumption. }
  rewrite Hs, IH. reflexivity.
Qed.

(** ** Cashier sessions *)



(** The requests of the cashier routes, served one after the other. *)
Inductive cashier_request :=
| open_session (now : timestamp) (new_id user : string)
    (start_float : option money)
| close_session (vc : Session.variable_conflict) (configured : option money)
    (now : timestamp) (req : Session.request).

Definition serve_cashier (s : store) (r : cashier_request) : store :=
  match r with
  | open_session now new_id user start_float =>
      snd (Cashier.open now new_id user start_float s)
  | close_session vc configured now req =>
      snd (Session.close vc configured now req s)
  end.

Definition serve_cashier_all (l : list cashier_request) (s : store) : store :=
  fold_left serve_cashier l s.

Lemma serve_cashier_sessions s r :
  exists added,
    t_cashier_session (serve_cashier s r) = t_cashier_session s ++ added
    /\ Forall (fun cs => cashier_session.status cs = cashier_session.ACTIVE)
         added.
Proof.
  destruct r as [now new_id user f|vc cfg now req]; cbn [serve_cashier].
  - unfold Cashier.open.
    destruct (Cashier.active_sessions s user);
      [|exists []; rewrite app_nil_r; split; [reflexivity|constructor]].
    destruct (Cashier.managers_with_pin s);
      [exists []; rewrite app_nil_r; split; [reflexivity|constructor]|].
    destruct f as [f|];
      [|exists []; rewrite app_nil_r; split; [reflexivity|constructor]].
    match goal with |- context [if ?c then _ else _] => destruct c end;
      [|exists []; rewrite app_nil_r; split; [reflexivity|constructor]].
    eexists. cbn [snd t_cashier_session with_cashier_session].
    split; [reflexivity|]. constructor; [reflexivity|constructor].
  - rewrite (proj1 (close_changes_nothing vc cfg now req s)).
    exists []. rewrite app_nil_r. split; [reflexivity|constructor].
Qed.

Lemma serve_cashier_all_sessions l s :
  exists added,
    t_cashier_session (serve_cashier_all l s) = t_cashier_session s ++ added
    /\ Forall (fun cs => cashier_session.status cs = cashier_session.ACTIVE)
         added.
Proof.
  revert s. induction l as [|r l IH]; intros s.
  - exists []. rewrite app_nil_r. split; [reflexivity|constructor].
  - cbn [serve_cashier_all fold_left].
    destruct (serve_cashier_sessions s r) as [a1 [E1 F1]].
    destruct (IH (serve_cashier s r)) as [a2 [E2 F2]].
    unfold serve_cashier_all in E2.
    exists (a1 ++ a2). rewrite E2, E1, app_assoc. split; [reflexivity|].
    apply Forall_app. split; assumption.
Qed.

(** X9.  The close route never closes a session, so a session once
    opened stays open.  Whatever sequence of open and close requests is
    served, by whichever users, the session table afterwards is the
    table before, row for row, followed by the sessions opened, all of
    them ACTIVE: no row is stored CLOSED and no row is touched.  A
    cashier who has an ACTIVE session therefore has it after any such
    sequence, and every later [POST /session/open] of that cashier is
    refused with "Active session already exists". *)
Theorem session_never_closed :
  forall (l : list cashier_request) (s : store),
    (exists added,
       t_cashier_session (serve_cashier_all l s)
       = t_cashier_session s ++ added
       /\ Forall (fun cs => cashier_session.status cs = cashier_session.ACTIVE)
            added)
    /\ (forall cs,
          In cs (t_cashier_session s) ->
          In cs (t_cashier_session (serve_cashier_all l s)))
    /\ (forall user,
          Cashier.active_sessions s user <> [] ->
          Cashier.active_sessions (serve_cashier_all l s) user <> []
          /\ forall now new_id start_float,
               Cashier.open now new_id user start_float
                 (serve_cashier_all l s)
               = (Cashier.json_error 400 "Active session already exists",
                  serve_cashier_all l s)).
Proof.
  intros l s. destruct (serve_cashier_all_sessions l s) as [added [E F]].
  split; [exists added; split; assumption|]. split.
  - intros cs Hin. rewrite E. apply in_or_app. left. exact Hin.
  - intros user Ha.
    assert (Ha' : Cashier.active_sessions (serve_cashier_all l s) user <> []).
    { unfold Cashier.active_sessions in *. rewrite E, filter_app.
      intros H. apply app_eq_nil in H. tauto. }
    split; [exact Ha'|]. intros now new_id f. unfold Cashier.open.
    destruct (Cashier.active_sessions (serve_cashier_all l s) user);
      [congruence|reflexivity].
Qed.

Lemma sum_money_app l l' :
  Session.sum_money (l ++ l') = Session.sum_money l + Session.sum_money l'.
Proof.
  unfold Session.sum_money. induction l as [|x l IH]; simpl; lia.
Qed.

(** X10.  [calculate_expected_cash] does not keep petty cash and till
    adjustments apart by session.  Where PL/pgSQL resolves the name
    [session_id] at all (with the default setting the function raises),
    the condition [session_id = session_id] holds of every row with a
    session: a petty-cash entry recorded for any session lowers the
    expected cash of every existing session by its amount, and a till
    adjustment recorded for any session raises it (ADD_TO_TILL) or
    lowers it (REMOVE_FROM_TILL) by its amount. *)
Theorem calculate_expected_cash_mixes_sessions :
  forall (vc : Session.variable_conflict) (now : timestamp) (s : store)
         (sid : string) (e : money),
    (forall s' sid',
       Session.calculate_expected_cash Session.conflict_error now s' sid'
       = thrown "column reference session_id is ambiguous")
    /\ (Session.calculate_expected_cash vc now s sid = returned (Some e) ->
        (forall p,
           petty_cash.session_id p <> None ->
           Session.calculate_expected_cash vc now
             (Cashier.with_petty_cash s (t_petty_cash s ++ [p])) sid
           = returned (Some (e - petty_cash.amount p)))
        /\ (forall a,
              till_adjustment.session_id a <> None ->
              Session.calculate_expected_cash vc now
                (Cashier.with_till_adjustment s (t_till_adjustment s ++ [a]))
                sid
              = returned
                  (Some
                     (match till_adjustment.type a with
                      | till_adjustment.ADD_TO_TILL =>
                          e + till_adjustment.amount a
                      | till_adjustment.REMOVE_FROM_TILL =>
                          e - till_adjustment.amount a
                      end)))).
Proof.
  intros vc now s sid e. split; [reflexivity|].
  unfold Session.calculate_expected_cash.
  destruct vc; [discriminate| |];
    (destruct (Session.find_session s sid) as [cs|] eqn:Hf;
     [|discriminate]);
    intros H; inversion H as [He]; clear H; split.
  - intros p Hp.
    change (Session.find_session (Cashier.with_petty_cash s _) sid)
      with (Session.find_session s sid).
    rewrite Hf. do 2 f_equal.
    change (Session.cash_in now (Cashier.with_petty_cash s _) sid)
      with (Session.cash_in now s sid).
    change (Session.adjustments Session.use_variable
              (Cashier.with_petty_cash s _))
      with (Session.adjustments Session.use_variable s).
    unfold Session.petty_out. cbn [t_petty_cash Cashier.with_petty_cash].
    rewrite filter_app, map_app, sum_money_app. cbn. lia.
  - intros a Ha.
    change (Session.find_session (Cashier.with_till_adjustment s _) sid)
      with (Session.find_session s sid).
    rewrite Hf. do 2 f_equal.
    change (Session.cash_in now (Cashier.with_till_adjustment s _) sid)
      with (Session.cash_in now s sid).
    change (Session.petty_out Session.use_variable
              (Cashier.with_till_adjustment s _))
      with (Session.petty_out Session.use_variable s).
    unfold Session.adjustments.
    cbn [t_till_adjustment Cashier.with_till_adjustment].
    rewrite filter_app, map_app, sum_money_app. cbn.
    destruct (till_adjustment.type a); lia.
  - intros p Hp.
    change (Session.find_session (Cashier.with_petty_cash s _) sid)
      with (Session.find_session s sid).
    rewrite Hf. do 2 f_equal.
    change (Session.cash_in now (Cashier.with_petty_cash s _) sid)
      with (Session.cash_in now s sid).
    change (Session.adjustments Session.use_column
              (Cashier.with_petty_cash s _))
      with (Session.adjustments Session.use_column s).
    unfold Session.petty_out. cbn [t_petty_cash Cashier.with_petty_cash].
    rewrite filter_app, map_app, sum_money_app.
    destruct (petty_cash.session_id p) eqn:Hs; [|congruence].
    cbn. rewrite Hs. cbn. lia.
  - intros a Ha.
    change (Session.find_session (Cashier.with_till_adjustment s _) sid)
      with (Session.find_session s sid).
    rewrite Hf. do 2 f_equal.
    change (Session.cash_in now (Cashier.with_till_adjustment s _) sid)
      with (Session.cash_in now s sid).
    change (Session.petty_out Session.use_column
              (Cashier.with_till_adjustment s _))
      with (Session.petty_out Session.use_column s).
    unfold Session.adjustments.
    cbn [t_till_adjustment Cashier.with_till_adjustment].
    rewrite filter_app, map_app, sum_money_app.
    destruct (till_adjustment.session_id a) eqn:Hs; [|congruence].
    cbn. rewrite Hs. cbn. destruct (till_adjustment.type a); lia.
Qed.

(** ** Re-running the real-time and XML syncs *)

Lemma bills_loop_twice {Src : Type} (check : Src -> option bill_values.t)
  rows tbl t1 t2 tbl1 n :
  upsert_loop check (upsert_bill t1) rows tbl 0 = Some (tbl1, n) ->
  exists tbl2,
    upsert_loop check (upsert_bill t2) rows tbl1 0 = Some (tbl2, n)
    /\ map erase_bill tbl2 = map erase_bill tbl1
    /\ (NoDup (map bill.bill_no tbl) -> NoDup (map bill.bill_no tbl2)).
Proof.
  rewrite !upsert_loop_spec.
  destruct (check_all check rows) as [vs|]; [|discriminate].
  intros H. inversion H. subst.
  exists (upsert_bills t2 vs (upsert_bills t1 vs tbl)).
  split; [reflexivity|]. split; [apply upsert_bills_idempotent|].
  intros Hnd. apply NoDup_upsert_bills, NoDup_upsert_bills. assumption.
Qed.

Lemma receipts_loop_twice {Src : Type}
  (check : Src -> option receipt_values.t) rows tbl t1 t2 tbl1 n :
  upsert_loop check (upsert_receipt t1) rows tbl 0 = Some (tbl1, n) ->
  exists tbl2,
    upsert_loop check (upsert_receipt t2) rows tbl1 0 = Some (tbl2, n)
    /\ map erase_receipt tbl2 = map erase_receipt tbl1
    /\ (NoDup (map receipt.receipt_id tbl) ->
        NoDup (map receipt.receipt_id tbl2)).
Proof.
  rewrite !upsert_loop_spec.
  destruct (check_all check rows) as [vs|]; [|discriminate].
  intros H. inversion H. subst.
  exists (upsert_receipts t2 vs (upsert_receipts t1 vs tbl)).
  split; [reflexivity|]. split; [apply upsert_receipts_idempotent|].
  intros Hnd. apply NoDup_upsert_receipts, NoDup_upsert_receipts. assumption.
Qed.

(** X11.  The bills and receipts syncs of the real-time service and the
    bills sync of the XML service are idempotent: when a sync has
    succeeded, running it again on the same upstream result (and the
    same current date) succeeds with the same count and leaves the same
    rows in the same places, the sync stamp apart; it touches no other
    table and keeps the voucher number a key. *)
Theorem realtime_and_xml_sync_twice :
  forall (e : env) (t1 t2 : timestamp) (s : store),
    (forall results s1 n,
       TallyODBCService.syncBillsODBC e t1 results s = (s1, returned n) ->
       exists s2,
         TallyODBCService.syncBillsODBC e t2 results s1 = (s2, returned n)
         /\ map erase_bill (t_bill s2) = map erase_bill (t_bill s1)
         /\ s2 = with_bill s1 (t_bill s2)
         /\ (NoDup (map bill.bill_no (t_bill s)) ->
             NoDup (map bill.bill_no (t_bill s2))))
    /\ (forall results s1 n,
          TallyODBCService.syncReceiptsODBC e t1 results s
          = (s1, returned n) ->
          exists s2,
            TallyODBCService.syncReceiptsODBC e t2 results s1
            = (s2, returned n)
            /\ map erase_receipt (t_receipt s2)
               = map erase_receipt (t_receipt s1)
            /\ s2 = with_receipt s1 (t_receipt s2)
            /\ (NoDup (map receipt.receipt_id (t_receipt s)) ->
                NoDup (map receipt.receipt_id (t_receipt s2))))
    /\ (forall xmlResponse s1 n w,
          TallyXMLETL.syncBills e t1 xmlResponse s = (s1, returned n, w) ->
          exists s2,
            TallyXMLETL.syncBills e t2 xmlResponse s1 = (s2, returned n, w)
            /\ map erase_bill (t_bill s2) = map erase_bill (t_bill s1)
            /\ s2 = with_bill s1 (t_bill s2)
            /\ (NoDup (map bill.bill_no (t_bill s)) ->
                NoDup (map bill.bill_no (t_bill s2)))).
Proof.
  intros e t1 t2 s. split; [|split].
  - intros results s1 n. unfold TallyODBCService.syncBillsODBC.
    destruct results as [|r results].
    { intros H. inversion H. subst. exists s1.
      rewrite with_bill_same. auto. }
    destruct (upsert_loop _ (upsert_bill t1) (r :: results) (t_bill s) 0)
      as [[tbl1 n1]|] eqn:H1; [|discriminate].
    intros H. inversion H. subst. clear H.
    apply (bills_loop_twice _ _ _ t1 t2) in H1.
    destruct H1 as [tbl2 [H2 [He Hnd]]].
    cbn [t_bill with_bill]. rewrite H2.
    exists (with_bill (with_bill s tbl1) tbl2). auto.
  - intros results s1 n. unfold TallyODBCService.syncReceiptsODBC.
    destruct results as [|r results].
    { intros H. inversion H. subst. exists s1.
      rewrite with_receipt_same. auto. }
    destruct (upsert_loop _ (upsert_receipt t1) (r :: results) (t_receipt s) 0)
      as [[tbl1 n1]|] eqn:H1; [|discriminate].
    intros H. inversion H. subst. clear H.
    apply (receipts_loop_twice _ _ _ t1 t2) in H1.
    destruct H1 as [tbl2 [H2 [He Hnd]]].
    cbn [t_receipt with_receipt]. rewrite H2.
    exists (with_receipt (with_receipt s tbl1) tbl2). auto.
  - intros xmlResponse s1 n w. unfold TallyXMLETL.syncBills.
    destruct (TallyXMLETL.parseVouchersFromXML e xmlResponse)
      as [bills warnings].
    destruct bills as [|b bills].
    { intros H. inversion H. subst. exists s1.
      rewrite with_bill_same. auto. }
    destruct (upsert_loop _ (upsert_bill t1) (b :: bills) (t_bill s) 0)
      as [[tbl1 n1]|] eqn:H1; [|discriminate].
    intros H. inversion H. subst. clear H.
    apply (bills_loop_twice _ _ _ t1 t2) in H1.
    destruct H1 as [tbl2 [H2 [He Hnd]]].
    cbn [t_bill with_bill]. rewrite H2.
    exists (with_bill (with_bill s tbl1) tbl2). auto.
Qed.

(** ** The running flag and the phases of a cycle *)

Lemma TallyXMLETL_runETL_flag e t t' src s :
  snd (fst (fst (TallyXMLETL.runETL e t t' src false s))) = false.
Proof.
  unfold TallyXMLETL.runETL.
  destruct (negb (TallyXMLETL.connected src)); [reflexivity|].
  destruct (TallyXMLETL.bills_response src) as [bills|]; [|reflexivity].
  destruct (TallyXMLETL.syncBills e t bills s) as [[s1 [n|msg]] w];
    [|reflexivity].
  destruct (TallyXMLETL.receipts_response src) as [receipts|]; [|reflexivity].
  destruct (TallyXMLETL.syncReceipts e t' receipts s1) as [[s2 [m|msg]] w'];
    [|reflexivity].
  destruct (TallyXMLETL.autoMapReceipts s2). reflexivity.
Qed.

Definition completed (log : list TallyODBCService.sync_log) : bool :=
  match log with
  | [TallyODBCService.sync_completed _ _ _ _] => true
  | _ => false
  end.

Lemma TallyODBCService_runSync_flag e t t' now src method last s :
  let r :=
    TallyODBCService.runSync e t t' now src
      (TallyODBCService.mk_service method false last) s in
  snd (fst (fst r))
  = TallyODBCService.mk_service method false
      (if completed (snd (fst r)) then Some now else last).
Proof.
  cbv zeta. unfold TallyODBCService.runSync.
  cbn [TallyODBCService.isRunning TallyODBCService.connectionMethod
         TallyODBCService.lastSyncTime TallyODBCService.finished].
  destruct method as [[| |]|].
  - destruct (TallyODBCService.odbc_bills src) as [bills|]; [|reflexivity].
    destruct (TallyODBCService.syncBillsODBC e t bills s) as [s1 [n|msg]];
      [|reflexivity].
    destruct (TallyODBCService.odbc_receipts src) as [receipts|];
      [|reflexivity].
    destruct (TallyODBCService.syncReceiptsODBC e t' receipts s1)
      as [s2 [m|msg]]; [|reflexivity].
    destruct (TallyODBCService.autoMapReceipts s2). reflexivity.
  - destruct (TallyODBCService.xml_bills src) as [bills|]; [|reflexivity].
    destruct (TallyXMLETL.syncBills e t bills s) as [[s1 [n|msg]] w];
      [|reflexivity].
    destruct (TallyODBCService.xml_receipts src) as [receipts|];
      [|reflexivity].
    destruct (TallyXMLETL.syncReceipts e t' receipts s1) as [[s2 [m|msg]] w'];
      [|reflexivity].
    destruct (TallyODBCService.autoMapReceipts s2). reflexivity.
  - destruct (TallyODBCService.odbc_bills src) as [bills|]; [|reflexivity].
    destruct (TallyODBCService.syncBillsODBC e t bills s) as [s1 [n|msg]];
      [|reflexivity].
    destruct (TallyODBCService.odbc_receipts src) as [receipts|];
      [|reflexivity].
    destruct (TallyODBCService.syncReceiptsODBC e t' receipts s1)
      as [s2 [m|msg]]; [|reflexivity].
    destruct (TallyODBCService.autoMapReceipts s2). reflexivity.
  - destruct (TallyODBCService.xml_bills src) as [bills|]; [|reflexivity].
    destruct (TallyXMLETL.syncBills e t bills s) as [[s1 [n|msg]] w];
      [|reflexivity].
    destruct (TallyODBCService.xml_receipts src) as [receipts|];
      [|reflexivity].
    destruct (TallyXMLETL.syncReceipts e t' receipts s1) as [[s2 [m|msg]] w'];
      [|reflexivity].
    destruct (TallyODBCService.autoMapReceipts s2). reflexivity.
Qed.

Lemma TallyETL_syncReceipts_thrown t receipts s s' msg :
  TallyETL.syncReceipts t receipts s = (s', thrown msg) -> s' = s.
Proof.
  unfold TallyETL.syncReceipts. destruct receipts as [|r receipts];
    [discriminate|].
  destruct (upsert_loop receipt_not_null (upsert_receipt t) (r :: receipts)
              (t_receipt s) 0) as [[tbl n]|]; intros H; inversion H.
  reflexivity.
Qed.

(** X12.  The XML service's [runETL] and the real-time service's
    [runSync] never leave the running flag set, whatever fails: started
    with the flag clear they end with the flag clear on every path, and
    [runSync] moves [lastSyncTime] exactly when the cycle completes.
    Started with the flag set, a cycle of any of the three services
    changes nothing.  The phases are committed one by one: in TallyETL,
    when the bills phase has succeeded and the receipts phase throws,
    the cycle is logged as failed and the store is the one the bills
    phase left, its upserts kept. *)
Theorem cycle_flag_and_phases :
  (forall e t t' now src' src'' method last s,
     snd (fst (fst (TallyXMLETL.runETL e t t' src' false s))) = false
     /\ (let r :=
           TallyODBCService.runSync e t t' now src''
             (TallyODBCService.mk_service method false last) s in
         snd (fst (fst r))
         = TallyODBCService.mk_service method false
             (if completed (snd (fst r)) then Some now else last)))
  /\ (forall p e t t' now src src' src'' method last s,
        TallyETL.runETL p t t' src true s
        = (s, true, [log_skipped], js_undefined)
        /\ TallyXMLETL.runETL e t t' src' true s
           = (s, true, [log_skipped], js_undefined)
        /\ TallyODBCService.runSync e t t' now src''
             (TallyODBCService.mk_service method true last) s
           = (s, TallyODBCService.mk_service method true last,
              [TallyODBCService.sync_skipped], js_undefined))
  /\ (forall p t t' bills receipts s s1 s2 n msg,
        TallyETL.syncBills t bills s = (s1, returned n) ->
        TallyETL.syncReceipts t' receipts s1 = (s2, thrown msg) ->
        let r :=
          TallyETL.runETL p t t'
            (TallyETL.mk_tally true (Some bills) (Some receipts)) false s in
        fst (fst (fst r)) = s1 /\ snd (fst r) = [log_failed msg]).
Proof.
  split; [|split].
  - intros. split; [apply TallyXMLETL_runETL_flag|].
    apply TallyODBCService_runSync_flag.
  - intros. repeat split.
  - intros p t t' bills receipts s s1 s2 n msg Hb Hr.
    pose proof (TallyETL_syncReceipts_thrown _ _ _ _ _ Hr) as E. subst s2.
    cbv zeta. unfold TallyETL.runETL.
    cbn [negb TallyETL.connected TallyETL.bills_result
           TallyETL.receipts_result].
    rewrite Hb, Hr. split; reflexivity.
Qed.

(** ** Dates and bill references read from vouchers *)

Definition no_dash (s : string) : bool :=
  all_chars (fun c => negb (is_dash c)) s.

Fixpoint count_dashes (s : string) : nat :=
  match s with
  | EmptyString => O
  | String c s' => ((if is_dash c then 1 else 0) + count_dashes s')%nat
  end.

Section Dates.
Import Ascii.

Lemma is_dash_true c : is_dash c = true <-> c = "-"%char.
Proof.
  unfold is_dash, char_in. split.
  - intros H. apply andb_true_iff in H. destruct H as [H1 H2].
    apply Nat.leb_le in H1. apply Nat.leb_le in H2.
    assert (E : Ascii.nat_of_ascii c = 45%nat) by lia.
    rewrite <- (Ascii.ascii_nat_embedding c), E. reflexivity.
  - intros ->. reflexivity.
Qed.

Lemma append_assoc (a b c : string) :
  ((a ++ b) ++ c)%string = (a ++ (b ++ c))%string.
Proof. induction a as [|x a IH]; simpl; [reflexivity|]. rewrite IH. reflexivity. Qed.

Lemma append_nil_r (a : string) : (a ++ "")%string = a.
Proof. induction a as [|x a IH]; simpl; [reflexivity|]. rewrite IH. reflexivity. Qed.

Lemma split_dash_no_dash x cur :
  no_dash x = true -> split_dash x cur = [(cur ++ x)%string].
Proof.
  revert cur. induction x as [|c x IH]; intros cur H; simpl.
  - rewrite append_nil_r. reflexivity.
  - unfold no_dash in H. simpl in H. apply andb_true_iff in H.
    destruct H as [Hc Hx]. apply negb_true_iff in Hc. rewrite Hc.
    rewrite (IH _ Hx), append_assoc. reflexivity.
Qed.

Lemma split_dash_part x rest cur :
  no_dash x = true ->
  split_dash (x ++ String "-" rest) cur
  = (cur ++ x)%string :: split_dash rest EmptyString.
Proof.
  revert cur. induction x as [|c x IH]; intros cur H; simpl.
  - rewrite append_nil_r. reflexivity.
  - unfold no_dash in H. simpl in H. apply andb_true_iff in H.
    destruct H as [Hc Hx]. apply negb_true_iff in Hc. rewrite Hc.
    rewrite (IH _ Hx), append_assoc. reflexivity.
Qed.

Lemma includes_dash x rest :
  includes (x ++ String "-" rest) "-" = true.
Proof.
  induction x as [|c x IH].
  - destruct rest; reflexivity.
  - cbn [append includes]. rewrite IH. apply orb_true_r.
Qed.

Lemma includes_no_dash x : no_dash x = true -> includes x "-" = false.
Proof.
  induction x as [|c x IH]; intros H; [reflexivity|].
  unfold no_dash in H. simpl in H. apply andb_true_iff in H.
  destruct H as [Hc Hx]. cbn [includes]. rewrite (IH Hx).
  rewrite orb_false_r. cbn [String.prefix].
  destruct (Ascii.ascii_dec "-" c) as [E|E]; [|reflexivity].
  subst c. discriminate.
Qed.

Lemma length_append (a b : string) :
  String.length (a ++ b) = (String.length a + String.length b)%nat.
Proof. induction a as [|x a IH]; simpl; [reflexivity|]. rewrite IH. reflexivity. Qed.

Lemma split_dash_length x cur :
  List.length (split_dash x cur) = S (count_dashes x).
Proof.
  revert cur. induction x as [|c x IH]; intros cur; [reflexivity|].
  cbn [split_dash count_dashes]. destruct (is_dash c).
  - cbn [List.length]. rewrite IH. reflexivity.
  - rewrite IH. reflexivity.
Qed.

Lemma count_dashes_none x : count_dashes x = O -> no_dash x = true.
Proof.
  induction x as [|c x IH]; [reflexivity|]. cbn [count_dashes].
  unfold no_dash. cbn [all_chars]. destruct (is_dash c); [discriminate|].
  intros H. apply IH in H. exact H.
Qed.

Lemma count_dashes_first x n :
  count_dashes x = S n ->
  exists a rest,
    no_dash a = true /\ x = (a ++ String "-" rest)%string
    /\ count_dashes rest = n.
Proof.
  induction x as [|c x IH]; [discriminate|]. cbn [count_dashes].
  destruct (is_dash c) eqn:E.
  - intros H. apply is_dash_true in E. subst c.
    exists EmptyString, x. repeat split. cbn in H. congruence.
  - intros H. destruct (IH H) as [a [rest [Ha [Hx Hn]]]].
    exists (String c a), rest. repeat split.
    + unfold no_dash in *. cbn [all_chars]. rewrite E, Ha. reflexivity.
    + cbn [append]. rewrite Hx. reflexivity.
    + exact Hn.
Qed.

(** X13.  How the services read a voucher date.  A text of eight
    characters is cut as YYYYMMDD, whatever its characters.  Any other
    text with exactly two dashes is of the form day-month-year and is
    turned round, the real-time service padding day and month to two
    characters.  Every other text, whatever the number of its dashes
    (none, one, three or more), becomes the current date, and so does a
    missing or empty date in the real-time service.  The length is
    tested first: 15-3-2024 is read as 2024-03-15, but 5-3-2024, which
    has eight characters, is cut as 5-3--20-24. *)
Theorem formatTallyDate_cases :
  forall (e : env),
    (forall y m d,
       String.length y = 4%nat -> String.length m = 2%nat ->
       String.length d = 2%nat ->
       TallyXMLETL.formatTallyDate e (y ++ m ++ d)
       = (y ++ "-" ++ m ++ "-" ++ d)%string
       /\ TallyODBCService.formatTallyDate e (Some (y ++ m ++ d)%string)
          = (y ++ "-" ++ m ++ "-" ++ d)%string)
    /\ (forall x,
          String.length x <> 8%nat -> count_dashes x = 2%nat ->
          exists dd mm yyyy,
            no_dash dd = true /\ no_dash mm = true /\ no_dash yyyy = true
            /\ x = (dd ++ "-" ++ mm ++ "-" ++ yyyy)%string
            /\ TallyXMLETL.formatTallyDate e x
               = (yyyy ++ "-" ++ mm ++ "-" ++ dd)%string
            /\ TallyODBCService.formatTallyDate e (Some x)
               = (yyyy ++ "-" ++ padStart2 mm ++ "-" ++ padStart2 dd)%string)
    /\ (forall x,
          String.length x <> 8%nat -> count_dashes x <> 2%nat ->
          TallyXMLETL.formatTallyDate e x = today e
          /\ TallyODBCService.formatTallyDate e (Some x) = today e)
    /\ TallyODBCService.formatTallyDate e None = today e
    /\ TallyODBCService.formatTallyDate e (Some EmptyString) = today e
    /\ TallyXMLETL.formatTallyDate e "1-2-3-4" = today e
    /\ TallyODBCService.formatTallyDate e (Some "15-3-2024"%string)
       = "2024-03-15"%string
    /\ TallyODBCService.formatTallyDate e (Some "5-3-2024"%string)
       = "5-3--20-24"%string.
Proof.
  intros e. split; [|split; [|split; [|split; [|split; [|split; [|split]]]]]].
  - intros y m d Hy Hm Hd.
    destruct y as [|y1 [|y2 [|y3 [|y4 [|? ?]]]]]; try discriminate.
    destruct m as [|m1 [|m2 [|? ?]]]; try discriminate.
    destruct d as [|d1 [|d2 [|? ?]]]; try discriminate.
    split; reflexivity.
  - intros x Hlen Hc.
    destruct (count_dashes_first x 1 Hc) as [dd [r1 [Hd [Hx H1]]]].
    destruct (count_dashes_first r1 0 H1) as [mm [yyyy [Hm [Hr H0]]]].
    apply count_dashes_none in H0. subst r1.
    exists dd, mm, yyyy.
    split; [exact Hd|]. split; [exact Hm|]. split; [exact H0|].
    split; [exact Hx|].
    assert (Hl : (String.length x =? 8)%nat = false)
      by (apply Nat.eqb_neq; assumption).
    assert (Hs : split_dash x EmptyString = [dd; mm; yyyy]).
    { rewrite Hx.
      rewrite split_dash_part by assumption.
      rewrite split_dash_part by assumption.
      rewrite split_dash_no_dash by assumption. reflexivity. }
    assert (Hi : includes x "-" = true)
      by (rewrite Hx; apply includes_dash).
    split.
    + unfold TallyXMLETL.formatTallyDate. rewrite Hl, Hi, Hs. reflexivity.
    + unfold TallyODBCService.formatTallyDate. rewrite Hl, Hi, Hs.
      destruct x; [discriminate Hc|]. reflexivity.
  - intros x Hlen Hc.
    assert (Hl : (String.length x =? 8)%nat = false)
      by (apply Nat.eqb_neq; assumption).
    assert (Hs : match split_dash x EmptyString with
                 | [p0; p1; p2] => False
                 | _ => True
                 end).
    { pose proof (split_dash_length x EmptyString) as L.
      destruct (split_dash x EmptyString) as [|a [|b [|c [|d l]]]];
        try exact I.
      cbn [List.length] in L. congruence. }
    split.
    + unfold TallyXMLETL.formatTallyDate. rewrite Hl.
      destruct (includes x "-"); [|reflexivity].
      destruct (split_dash x EmptyString) as [|a [|b [|c [|d l]]]];
        try reflexivity. contradiction.
    + unfold TallyODBCService.formatTallyDate. rewrite Hl.
      destruct (negb (nonempty x)); [reflexivity|].
      destruct (includes x "-"); [|reflexivity].
      destruct (split_dash x EmptyString) as [|a [|b [|c [|d l]]]];
        try reflexivity. contradiction.
  - reflexivity.
  - reflexivity.
  - reflexivity.
  - reflexivity.
  - reflexivity.
Qed.
End Dates.

Lemma all_chars_take_while p x : all_chars p (take_while p x) = true.
Proof.
  induction x as [|c x IH]; [reflexivity|]. simpl.
  destruct (p c) eqn:E; [|reflexivity]. simpl. rewrite E. exact IH.
Qed.

Lemma take_while_token p tok rest :
  all_chars p tok = true ->
  match rest with
  | EmptyString => True
  | String c _ => p c = false
  end ->
  take_while p (tok ++ rest) = tok.
Proof.
  intros Ht Hr. induction tok as [|c tok IH]; simpl.
  - destruct rest as [|c rest]; [reflexivity|]. simpl. rewrite Hr. reflexivity.
  - simpl in Ht. apply andb_true_iff in Ht. destruct Ht as [Hc Ht].
    rewrite Hc, (IH Ht). reflexivity.
Qed.

Lemma drop_while_seps p seps x :
  all_chars p seps = true ->
  match x with
  | EmptyString => True
  | String c _ => p c = false
  end ->
  drop_while p (seps ++ x) = x.
Proof.
  intros Hs Hx. induction seps as [|c seps IH]; simpl.
  - destruct x as [|c x]; [reflexivity|]. simpl. rewrite Hx. reflexivity.
  - simpl in Hs. apply andb_true_iff in Hs. destruct Hs as [Hc Hs].
    rewrite Hc. apply IH. assumption.
Qed.

Lemma substring_all x : String.substring 0 (String.length x) x = x.
Proof. induction x as [|c x IH]; simpl; [reflexivity|]. rewrite IH. reflexivity. Qed.

Lemma toLowerCase_append a b :
  toLowerCase (a ++ b) = (toLowerCase a ++ toLowerCase b)%string.
Proof. induction a as [|c a IH]; simpl; [reflexivity|]. rewrite IH. reflexivity. Qed.

Definition is_sep (c : Ascii.ascii) : bool := is_colon c || is_space c.

Lemma match_bill_reference_step c s :
  match_bill_reference (String c s)
  = if String.prefix "bill" (toLowerCase (String c s)) then
      match take_while is_ref_char
              (drop_while (fun c => is_colon c || is_space c)
                 (string_drop 4 (String c s))) with
      | EmptyString => match_bill_reference s
      | tok => Some tok
      end
    else match_bill_reference s.
Proof. reflexivity. Qed.

Lemma string_drop_4 c1 c2 c3 c4 x :
  string_drop 4 (String c1 (String c2 (String c3 (String c4 x)))) = x.
Proof.
  unfold string_drop. cbn [String.length Nat.sub String.substring].
  rewrite Nat.sub_0_r. apply substring_all.
Qed.

Lemma ref_char_not_sep c : is_ref_char c = true -> is_sep c = false.
Proof.
  unfold is_ref_char, is_sep, is_colon, is_space, is_upper, is_lower,
    is_digit, is_dash, char_in.
  intros H.
  repeat (apply orb_true_iff in H; destruct H as [H|H]);
    apply andb_true_iff in H; destruct H as [H1 H2];
    apply Nat.leb_le in H1; apply Nat.leb_le in H2;
    repeat (apply orb_false_iff; split); apply andb_false_iff;
    rewrite !Nat.leb_gt; lia.
Qed.

(** X14.  The bill reference the services read from a narration,
    [narration.match(/bill[:\s]*([A-Z0-9-]+)/i)].  A reference is found
    only in a narration that contains the letters "bill" in some case,
    and it is a non-empty text of letters, digits and dashes.  In a
    narration that begins with those letters, followed by colons and
    white space, a token of letters, digits and dashes and then the end
    or any other character, the reference is that token; this also
    holds with nothing between "bill" and the token, so that a word
    such as "Billing" yields "ing". *)
Theorem match_bill_reference_token :
  (forall s tok,
     match_bill_reference s = Some tok ->
     tok <> EmptyString
     /\ all_chars is_ref_char tok = true
     /\ includes (toLowerCase s) "bill" = true)
  /\ (forall w seps tok rest,
        toLowerCase w = "bill"%string ->
        all_chars is_sep seps = true ->
        tok <> EmptyString ->
        all_chars is_ref_char tok = true ->
        match rest with
        | EmptyString => True
        | String c _ => is_ref_char c = false
        end ->
        match_bill_reference (w ++ seps ++ tok ++ rest) = Some tok)
  /\ match_bill_reference "Billing for March" = Some "ing"%string
  /\ match_bill_reference "against bill: INV-2024-17 by cheque"
     = Some "INV-2024-17"%string
  /\ match_bill_reference "bill : , INV-1" = None.
Proof.
  split; [|split; [|repeat split]].
  - induction s as [|c s IH]; intros tok H; [discriminate|].
    cbn [match_bill_reference] in H.
    assert (Hrec : match_bill_reference s = Some tok ->
                   tok <> EmptyString
                   /\ all_chars is_ref_char tok = true
                   /\ includes (toLowerCase (String c s)) "bill" = true).
    { intros H'. destruct (IH tok H') as [H1 [H2 H3]].
      split; [assumption|]. split; [assumption|].
      cbn [toLowerCase includes]. rewrite H3. apply orb_true_r. }
    destruct (String.prefix "bill" (toLowerCase (String c s))) eqn:Hp;
      [|auto].
    destruct (take_while is_ref_char
                (drop_while (fun c => is_colon c || is_space c)
                   (string_drop 4 (String c s)))) as [|a t] eqn:Ht; [auto|].
    inversion H. subst tok. split; [discriminate|]. split.
    + rewrite <- Ht. apply all_chars_take_while.
    + destruct (toLowerCase (String c s)) eqn:E; [discriminate|].
      cbn [includes]. rewrite Hp. reflexivity.
  - intros w seps tok rest Hw Hseps Htok Href Hrest.
    destruct w as [|c1 [|c2 [|c3 [|c4 [|? ?]]]]]; try discriminate.
    cbn [append]. rewrite match_bill_reference_step, string_drop_4.
    change (toLowerCase
              (String c1 (String c2 (String c3 (String c4
                 (seps ++ tok ++ rest))))))
      with (toLowerCase (String c1 (String c2 (String c3 (String c4 "")))
                         ++ (seps ++ tok ++ rest))).
    rewrite toLowerCase_append, Hw.
    cbn [append String.prefix].
    repeat match goal with
           | |- context [Ascii.ascii_dec ?a ?a] =>
               destruct (Ascii.ascii_dec a a); [|congruence]
           end.
    assert (Hd : drop_while (fun c => is_colon c || is_space c)
                   (seps ++ tok ++ rest)
                 = (tok ++ rest)%string).
    { apply (drop_while_seps is_sep); [assumption|].
      destruct tok as [|a tok]; [congruence|]. cbn [append].
      apply ref_char_not_sep. simpl in Href. apply andb_true_iff in Href.
      tauto. }
    rewrite Hd, (take_while_token is_ref_char tok rest Href Hrest).
    replace (String.prefix "" (toLowerCase (seps ++ tok ++ rest))) with true
      by (destruct (toLowerCase (seps ++ tok ++ rest)); reflexivity).
    destruct tok; [congruence|reflexivity].
Qed.

(** ** Customer OTPs *)

Lemma digits_length k fuel n acc :
  (k < fuel)%nat -> 10 ^ Z.of_nat k <= n < 10 ^ Z.of_nat (S k) ->
  String.length (digits fuel n acc) = (S k + String.length acc)%nat.
Proof.
  revert fuel n acc. induction k as [|k IH]; intros fuel n acc Hf Hn;
    (destruct fuel as [|fuel]; [lia|]); cbn [digits].
  - change (10 ^ Z.of_nat 0) with 1 in Hn. change (10 ^ Z.of_nat 1) with 10 in Hn.
    replace (n / 10 =? 0) with true
      by (symmetry; apply Z.eqb_eq, Z.div_small; lia).
    reflexivity.
  - rewrite !Nat2Z.inj_succ, !Z.pow_succ_r in Hn by lia.
    assert (H1 : 10 ^ Z.of_nat k <= n / 10)
      by (apply Z.div_le_lower_bound; lia).
    assert (H2 : n / 10 < 10 ^ Z.of_nat (S k)).
    { rewrite Nat2Z.inj_succ, Z.pow_succ_r by lia.
      apply Z.div_lt_upper_bound; lia. }
    assert (H0 : 0 < 10 ^ Z.of_nat k) by (apply Z.pow_pos_nonneg; lia).
    replace (n / 10 =? 0) with false by (symmetry; apply Z.eqb_neq; lia).
    rewrite IH by (try lia; auto). simpl. lia.
Qed.

Lemma generateOTP_length draw :
  100000 <= draw < 999999 ->
  String.length (OTPService.generateOTP draw) = 6%nat.
Proof.
  intros H. unfold OTPService.generateOTP, decimal.
  assert (Hl : 16 <= Z.log2 draw).
  { change 16 with (Z.log2 65536). apply Z.log2_le_mono. lia. }
  rewrite (digits_length 5); [reflexivity| |].
  - lia.
  - change (10 ^ Z.of_nat 5) with 100000.
    change (10 ^ Z.of_nat 6) with 1000000. lia.
Qed.

Lemma varchar_fits n x : (String.length x <= n)%nat -> varchar n x = Some x.
Proof.
  intros H. unfold varchar.
  replace (String.length x <=? n)%nat with true
    by (symmetry; apply Nat.leb_le; assumption).
  reflexivity.
Qed.

Lemma filter_map_commute {A : Type} (p : A -> bool) (f : A -> A) l :
  (forall x, p (f x) = p x) -> filter p (map f l) = map f (filter p l).
Proof.
  intros H. induction l as [|x l IH]; [reflexivity|]. simpl.
  rewrite H. destruct (p x); simpl; rewrite IH; reflexivity.
Qed.

Lemma filter_comm {A : Type} (p q : A -> bool) l :
  filter p (filter q l) = filter q (filter p l).
Proof.
  induction l as [|x l IH]; [reflexivity|]. simpl.
  destruct (q x) eqn:Eq, (p x) eqn:Ep; simpl; rewrite ?Eq, ?Ep, IH;
    reflexivity.
Qed.

(** The UPDATE of [verifyOTP]. *)
Definition mark_verified (id : string) (r : customer_otp.row)
  : customer_otp.row :=
  if String.eqb (customer_otp.id r) id then OTPService.set_verified r else r.

Lemma matching_mark b c id r :
  OTPService.matching b c (mark_verified id r) = OTPService.matching b c r.
Proof.
  unfold mark_verified. destruct (String.eqb (customer_otp.id r) id);
    reflexivity.
Qed.

Lemma verifyOTP_valid now b c tbl tbl' ph :
  OTPService.verifyOTP now b c tbl = (tbl', OTPService.valid ph) ->
  exists otp rest,
    filter (OTPService.matching b c) tbl = otp :: rest
    /\ customer_otp.verified otp = false
    /\ customer_otp.expires_at otp >= now
    /\ customer_otp.phone otp = ph
    /\ tbl' = map (mark_verified (customer_otp.id otp)) tbl.
Proof.
  unfold OTPService.verifyOTP.
  destruct (filter (OTPService.matching b c) tbl) as [|otp rest];
    [discriminate|].
  destruct (customer_otp.verified otp) eqn:Hv; [discriminate|].
  destruct (customer_otp.expires_at otp <? now) eqn:He; [discriminate|].
  intros H. inversion H. exists otp, rest.
  apply Z.ltb_ge in He. repeat split; auto. lia.
Qed.

Lemma verifyOTP_again now now' b c tbl tbl' ph :
  OTPService.verifyOTP now b c tbl = (tbl', OTPService.valid ph) ->
  OTPService.verifyOTP now' b c tbl'
  = (tbl', OTPService.invalid "OTP already used").
Proof.
  intros H. apply verifyOTP_valid in H.
  destruct H as [otp [rest [Hf [Hv [He [Hp ->]]]]]].
  unfold OTPService.verifyOTP.
  rewrite (filter_map_commute _ _ _ (matching_mark b c (customer_otp.id otp))).
  rewrite Hf. cbn [map]. unfold mark_verified at 1.
  rewrite String.eqb_refl. reflexivity.
Qed.


Lemma delete_for_bill_none_left b c tbl :
  filter (OTPService.matching (Some b) c)
    (OTPService.delete_for_bill (Some b) tbl) = [].
Proof.
  unfold OTPService.delete_for_bill.
  induction tbl as [|x tbl IH]; [reflexivity|]. simpl.
  destruct (sql_eq (customer_otp.bill_no x) (Some b)) eqn:E; simpl;
    [exact IH|].
  unfold OTPService.matching at 1. rewrite E. exact IH.
Qed.

Lemma delete_for_bill_ids b tbl id :
  ~ In id (map customer_otp.id tbl) ->
  ~ In id (map customer_otp.id (OTPService.delete_for_bill b tbl)).
Proof.
  intros H Hin. apply H. apply in_map_iff in Hin.
  destruct Hin as [x [Hx Hin]]. apply filter_In in Hin.
  apply in_map_iff. exists x. tauto.
Qed.

Lemma existsb_id_false id (tbl : list customer_otp.row) :
  ~ In id (map customer_otp.id tbl) ->
  existsb (fun r => String.eqb (customer_otp.id r) id) tbl = false.
Proof.
  intros H. induction tbl as [|x tbl IH]; [reflexivity|]. simpl in *.
  destruct (String.eqb (customer_otp.id x) id) eqn:E.
  - apply String.eqb_eq in E. tauto.
  - apply IH. tauto.
Qed.

Lemma mark_verified_absent id (tbl : list customer_otp.row) :
  ~ In id (map customer_otp.id tbl) -> map (mark_verified id) tbl = tbl.
Proof.
  intros H. induction tbl as [|x tbl IH]; [reflexivity|]. simpl in *.
  unfold mark_verified at 1.
  destruct (String.eqb (customer_otp.id x) id) eqn:E.
  - apply String.eqb_eq in E. tauto.
  - f_equal. apply IH. tauto.
Qed.

Lemma createOTP_accepted draw now db_now new_id bills b ph tbl :
  100000 <= draw < 999999 ->
  In b (map bill.bill_no bills) ->
  (String.length ph <= 20)%nat ->
  ~ In new_id (map customer_otp.id tbl) ->
  OTPService.createOTP draw now db_now new_id bills (Some b) (Some ph) tbl
  = (OTPService.delete_for_bill (Some b) tbl
     ++ [customer_otp.mk new_id (Some b) ph (OTPService.generateOTP draw)
           (now + 600000) false db_now],
     returned (OTPService.mk_created new_id (Some ph) (now + 600000))).
Proof.
  intros Hd Hb Hph Hid. unfold OTPService.createOTP, OTPService.insert_otp.
  cbv zeta. rewrite (varchar_fits 20 ph Hph).
  rewrite (varchar_fits 6) by (rewrite generateOTP_length by assumption; lia).
  rewrite existsb_id_false by (apply delete_for_bill_ids; assumption).
  replace (existsb (fun x => String.eqb (bill.bill_no x) b) bills) with true.
  2:{ symmetry. apply existsb_exists. apply in_map_iff in Hb.
      destruct Hb as [x [Hx Hin]]. exists x. split; [assumption|].
      apply String.eqb_eq. assumption. }
  reflexivity.
Qed.

(** X16.  The life of an OTP.  For a bill of the bill table, a phone
    number of at most 20 characters and a fresh key, [createOTP] stores
    a six-character code that expires 10 minutes later.  That code is
    accepted for the bill up to and including the instant of expiry,
    with the phone number it was sent to, and once only; after the
    instant of expiry it is answered "OTP expired"; and any other code
    for the bill is answered "Invalid OTP", the codes created before for
    that bill included, since [createOTP] has deleted them. *)
Theorem createOTP_then_verifyOTP :
  forall draw now db_now new_id bills b ph tbl,
    100000 <= draw < 999999 ->
    In b (map bill.bill_no bills) ->
    (String.length ph <= 20)%nat ->
    ~ In new_id (map customer_otp.id tbl) ->
    let code := OTPService.generateOTP draw in
    let tbl1 :=
      fst (OTPService.createOTP draw now db_now new_id bills (Some b)
             (Some ph) tbl) in
    String.length code = 6%nat
    /\ snd (OTPService.createOTP draw now db_now new_id bills (Some b)
              (Some ph) tbl)
       = returned (OTPService.mk_created new_id (Some ph) (now + 600000))
    /\ (forall now',
          now' <= now + 600000 ->
          snd (OTPService.verifyOTP now' (Some b) (Some code) tbl1)
          = OTPService.valid ph
          /\ forall now'',
               OTPService.verifyOTP now'' (Some b) (Some code)
                 (fst (OTPService.verifyOTP now' (Some b) (Some code) tbl1))
               = (fst (OTPService.verifyOTP now' (Some b) (Some code) tbl1),
                  OTPService.invalid "OTP already used"))
    /\ (forall now',
          now + 600000 < now' ->
          OTPService.verifyOTP now' (Some b) (Some code) tbl1
          = (tbl1, OTPService.invalid "OTP expired"))
    /\ (forall now' code',
          code' <> Some code ->
          OTPService.verifyOTP now' (Some b) code' tbl1
          = (tbl1, OTPService.invalid "Invalid OTP")).
Proof.
  intros draw now db_now new_id bills b ph tbl Hd Hb Hph Hid. cbv zeta.
  rewrite createOTP_accepted by assumption. cbn [fst snd].
  set (code := OTPService.generateOTP draw).
  set (row := customer_otp.mk new_id (Some b) ph code (now + 600000) false
                db_now).
  assert (Hf : forall c,
            filter (OTPService.matching (Some b) c)
              (OTPService.delete_for_bill (Some b) tbl ++ [row])
            = if sql_eq (Some code) c then [row] else []).
  { intros c. rewrite filter_app, delete_for_bill_none_left.
    cbn [filter app]. unfold OTPService.matching, row.
    cbn [customer_otp.bill_no customer_otp.otp_code sql_eq].
    rewrite String.eqb_refl. cbn [andb].
    destruct c as [c|]; [|reflexivity].
    destruct (String.eqb code c); reflexivity. }
  split; [apply generateOTP_length; assumption|].
  split; [reflexivity|]. split; [|split].
  - intros now' Hn.
    assert (Hv : OTPService.verifyOTP now' (Some b) (Some code)
                   (OTPService.delete_for_bill (Some b) tbl ++ [row])
                 = (map (mark_verified new_id)
                      (OTPService.delete_for_bill (Some b) tbl ++ [row]),
                    OTPService.valid ph)).
    { unfold OTPService.verifyOTP. rewrite Hf.
      cbn [sql_eq]. rewrite String.eqb_refl.
      cbn [row customer_otp.verified customer_otp.expires_at].
      replace (now + 600000 <? now') with false
        by (symmetry; apply Z.ltb_ge; lia).
      reflexivity. }
    rewrite Hv. cbn [fst snd]. split; [reflexivity|].
    intros now''. eapply verifyOTP_again. exact Hv.
  - intros now' Hn. unfold OTPService.verifyOTP. rewrite Hf.
    cbn [sql_eq]. rewrite String.eqb_refl.
    cbn [row customer_otp.verified customer_otp.expires_at].
    replace (now + 600000 <? now') with true
      by (symmetry; apply Z.ltb_lt; lia).
    reflexivity.
  - intros now' code' Hc. unfold OTPService.verifyOTP. rewrite Hf.
    destruct code' as [c|]; [|reflexivity]. cbn [sql_eq].
    destruct (String.eqb code c) eqn:E; [|reflexivity].
    apply String.eqb_eq in E. congruence.
Qed.

Lemma filter_negb_delete b tbl :
  filter (fun r => negb (sql_eq (customer_otp.bill_no r) b))
    (OTPService.delete_for_bill b tbl)
  = filter (fun r => negb (sql_eq (customer_otp.bill_no r) b)) tbl.
Proof. unfold OTPService.delete_for_bill. apply filter_filter_same. Qed.

Lemma filter_bill_delete b tbl :
  filter (fun r => sql_eq (customer_otp.bill_no r) b)
    (OTPService.delete_for_bill b tbl) = [].
Proof.
  unfold OTPService.delete_for_bill.
  induction tbl as [|x tbl IH]; [reflexivity|]. simpl.
  destruct (sql_eq (customer_otp.bill_no x) b) eqn:E; simpl;
    [exact IH|]. rewrite E. exact IH.
Qed.

Lemma insert_otp_row new_id db_now bills billNo phone otp expiresAt tbl row :
  OTPService.insert_otp new_id db_now bills billNo phone otp expiresAt tbl
  = Some row ->
  customer_otp.id row = new_id
  /\ customer_otp.bill_no row = billNo
  /\ customer_otp.expires_at row = expiresAt
  /\ customer_otp.verified row = false
  /\ customer_otp.created_at row = db_now
  /\ (exists ph, phone = Some ph
                 /\ varchar 20 ph = Some (customer_otp.phone row))
  /\ varchar 6 otp = Some (customer_otp.otp_code row).
Proof.
  unfold OTPService.insert_otp.
  destruct phone as [ph|]; [|discriminate].
  destruct (varchar 20 ph) as [ph'|] eqn:E1; [|discriminate].
  destruct (varchar 6 otp) as [otp'|] eqn:E2; [|discriminate].
  match goal with |- (if ?c then _ else _) = _ -> _ => destruct c end;
    [|discriminate].
  intros H. inversion H. cbn.
  repeat split; try assumption; try reflexivity.
  exists ph. split; [reflexivity|assumption].
Qed.

(** X17.  [createOTP] replaces, and is not atomic.  Whatever its
    arguments, it leaves the OTPs of the other bills as they were; of
    the bill itself the table holds afterwards the one new row, not yet
    verified and expiring 10 minutes later, when the call returns, and
    no row at all when it throws: the DELETE is made before the INSERT
    and is not undone, so that a call the table refuses (no phone
    number, an unknown bill) still cancels the code sent before. *)
Theorem createOTP_replaces :
  forall draw now db_now new_id bills b phone tbl,
    let r :=
      OTPService.createOTP draw now db_now new_id bills (Some b) phone tbl in
    filter (fun x => negb (sql_eq (customer_otp.bill_no x) (Some b))) (fst r)
    = filter (fun x => negb (sql_eq (customer_otp.bill_no x) (Some b))) tbl
    /\ match snd r with
       | returned c =>
           exists row,
             filter (fun x => sql_eq (customer_otp.bill_no x) (Some b))
               (fst r) = [row]
             /\ customer_otp.id row = OTPService.id c
             /\ customer_otp.expires_at row = now + 600000
             /\ customer_otp.verified row = false
             /\ OTPService.expiresAt c = now + 600000
             /\ OTPService.phone c = phone
       | thrown _ =>
           filter (fun x => sql_eq (customer_otp.bill_no x) (Some b)) (fst r)
           = []
       end
    /\ (phone = None \/ ~ In b (map bill.bill_no bills) ->
        exists msg, snd r = thrown msg).
Proof.
  intros draw now db_now new_id bills b phone tbl. cbv zeta.
  unfold OTPService.createOTP. cbv zeta.
  destruct (OTPService.insert_otp new_id db_now bills (Some b) phone
              (OTPService.generateOTP draw) (now + OTPService.expiryMinutes * 60 * 1000)
              (OTPService.delete_for_bill (Some b) tbl)) as [row|] eqn:Hi;
    cbn [fst snd].
  - pose proof (insert_otp_row _ _ _ _ _ _ _ _ _ Hi)
      as [Hid [Hb [He [Hv [Hc [Hph Hotp]]]]]].
    split; [|split].
    + rewrite filter_app, filter_negb_delete. cbn [filter].
      rewrite Hb. cbn [sql_eq]. rewrite String.eqb_refl. cbn [negb].
      apply app_nil_r.
    + exists row. rewrite filter_app, filter_bill_delete. cbn [filter app].
      rewrite Hb. cbn [sql_eq]. rewrite String.eqb_refl.
      repeat split; auto.
    + intros [Hp|Hu]; exfalso.
      * subst phone. discriminate.
      * unfold OTPService.insert_otp in Hi.
        destruct phone as [ph|]; [|discriminate].
        destruct (varchar 20 ph); [|discriminate].
        destruct (varchar 6 _); [|discriminate].
        destruct (existsb (fun x => String.eqb (bill.bill_no x) b) bills)
          eqn:E; [|rewrite andb_false_r in Hi; discriminate].
        apply existsb_exists in E. destruct E as [x [Hx Hxb]].
        apply String.eqb_eq in Hxb. apply Hu. subst b. apply in_map.
        assumption.
  - split; [apply filter_negb_delete|].
    split; [apply filter_bill_delete|]. intros _. eauto.
Qed.

(** X18.  [cleanupExpiredOTPs] removes the rows whose expiry lies
    before the clock of the database and no other row, and it never
    cancels a code that is still good: a verification that succeeds at
    an instant not before that clock succeeds in the same way after the
    cleanup, and the two orders of cleaning up and verifying leave the
    same table. *)
Theorem cleanupExpiredOTPs_keeps_valid :
  forall db_now tbl,
    (forall x,
       In x (OTPService.cleanupExpiredOTPs db_now tbl)
       <-> In x tbl /\ db_now <= customer_otp.expires_at x)
    /\ (forall now b c tbl' ph,
          db_now <= now ->
          OTPService.verifyOTP now b c tbl = (tbl', OTPService.valid ph) ->
          OTPService.verifyOTP now b c
            (OTPService.cleanupExpiredOTPs db_now tbl)
          = (OTPService.cleanupExpiredOTPs db_now tbl',
             OTPService.valid ph)).
Proof.
  intros db_now tbl. split.
  - intros x. unfold OTPService.cleanupExpiredOTPs. rewrite filter_In.
    rewrite negb_true_iff, Z.ltb_ge. tauto.
  - intros now b c tbl' ph Hn H. apply verifyOTP_valid in H.
    destruct H as [otp [rest [Hf [Hv [He [Hp ->]]]]]].
    unfold OTPService.verifyOTP, OTPService.cleanupExpiredOTPs.
    rewrite filter_comm, Hf. cbn [filter].
    replace (customer_otp.expires_at otp <? db_now) with false
      by (symmetry; apply Z.ltb_ge; lia).
    cbn [negb]. rewrite Hv.
    replace (customer_otp.expires_at otp <? now) with false
      by (symmetry; apply Z.ltb_ge; lia).
    rewrite Hp. f_equal. symmetry. apply filter_map_commute.
    intros x. unfold mark_verified.
    destruct (String.eqb (customer_otp.id x) (customer_otp.id otp));
      reflexivity.
Qed.

Lemma by_created_at_desc_total x y :
  OTPService.by_created_at_desc x y = true
  \/ OTPService.by_created_at_desc y x = true.
Proof. unfold OTPService.by_created_at_desc. rewrite !Z.leb_le. lia. Qed.

Lemma by_created_at_desc_trans x y z :
  OTPService.by_created_at_desc x y = true ->
  OTPService.by_created_at_desc y z = true ->
  OTPService.by_created_at_desc x z = true.
Proof. unfold OTPService.by_created_at_desc. rewrite !Z.leb_le. lia. Qed.

(** X19.  [resendOTP] needs an earlier request: for a bill without OTP
    row it throws "No OTP request found for this bill" and changes
    nothing; otherwise it is [createOTP] for the phone number of the
    bill's row created last, so that the earlier code of the bill is
    replaced. *)
Theorem resendOTP_last_phone :
  forall draw now db_now new_id bills b tbl,
    (filter (fun r => sql_eq (customer_otp.bill_no r) (Some b)) tbl = [] ->
     OTPService.resendOTP draw now db_now new_id bills (Some b) tbl
     = (tbl, thrown "No OTP request found for this bill"))
    /\ (filter (fun r => sql_eq (customer_otp.bill_no r) (Some b)) tbl <> [] ->
        exists existing,
          In existing tbl
          /\ customer_otp.bill_no existing = Some b
          /\ (forall x, In x tbl -> customer_otp.bill_no x = Some b ->
                customer_otp.created_at x
                <= customer_otp.created_at existing)
          /\ OTPService.resendOTP draw now db_now new_id bills (Some b) tbl
             = OTPService.createOTP draw now db_now new_id bills (Some b)
                 (Some (customer_otp.phone existing)) tbl).
Proof.
  intros draw now db_now new_id bills b tbl. unfold OTPService.resendOTP.
  split.
  - intros H. rewrite H. reflexivity.
  - intros H.
    destruct (limit_1
                (order_by OTPService.by_created_at_desc
                   (filter (fun r => sql_eq (customer_otp.bill_no r) (Some b))
                      tbl))) as [existing|] eqn:Hl.
    + unfold limit_1 in Hl.
      apply order_by_head in Hl;
        [|apply by_created_at_desc_total|apply by_created_at_desc_trans].
      destruct Hl as [Hin Hmax]. apply filter_In in Hin.
      destruct Hin as [Hin Hb].
      exists existing. split; [assumption|]. split.
      * destruct (customer_otp.bill_no existing) as [k|]; [|discriminate].
        simpl in Hb. apply String.eqb_eq in Hb. congruence.
      * split; [|reflexivity]. intros x Hx Hxb.
        apply Z.leb_le. apply (Hmax x). apply filter_In.
        split; [assumption|]. rewrite Hxb. simpl. apply String.eqb_refl.
    + exfalso. apply H. unfold limit_1 in Hl.
      destruct (order_by OTPService.by_created_at_desc
                  (filter (fun r => sql_eq (customer_otp.bill_no r) (Some b))
                     tbl)) eqn:Ho; [|discriminate].
      apply (proj1 (order_by_nil _ _)) in Ho. assumption.
Qed.

(** ** Transport releases *)

(** A row marked as having its proof of delivery has a delivery time. *)
Definition pod_consistent (r : transport.row) : Prop :=
  transport.pod_uploaded r = true -> transport.delivered_ts r <> None.

Lemma status_partition (rows : list (transport.row * Dispatch.transport_status)) :
  List.length rows
  = (List.length (filter (Dispatch.has_status Dispatch.IN_TRANSIT) rows)
     + List.length (filter (Dispatch.has_status Dispatch.DELIVERED) rows)
     + List.length (filter (Dispatch.has_status Dispatch.POD_UPLOADED) rows))%nat.
Proof.
  induction rows as [|[r st] rows IH]; [reflexivity|].
  destruct st; simpl; lia.
Qed.

Lemma transports_rows date bills tbl row :
  In row (Dispatch.transports date bills tbl) ->
  In (fst row) tbl /\ snd row = Dispatch.status_of (fst row).
Proof.
  unfold Dispatch.transports. intros H. apply order_by_In in H.
  apply in_flat_map in H. destruct H as [rt [Hrt H]].
  apply in_map_iff in H. destruct H as [b [Hrow _]]. subst row. auto.
Qed.

Lemma for_bill_mark_delivered bill_no now p r :
  Dispatch.for_bill bill_no
    (if Dispatch.for_bill bill_no r then Dispatch.mark_delivered now p r
     else r)
  = Dispatch.for_bill bill_no r.
Proof. destruct (Dispatch.for_bill bill_no r) eqn:E; [|exact E]. exact E. Qed.

Lemma mark_none bill_no now p tbl :
  filter (Dispatch.for_bill bill_no) tbl = [] ->
  map (fun r =>
         if Dispatch.for_bill bill_no r then Dispatch.mark_delivered now p r
         else r) tbl
  = tbl.
Proof.
  induction tbl as [|x tbl IH]; [reflexivity|]. cbn [filter map].
  destruct (Dispatch.for_bill bill_no x); [discriminate|].
  intros H. rewrite (IH H). reflexivity.
Qed.

(** What an upload with a usable file does. *)
Lemma pod_with_file tr now bill_no path p tbl :
  path <> EmptyString -> varchar 500 path = Some p ->
  Dispatch.pod tr now bill_no (Some path) tbl
  = match filter (Dispatch.for_bill bill_no) tbl with
    | [] => (Dispatch.json_error 404 "Transport release not found", tbl)
    | r :: _ =>
        if tr
        then (Dispatch.json_error 500 "Failed to upload POD", tbl)
        else
          (Dispatch.pod_saved (Dispatch.mark_delivered now p r),
           map (fun r =>
                  if Dispatch.for_bill bill_no r
                  then Dispatch.mark_delivered now p r else r) tbl)
    end.
Proof.
  intros Hne Hp. unfold Dispatch.pod.
  replace (negb (truthy (Some path))) with false
    by (cbn [truthy]; apply String.eqb_neq in Hne; rewrite Hne; reflexivity).
  rewrite Hp. cbv zeta.
  rewrite (filter_map_commute (Dispatch.for_bill bill_no) _ tbl)
    by (intros x; apply for_bill_mark_delivered).
  destruct (filter (Dispatch.for_bill bill_no) tbl) as [|r rest] eqn:Hf.
  - cbn [map]. rewrite (mark_none bill_no now p tbl Hf). reflexivity.
  - cbn [map].
    assert (Hr : Dispatch.for_bill bill_no r = true).
    { assert (Hin : In r (filter (Dispatch.for_bill bill_no) tbl))
        by (rewrite Hf; left; reflexivity).
      apply filter_In in Hin. tauto. }
    rewrite Hr.
    replace (AuditLog.raises_on AuditLog.release_transporter_columns)
      with true by reflexivity.
    rewrite andb_true_r. destruct tr; reflexivity.
Qed.

Lemma pod_rows tr now bill_no file tbl x :
  In x (snd (Dispatch.pod tr now bill_no file tbl)) ->
  In x tbl
  \/ (Dispatch.for_bill bill_no x = true
      /\ transport.pod_uploaded x = true
      /\ transport.delivered_ts x = Some now).
Proof.
  unfold Dispatch.pod. destruct file as [path|]; [|auto].
  destruct (negb (truthy (Some path))); [auto|].
  destruct (varchar 500 path) as [p|]; [|auto]. cbv zeta.
  assert (H : In x
                (map (fun r =>
                        if Dispatch.for_bill bill_no r
                        then Dispatch.mark_delivered now p r
                        else r) tbl) ->
              In x tbl
              \/ (Dispatch.for_bill bill_no x = true
                  /\ transport.pod_uploaded x = true
                  /\ transport.delivered_ts x = Some now)).
  { intros H. apply in_map_iff in H. destruct H as [r [Hr Hin]].
    destruct (Dispatch.for_bill bill_no r) eqn:E; [|left; congruence].
    right. subst x. auto. }
  destruct (filter (Dispatch.for_bill bill_no) _); [exact H|].
  destruct (tr && _); [auto|exact H].
Qed.

(** The transport release of S-1002 as the release handler stores it,
    picked up at 100. *)
Definition transport_S1002 : transport.row :=
  Dispatch.picked_up 100
    (release_transporter.mk (Some "S-1002"%string) "GP-2" None "disp-1"
       "Speedy Cargo" "LR-77" "MH12AB1234" "Suresh" "9123456780"
       (Some "LICENSE"%string) (Some "4455"%string) 12 None None).

(** X20.  Proof of delivery, [POST /transport/:bill_no/pod].  A request
    without file is answered 400 and one whose file path the column
    refuses 500; with a usable file, a bill without transport release is
    answered 404; all three leave the table as it was.  For a bill that
    has a transport release the outcome depends on the schema: without
    the audit triggers the upload is accepted, the bill's rows are marked
    with the file and delivered now, all other rows are kept, and the
    row returned reads DELIVERED; with the audit triggers of the DDL
    script the UPDATE is undone by the trigger, the answer is 500 and the
    table is as it was.  Either way "a proof of delivery implies a
    delivery time" is kept, and under it [GET /transport/status] never
    shows the status POD_UPLOADED: its count is 0 and the total is the
    sum of IN_TRANSIT and DELIVERED. *)
Theorem pod_marks_delivered :
  forall (audit_triggers : bool) (now : timestamp) (bill_no : string)
         (tbl : list transport.row),
    Dispatch.pod audit_triggers now bill_no None tbl
    = (Dispatch.json_error 400 "POD file required", tbl)
    /\ Dispatch.pod audit_triggers now bill_no (Some EmptyString) tbl
       = (Dispatch.json_error 400 "POD file required", tbl)
    /\ (forall path,
          path <> EmptyString -> varchar 500 path = None ->
          Dispatch.pod audit_triggers now bill_no (Some path) tbl
          = (Dispatch.json_error 500 "Failed to upload POD", tbl))
    /\ (forall path p,
          path <> EmptyString -> varchar 500 path = Some p ->
          (filter (Dispatch.for_bill bill_no) tbl = [] ->
           Dispatch.pod audit_triggers now bill_no (Some path) tbl
           = (Dispatch.json_error 404 "Transport release not found", tbl))
          /\ (forall r rest,
                filter (Dispatch.for_bill bill_no) tbl = r :: rest ->
                Dispatch.pod true now bill_no (Some path) tbl
                = (Dispatch.json_error 500 "Failed to upload POD", tbl)
                /\ Dispatch.pod false now bill_no (Some path) tbl
                   = (Dispatch.pod_saved (Dispatch.mark_delivered now p r),
                      map (fun x =>
                             if Dispatch.for_bill bill_no x
                             then Dispatch.mark_delivered now p x else x)
                        tbl)
                /\ Dispatch.status_of (Dispatch.mark_delivered now p r)
                   = Dispatch.DELIVERED
                /\ In (Dispatch.mark_delivered now p r)
                     (snd (Dispatch.pod false now bill_no (Some path) tbl))))
    /\ (forall file,
          Forall pod_consistent tbl ->
          Forall pod_consistent
            (snd (Dispatch.pod audit_triggers now bill_no file tbl)))
    /\ (forall date bills,
          Forall pod_consistent tbl ->
          Dispatch.pod_uploaded
            (Dispatch.summary_of (Dispatch.transports date bills tbl))
          = 0%nat
          /\ Dispatch.total
               (Dispatch.summary_of (Dispatch.transports date bills tbl))
             = (Dispatch.in_transit
                  (Dispatch.summary_of (Dispatch.transports date bills tbl))
                + Dispatch.delivered
                    (Dispatch.summary_of
                       (Dispatch.transports date bills tbl)))%nat)
    /\ Dispatch.pod false 200 "S-1002" (Some "uploads/pod-1.pdf"%string)
         [transport_S1002]
       = (Dispatch.pod_saved
            (Dispatch.mark_delivered 200 "uploads/pod-1.pdf" transport_S1002),
          [Dispatch.mark_delivered 200 "uploads/pod-1.pdf" transport_S1002])
    /\ Dispatch.pod true 200 "S-1002" (Some "uploads/pod-1.pdf"%string)
         [transport_S1002]
       = (Dispatch.json_error 500 "Failed to upload POD", [transport_S1002]).
Proof.
  intros tr now bill_no tbl.
  split; [reflexivity|]. split; [reflexivity|]. split.
  { intros path Hne Hp. unfold Dispatch.pod.
    replace (negb (truthy (Some path))) with false
      by (cbn [truthy]; apply String.eqb_neq in Hne; rewrite Hne;
          reflexivity).
    rewrite Hp. reflexivity. }
  split.
  { intros path p Hne Hp. split.
    - intros Hf. rewrite (pod_with_file tr now bill_no path p tbl Hne Hp), Hf.
      reflexivity.
    - intros r rest Hf.
      rewrite !(pod_with_file _ now bill_no path p tbl Hne Hp), Hf.
      split; [reflexivity|]. split; [reflexivity|]. split; [reflexivity|].
      cbn [snd]. apply in_map_iff. exists r.
      assert (Hin : In r (filter (Dispatch.for_bill bill_no) tbl))
        by (rewrite Hf; left; reflexivity).
      apply filter_In in Hin. destruct Hin as [Hin Hr]. rewrite Hr.
      split; [reflexivity|exact Hin]. }
  split.
  { intros file H. apply Forall_forall. intros x Hx.
    apply pod_rows in Hx. destruct Hx as [Hx|[_ [_ Hd]]].
    - rewrite Forall_forall in H. apply H. assumption.
    - intros _. rewrite Hd. discriminate. }
  split; [|split; reflexivity].
  intros date bills H.
  assert (Hn : filter (Dispatch.has_status Dispatch.POD_UPLOADED)
                 (Dispatch.transports date bills tbl) = []).
  { destruct (filter (Dispatch.has_status Dispatch.POD_UPLOADED)
                (Dispatch.transports date bills tbl)) as [|row l] eqn:E;
      [reflexivity|].
    assert (Hrow : In row (filter (Dispatch.has_status Dispatch.POD_UPLOADED)
                             (Dispatch.transports date bills tbl)))
      by (rewrite E; left; reflexivity).
    apply filter_In in Hrow. destruct Hrow as [Hin Hst].
    apply transports_rows in Hin. destruct Hin as [Hin Hs].
    rewrite Forall_forall in H. specialize (H _ Hin).
    unfold Dispatch.has_status in Hst. rewrite Hs in Hst.
    unfold Dispatch.status_of, pod_consistent in *.
    destruct (transport.delivered_ts (fst row)); [discriminate|].
    destruct (transport.pod_uploaded (fst row)); [|discriminate].
    exfalso. apply H; reflexivity. }
  unfold Dispatch.summary_of.
  cbn [Dispatch.pod_uploaded Dispatch.total Dispatch.in_transit
         Dispatch.delivered].
  split; [rewrite Hn; reflexivity|].
  rewrite (status_partition (Dispatch.transports date bills tbl)) at 1.
  rewrite Hn. simpl. lia.
Qed.

(** ** The [release_status] view *)

Definition self_of (rs : list release_self.row) (b : bill.row)
  : list release_self.row :=
  filter (fun r => sql_eq (Some (bill.bill_no b)) (release_self.bill_no r)) rs.

Definition transport_of (rt : list transport.row) (b : bill.row)
  : list transport.row :=
  filter (Dispatch.for_bill (bill.bill_no b)) rt.

Lemma left_join_cons {A B : Type} (on : A -> B -> bool) a l r :
  Dispatch.left_join on (a :: l) r
  = Dispatch.left_join on [a] r ++ Dispatch.left_join on l r.
Proof. unfold Dispatch.left_join. simpl. rewrite app_nil_r. reflexivity. Qed.

Lemma left_join_app {A B : Type} (on : A -> B -> bool) l l' r :
  Dispatch.left_join on (l ++ l') r
  = Dispatch.left_join on l r ++ Dispatch.left_join on l' r.
Proof. unfold Dispatch.left_join. apply flat_map_app. Qed.

Lemma release_status_view_cons b bills rs rt :
  Dispatch.release_status_view (b :: bills) rs rt
  = Dispatch.release_status_view [b] rs rt
    ++ Dispatch.release_status_view bills rs rt.
Proof.
  unfold Dispatch.release_status_view.
  rewrite (left_join_cons _ b bills rs), left_join_app, map_app.
  reflexivity.
Qed.

Lemma release_status_view_one b rs rt :
  (List.length (self_of rs b) <= 1)%nat ->
  (List.length (transport_of rt b) <= 1)%nat ->
  Dispatch.release_status_view [b] rs rt
  = [Dispatch.release_status_row
       (b, hd_error (self_of rs b), hd_error (transport_of rt b))].
Proof.
  unfold Dispatch.release_status_view, Dispatch.left_join, self_of,
    transport_of.
  cbn [flat_map]. rewrite app_nil_r.
  destruct (filter _ rs) as [|r [|r' l]]; cbn [List.length]; intros H1;
    try lia;
    cbn [map flat_map fst app];
    (destruct (filter _ rt) as [|t [|t' l']]; cbn [List.length]; intros H2;
     try lia; reflexivity).
Qed.

(** X21.  The [release_status] view under the UNIQUE constraints of the
    release tables (a bill has at most one self release and at most one
    transport release): the view has exactly one row per bill (listed
    here in the order of the bill table; the query fixes no order).  The
    row reads RELEASED_SELF whenever the bill has a self release;
    otherwise DELIVERED or IN_TRANSIT when it has a transport release,
    with or without delivery time; and READY exactly when it has no
    release record of either kind, whatever is due on the bill. *)
Theorem release_status_one_row_per_bill :
  forall bills rs rt,
    (forall b, In b bills ->
       (List.length (self_of rs b) <= 1)%nat
       /\ (List.length (transport_of rt b) <= 1)%nat) ->
    Dispatch.release_status_view bills rs rt
    = map (fun b =>
             Dispatch.release_status_row
               (b, hd_error (self_of rs b), hd_error (transport_of rt b)))
        bills
    /\ map Dispatch.release_status.bill_no
         (Dispatch.release_status_view bills rs rt)
       = map bill.bill_no bills
    /\ Forall2
         (fun b row =>
            (self_of rs b <> [] ->
             Dispatch.release_status.release_status row
             = Dispatch.release_status.RELEASED_SELF)
            /\ (self_of rs b = [] ->
                forall t, In t (transport_of rt b) ->
                  Dispatch.release_status.release_status row
                  = match transport.delivered_ts t with
                    | Some _ => Dispatch.release_status.DELIVERED
                    | None => Dispatch.release_status.IN_TRANSIT
                    end)
            /\ (Dispatch.release_status.release_status row
                = Dispatch.release_status.READY
                <-> self_of rs b = [] /\ transport_of rt b = []))
         bills (Dispatch.release_status_view bills rs rt).
Proof.
  intros bills rs rt H.
  assert (Hv : Dispatch.release_status_view bills rs rt
               = map (fun b =>
                        Dispatch.release_status_row
                          (b, hd_error (self_of rs b),
                           hd_error (transport_of rt b)))
                   bills).
  { induction bills as [|b bills IH]; [reflexivity|].
    rewrite release_status_view_cons.
    destruct (H b (or_introl eq_refl)) as [H1 H2].
    rewrite (release_status_view_one b rs rt H1 H2).
    rewrite IH by (intros x Hx; apply H; right; assumption).
    reflexivity. }
  split; [exact Hv|]. rewrite Hv. split.
  - rewrite map_map. apply map_ext. reflexivity.
  - clear Hv. induction bills as [|b bills IH]; [constructor|].
    cbn [map]. constructor.
    2:{ apply IH. intros x Hx. apply H. right. assumption. }
    destruct (H b (or_introl eq_refl)) as [H1 H2].
    unfold Dispatch.release_status_row.
    cbn [Dispatch.release_status.release_status].
    destruct (self_of rs b) as [|r l]; cbn [hd_error].
    + destruct (transport_of rt b) as [|t [|t' l']]; cbn [hd_error].
      * split; [congruence|]. split; [intros _ t []|].
        split; auto.
      * split; [congruence|]. split.
        -- intros _ t0 [<-|[]]. reflexivity.
        -- destruct (transport.delivered_ts t); split;
             try discriminate; intros [_ E]; discriminate.
      * cbn [List.length] in H2. lia.
    + split; [reflexivity|]. split; [discriminate|].
      split; [discriminate|intros [E _]; discriminate].
Qed.

(** ** The audit trigger *)

Lemma field_absent r name :
  ~ In name (map fst r) -> AuditLog.field r name = None.
Proof.
  induction r as [|[c v] r IH]; [reflexivity|]. cbn [map fst In].
  intros H. cbn [AuditLog.field].
  destruct (String.eqb c name) eqn:E.
  - apply String.eqb_eq in E. exfalso. apply H. left. assumption.
  - apply IH. intros Hin. apply H. right. assumption.
Qed.

Lemma release_columns_have_no_id r :
  map fst r = AuditLog.release_self_columns
  \/ map fst r = AuditLog.release_transporter_columns ->
  AuditLog.field r "id" = None.
Proof.
  intros [H|H]; apply field_absent; rewrite H;
    unfold AuditLog.release_self_columns,
      AuditLog.release_transporter_columns;
    cbn [In]; intros Hin;
    repeat (destruct Hin as [Hin|Hin]; [discriminate Hin|]);
    exact Hin.
Qed.

(** [raises_on] is what [audit_trigger] does: on rows of a table whose
    columns make [raises_on] true, the trigger raises for every
    operation. *)
Lemma raises_on_thrown op tg_table_name old new :
  AuditLog.raises_on (map fst old) = true ->
  AuditLog.raises_on (map fst new) = true ->
  AuditLog.audit_trigger op tg_table_name old new
  = thrown "record has no field id".
Proof.
  assert (H : forall r, AuditLog.raises_on (map fst r) = true ->
                        AuditLog.field r "id" = None).
  { intros r Hr. apply field_absent. intros Hin.
    unfold AuditLog.raises_on in Hr. apply negb_true_iff in Hr.
    assert (Ht : existsb (String.eqb "id") (map fst r) = true).
    { apply existsb_exists. exists "id"%string. split; [exact Hin|].
      apply String.eqb_refl. }
    congruence. }
  intros Ho Hn. apply H in Ho. apply H in Hn.
  destruct op; unfold AuditLog.audit_trigger, AuditLog.log;
    rewrite ?Ho, ?Hn; reflexivity.
Qed.

Definition op_name (op : AuditLog.tg_op) : string :=
  match op with
  | AuditLog.INSERT => "INSERT"
  | AuditLog.UPDATE => "UPDATE"
  | AuditLog.DELETE => "DELETE"
  end.

(** X22.  [audit_trigger()] takes the audited record's key from the field
    [id] of NEW (of OLD for a DELETE).  On a row of [release_self] or of
    [release_transporter], whose key column is [release_id] and which have
    no column [id], it raises for every operation and writes no audit row;
    and so it does on any record without that field.  On a record that has
    a non-null [id] of at most 100 characters, under a table name of at
    most 50, it returns the audit row: that table name, the id, the name
    of the operation, the old values except for an INSERT and the new
    values except for a DELETE. *)
Theorem audit_trigger_reads_id :
  forall op tg_table_name old new,
    ((map fst old = AuditLog.release_self_columns
      /\ map fst new = AuditLog.release_self_columns)
     \/ (map fst old = AuditLog.release_transporter_columns
         /\ map fst new = AuditLog.release_transporter_columns) ->
     AuditLog.audit_trigger op tg_table_name old new
     = thrown "record has no field id")
    /\ (AuditLog.field
          (match op with AuditLog.DELETE => old | _ => new end) "id" = None ->
        AuditLog.audit_trigger op tg_table_name old new
        = thrown "record has no field id")
    /\ (forall id,
          AuditLog.field
            (match op with AuditLog.DELETE => old | _ => new end) "id"
          = Some (Some id) ->
          (String.length id <= 100)%nat ->
          (String.length tg_table_name <= 50)%nat ->
          AuditLog.audit_trigger op tg_table_name old new
          = returned
              (AuditLog.audit_log.mk tg_table_name id (op_name op)
                 (match op with
                  | AuditLog.INSERT => None
                  | _ => Some old
                  end)
                 (match op with
                  | AuditLog.DELETE => None
                  | _ => Some new
                  end))).
Proof.
  intros op t old new. split; [|split].
  - intros H.
    assert (Ho : AuditLog.field old "id" = None)
      by (apply release_columns_have_no_id; tauto).
    assert (Hn : AuditLog.field new "id" = None)
      by (apply release_columns_have_no_id; tauto).
    destruct op; unfold AuditLog.audit_trigger, AuditLog.log;
      rewrite ?Ho, ?Hn; reflexivity.
  - intros H. destruct op; unfold AuditLog.audit_trigger, AuditLog.log;
      rewrite H; reflexivity.
  - intros id H Hid Ht.
    destruct op; unfold AuditLog.audit_trigger, AuditLog.log;
      rewrite H, (varchar_fits 50 t Ht), (varchar_fits 100 id Hid);
      reflexivity.
Qed.

(** ** The migration script *)

Definition no_semicolon (s : string) : bool :=
  all_chars (fun c => negb (Migrate.is_semicolon c)) s.

Lemma all_chars_append p a b :
  all_chars p (a ++ b) = all_chars p a && all_chars p b.
Proof.
  induction a as [|c a IH]; [reflexivity|]. cbn [append all_chars].
  rewrite IH, andb_assoc. reflexivity.
Qed.

Lemma split_semicolon_cur s cur :
  Migrate.split_semicolon s cur
  = match Migrate.split_semicolon s EmptyString with
    | [] => []
    | x :: l => (cur ++ x)%string :: l
    end.
Proof.
  revert cur. induction s as [|c s IH]; intros cur.
  - cbn [Migrate.split_semicolon]. rewrite append_nil_r. reflexivity.
  - cbn [Migrate.split_semicolon]. destruct (Migrate.is_semicolon c).
    + rewrite append_nil_r. reflexivity.
    + rewrite (IH (cur ++ String c EmptyString)%string).
      rewrite (IH (EmptyString ++ String c EmptyString)%string).
      destruct (Migrate.split_semicolon s EmptyString); [reflexivity|].
      cbn [append]. rewrite ?append_assoc. reflexivity.
Qed.

Lemma split_semicolon_not_nil s cur : Migrate.split_semicolon s cur <> [].
Proof.
  revert cur. induction s as [|c s IH]; intros cur;
    cbn [Migrate.split_semicolon]; [discriminate|].
  destruct (Migrate.is_semicolon c); [discriminate|apply IH].
Qed.

Lemma split_semicolon_piece s :
  no_semicolon s = true -> Migrate.split_semicolon s EmptyString = [s].
Proof.
  induction s as [|c s IH]; [reflexivity|].
  unfold no_semicolon. cbn [all_chars Migrate.split_semicolon].
  intros H. apply andb_prop in H. destruct H as [Hc Hs].
  apply negb_true_iff in Hc. rewrite Hc.
  rewrite split_semicolon_cur, (IH Hs). reflexivity.
Qed.

Lemma split_semicolon_append a b :
  Migrate.split_semicolon (a ++ ";" ++ b) EmptyString
  = Migrate.split_semicolon a EmptyString
    ++ Migrate.split_semicolon b EmptyString.
Proof.
  induction a as [|c a IH].
  - reflexivity.
  - cbn [append Migrate.split_semicolon].
    destruct (Migrate.is_semicolon c).
    + cbn [app]. f_equal. exact IH.
    + rewrite split_semicolon_cur.
      rewrite (split_semicolon_cur a (String c EmptyString)).
      cbn [append] in IH. rewrite IH.
      pose proof (split_semicolon_not_nil a EmptyString) as Hne.
      destruct (Migrate.split_semicolon a EmptyString); [congruence|].
      reflexivity.
Qed.

Lemma split_semicolon_pieces s cur x :
  no_semicolon cur = true ->
  In x (Migrate.split_semicolon s cur) -> no_semicolon x = true.
Proof.
  revert cur. induction s as [|c s IH]; intros cur Hcur;
    cbn [Migrate.split_semicolon].
  - intros [<-|[]]. assumption.
  - destruct (Migrate.is_semicolon c) eqn:E.
    + intros [<-|Hin]; [assumption|]. apply (IH EmptyString); auto.
    + apply IH. unfold no_semicolon. rewrite all_chars_append.
      fold (no_semicolon cur). rewrite Hcur. cbn [all_chars]. rewrite E.
      reflexivity.
Qed.

Lemma all_chars_drop_while p q s :
  all_chars p s = true -> all_chars p (drop_while q s) = true.
Proof.
  induction s as [|c s IH]; [reflexivity|]. cbn [drop_while].
  destruct (q c); [|tauto]. cbn [all_chars]. intros H.
  apply andb_prop in H. apply IH. tauto.
Qed.

Lemma all_chars_trimEnd p s :
  all_chars p s = true -> all_chars p (Migrate.trimEnd s) = true.
Proof.
  induction s as [|c s IH]; [reflexivity|].
  cbn [all_chars Migrate.trimEnd]. intros H. apply andb_prop in H.
  destruct H as [Hc Hs]. specialize (IH Hs).
  destruct (Migrate.trimEnd s).
  - destruct (is_space c); [reflexivity|]. cbn [all_chars]. rewrite Hc.
    reflexivity.
  - cbn [all_chars]. cbn [all_chars] in IH. rewrite Hc, IH. reflexivity.
Qed.

Lemma trimEnd_cons c s :
  is_space c = false ->
  Migrate.trimEnd (String c s) = String c (Migrate.trimEnd s).
Proof.
  intros H. cbn [Migrate.trimEnd]. rewrite H.
  destruct (Migrate.trimEnd s); reflexivity.
Qed.

Lemma drop_while_all p ws s :
  all_chars p ws = true -> drop_while p (ws ++ s) = drop_while p s.
Proof.
  induction ws as [|c ws IH]; [reflexivity|]. cbn [all_chars append].
  intros H. apply andb_prop in H. destruct H as [Hc Hw].
  cbn [drop_while]. rewrite Hc. apply IH. assumption.
Qed.

Lemma drop_while_stop p c s :
  p c = false -> drop_while p (String c s) = String c s.
Proof. intros H. cbn [drop_while]. rewrite H. reflexivity. Qed.

Lemma includes_semicolon s :
  no_semicolon s = true -> includes s ";" = false.
Proof.
  induction s as [|c s IH]; [reflexivity|].
  unfold no_semicolon. cbn [all_chars includes]. intros H.
  apply andb_prop in H. destruct H as [Hc Hs].
  rewrite (IH Hs), orb_false_r. cbn [String.prefix].
  destruct (Ascii.ascii_dec _ c) as [<-|]; [discriminate Hc|reflexivity].
Qed.

(** X23.  What [runMigration] sends to the database (schema text taken as
    ASCII).  The schema is cut at every semicolon and each piece is
    handled on its own, so no text sent contains a semicolon: a statement
    with semicolons inside, such as a function with a body, is never sent
    whole.  Every text sent is non-empty and starts with something other
    than two dashes.  A piece whose first non-blank characters are two
    dashes is dropped whole, together with whatever statement follows
    the comment up to the next semicolon. *)
Theorem migrate_statements :
  forall a b,
    Migrate.statements (a ++ ";" ++ b)
    = Migrate.statements a ++ Migrate.statements b
    /\ (forall s, In s (Migrate.statements a) ->
          includes s ";" = false
          /\ s <> EmptyString
          /\ String.prefix "--" s = false
          /\ includes s "CREATE DATABASE" = false
          /\ includes s "COMMENT ON DATABASE" = false)
    /\ (forall ws rest,
          all_chars is_space ws = true ->
          no_semicolon rest = true ->
          Migrate.statements (ws ++ "--" ++ rest) = [])
    /\ Migrate.statements
         "CREATE TABLE a (x INT);

-- Users
CREATE TABLE users (id INT);
CREATE FUNCTION f() RETURNS INT AS $$ BEGIN RETURN 1; END; $$ LANGUAGE plpgsql;
"
       = ["CREATE TABLE a (x INT)";
          "CREATE FUNCTION f() RETURNS INT AS $$ BEGIN RETURN 1";
          "END";
          "$$ LANGUAGE plpgsql"]%string.
Proof.
  intros a b. split; [|split; [|split]].
  - unfold Migrate.statements.
    rewrite split_semicolon_append, map_app, !filter_app. reflexivity.
  - intros s Hin. unfold Migrate.statements in Hin.
    apply filter_In in Hin. destruct Hin as [Hin H3].
    apply filter_In in Hin. destruct Hin as [Hin H2].
    apply filter_In in Hin. destruct Hin as [Hin H1].
    apply andb_prop in H1. destruct H1 as [Hlen Hpre].
    apply negb_true_iff in Hpre, H2, H3.
    apply in_map_iff in Hin. destruct Hin as [x [<- Hx]].
    split; [|split; [|tauto]].
    + apply includes_semicolon. unfold Migrate.trim, no_semicolon.
      apply all_chars_trimEnd, all_chars_drop_while.
      apply (split_semicolon_pieces a EmptyString x); [reflexivity|exact Hx].
    + intros E. rewrite E in Hlen. discriminate.
  - intros ws rest Hws Hrest. unfold Migrate.statements.
    rewrite split_semicolon_piece.
    2:{ assert (Hw : no_semicolon ws = true).
        2:{ unfold no_semicolon in *. rewrite !all_chars_append.
            rewrite Hw, Hrest. reflexivity. }
        unfold no_semicolon.
        clear -Hws. induction ws as [|c ws IH]; [reflexivity|].
        cbn [all_chars] in *. apply andb_prop in Hws.
        destruct Hws as [Hc Hw]. rewrite (IH Hw), andb_true_r.
        unfold is_space, Migrate.is_semicolon, char_in in *.
        destruct (Ascii.nat_of_ascii c <=? 13)%nat eqn:E1.
        - apply Nat.leb_le in E1.
          replace (59 <=? Ascii.nat_of_ascii c)%nat with false
            by (symmetry; apply Nat.leb_gt; lia).
          reflexivity.
        - rewrite andb_false_r in Hc. cbn [orb] in Hc.
          apply andb_prop in Hc. destruct Hc as [_ Hc].
          apply Nat.leb_le in Hc.
          replace (59 <=? Ascii.nat_of_ascii c)%nat with false
            by (symmetry; apply Nat.leb_gt; lia).
          reflexivity. }
    cbn [map]. unfold Migrate.trim.
    rewrite (drop_while_all is_space ws _ Hws).
    cbn [append].
    rewrite drop_while_stop by reflexivity.
    rewrite !trimEnd_cons by reflexivity.
    cbn [filter String.length Nat.ltb Nat.leb andb].
    replace (String.prefix "--" _) with true
      by (destruct (Migrate.trimEnd rest); reflexivity).
    reflexivity.
  - vm_compute. reflexivity.
Qed.

(** ** Deposit batches *)

Definition in_batch (batch_id : string) (c : cheque_register.row) : bool :=
  sql_eq (cheque_register.deposit_batch_id c) (Some batch_id).

Lemma deposit_in_batch new_id ids cheques :
  (forall c, In c cheques -> in_batch new_id c = false) ->
  map cheque_register.amount
    (filter (in_batch new_id) (map (Admin.deposit new_id ids) cheques))
  = map cheque_register.amount (filter (Admin.pending_in ids) cheques).
Proof.
  induction cheques as [|c l IH]; intros H; [reflexivity|].
  cbn [map filter].
  specialize (IH (fun x Hx => H x (or_intror Hx))).
  destruct (Admin.pending_in ids c) eqn:E.
  - replace (Admin.deposit new_id ids c)
      with (cheque_register.mk (cheque_register.id c)
              (cheque_register.amount c)
              (Some cheque_register.DEPOSITED) (Some new_id))
      by (unfold Admin.deposit; rewrite E; reflexivity).
    unfold in_batch at 1.
    cbn [cheque_register.deposit_batch_id sql_eq].
    rewrite String.eqb_refl. cbn [map cheque_register.amount].
    rewrite IH. reflexivity.
  - replace (Admin.deposit new_id ids c) with c
      by (unfold Admin.deposit; rewrite E; reflexivity).
    rewrite (H c (or_introl eq_refl)). exact IH.
Qed.

Lemma deposit_id new_id ids cheques :
  map cheque_register.id (map (Admin.deposit new_id ids) cheques)
  = map cheque_register.id cheques
  /\ map cheque_register.amount (map (Admin.deposit new_id ids) cheques)
     = map cheque_register.amount cheques.
Proof.
  rewrite !map_map. split; apply map_ext; intros c; unfold Admin.deposit;
    destruct (Admin.pending_in ids c); reflexivity.
Qed.

Lemma deposit_none new_id ids cheques :
  filter (Admin.pending_in ids) cheques = [] ->
  map (Admin.deposit new_id ids) cheques = cheques.
Proof.
  induction cheques as [|c l IH]; [reflexivity|]. cbn [filter map].
  unfold Admin.deposit at 1.
  destruct (Admin.pending_in ids c); [discriminate|].
  intros H. rewrite (IH H). reflexivity.
Qed.

(** X24.  POST /cheques/deposit-batch, one request at a time, with a
    batch id no cheque refers to yet.  A refused request (no cheque ids,
    or a batch row the table refuses) changes neither table.  An accepted
    one appends one batch whose [total_cheque] is exactly the sum of the
    cheques that refer to the batch afterwards; those are the cheques of
    the list that were PENDING, now DEPOSITED, while every other cheque,
    and every cheque's id and amount, stay as they were.  The reported
    [chequesUpdated] is the length of the id list, whatever was updated:
    when no listed id is a pending cheque the batch is still created,
    with total 0 and no cheque changed. *)
Theorem deposit_batch_total :
  forall new_id user req cheques batches cheques' batches' resp,
    (forall c, In c cheques -> in_batch new_id c = false) ->
    Admin.deposit_batch_route new_id user req cheques batches
    = ((cheques', batches'), resp) ->
    match resp with
    | Admin.json_error _ _ => cheques' = cheques /\ batches' = batches
    | Admin.batch_created batch n total =>
        exists ids,
          Admin.cheque_ids req = Some ids
          /\ batches' = batches ++ [batch]
          /\ deposit_batch.id batch = new_id
          /\ deposit_batch.total_cheque batch = total
          /\ total
             = Session.sum_money
                 (map cheque_register.amount
                    (filter (in_batch new_id) cheques'))
          /\ (forall c', In c' cheques' -> in_batch new_id c' = true ->
                cheque_register.status c' = Some cheque_register.DEPOSITED
                /\ exists c, In c cheques
                     /\ Admin.pending_in ids c = true
                     /\ cheque_register.id c' = cheque_register.id c)
          /\ (forall c, In c cheques -> Admin.pending_in ids c = false ->
                In c cheques')
          /\ map cheque_register.id cheques' = map cheque_register.id cheques
          /\ map cheque_register.amount cheques'
             = map cheque_register.amount cheques
          /\ n = List.length ids
          /\ (filter (Admin.pending_in ids) cheques = [] ->
              total = 0 /\ cheques' = cheques)
    end.
Proof.
  intros new_id user req cheques batches cheques' batches' resp Hfresh.
  unfold Admin.deposit_batch_route.
  destruct (Admin.cheque_ids req) as [[|i ids]|] eqn:Eids;
    try (intros H; injection H as <- <- <-; split; reflexivity).
  set (l := i :: ids) in *.
  destruct (Admin.insert_batch _ _ _ _) as [batch|msg] eqn:Eb;
    intros H; injection H as <- <- <-; [|split; reflexivity].
  exists l. split; [reflexivity|]. split; [reflexivity|].
  assert (Hb : deposit_batch.id batch = new_id
               /\ deposit_batch.total_cheque batch
                  = Session.sum_money
                      (map cheque_register.amount
                         (filter (Admin.pending_in l) cheques))).
  { unfold Admin.insert_batch in Eb.
    destruct (Admin.bank_name req); [|discriminate].
    destruct (Admin.deposit_date req); [|discriminate].
    destruct (varchar 100 s); [|discriminate].
    injection Eb as <-. split; reflexivity. }
  destruct Hb as [Hb1 Hb2].
  split; [exact Hb1|]. split; [exact Hb2|].
  split; [rewrite (deposit_in_batch new_id l cheques Hfresh); reflexivity|].
  split.
  { intros c' Hin Hc'. apply in_map_iff in Hin.
    destruct Hin as [c [<- Hc]]. unfold Admin.deposit in *.
    destruct (Admin.pending_in l c) eqn:E.
    - split; [reflexivity|]. exists c. repeat split; assumption.
    - rewrite (Hfresh c Hc) in Hc'. discriminate. }
  split.
  { intros c Hc E. apply in_map_iff. exists c. split; [|assumption].
    unfold Admin.deposit. rewrite E. reflexivity. }
  destruct (deposit_id new_id l cheques) as [Hi Ha].
  split; [exact Hi|]. split; [exact Ha|]. split; [reflexivity|].
  intros Hnone. rewrite Hnone. split; [reflexivity|].
  apply deposit_none. assumption.
Qed.

(** ** The properties above at concrete inputs *)

Lemma autoMapReceipts_count_witness :
  NoDup (map receipt.receipt_id (t_receipt (fifo_store 10 20 30 500 None)))
  /\ snd (TallyXMLETL.autoMapReceipts (fifo_store 10 20 30 500 None))
     = count_unlinked is_null (t_receipt (fifo_store 10 20 30 500 None))
       - count_unlinked is_null
           (t_receipt
              (fst (TallyXMLETL.autoMapReceipts
                      (fifo_store 10 20 30 500 None)))).
Proof.
  assert (H : NoDup (map receipt.receipt_id
                       (t_receipt (fifo_store 10 20 30 500 None))))
    by (constructor; [intros []|constructor]).
  split; [exact H|].
  exact (proj1 (autoMapReceipts_count numeric_as_number
                  (fifo_store 10 20 30 500 None) H)).
Defined.


Lemma map_receipt_moves_amount_witness :
  remaining_due_of
    (snd (TallySync.map_receipt (Some "R-1"%string) (Some "B2"%string)
            (fifo_store 10 20 30 500 (Some "B1"%string))))
    (bill.mk "B1" 10 "Acme Traders" (units 500) 0 0)
  = remaining_due_of (fifo_store 10 20 30 500 (Some "B1"%string))
      (bill.mk "B1" 10 "Acme Traders" (units 500) 0 0)
    + units 500 - 0.
Proof.
  refine (proj2 (map_receipt_moves_amount
                   (fifo_store 10 20 30 500 (Some "B1"%string))
                   (fifo_receipt 30 500 (Some "B1"%string)) "B2"
                   (bill.mk "B1" 10 "Acme Traders" (units 500) 0 0)
                   _ _ _ _ _)).
  - constructor; [intros []|constructor].
  - left. reflexivity.
  - discriminate.
  - discriminate.
  - left. reflexivity.
Defined.

Lemma release_routes_read_no_bill_number_witness :
  Release.serve_all demo_bcrypt true
    [Release.self
       (Release.mk_request true (release_body "S-1001" "GP-1" None false)
          "disp-1" None None);
     Release.transporter
       (Release.mk_request true
          (release_body "S-1002" "GP-2" (Some "4321"%string) false)
          "disp-1" None None)]
    release_store
  = ([Release.json_error 404 "Bill not found";
      Release.json_error 404 "Bill not found"], release_store).
Proof.
  refine (release_routes_read_no_bill_number demo_bcrypt true
            [Release.self
               (Release.mk_request true
                  (release_body "S-1001" "GP-1" None false)
                  "disp-1" None None);
             Release.transporter
               (Release.mk_request true
                  (release_body "S-1002" "GP-2" (Some "4321"%string) false)
                  "disp-1" None None)]
            release_store _).
  repeat constructor.
Defined.

Lemma createOTP_then_verifyOTP_witness :
  OTPService.generateOTP 123456 = "123456"%string
  /\ snd (OTPService.verifyOTP 500000 (Some "S-1002"%string)
            (Some "123456"%string)
            (fst (OTPService.createOTP 123456 1000 1000 "otp-1"
                    (t_bill release_store) (Some "S-1002"%string)
                    (Some "9876543210"%string) [])))
     = OTPService.valid "9876543210".
Proof.
  split; [reflexivity|].
  refine (proj1 (proj1 (proj2 (proj2
            (createOTP_then_verifyOTP 123456 1000 1000 "otp-1"
               (t_bill release_store) "S-1002" "9876543210" [] _ _ _ _)))
            500000 _)).
  - lia.
  - right. left. reflexivity.
  - simpl. lia.
  - intros [].
  - lia.
Defined.

(** Two cheques, one pending and one deposited before, and a request to
    deposit both. *)
Definition deposit_cheques : list cheque_register.row :=
  [cheque_register.mk "chq-1" (units 50) (Some cheque_register.PENDING) None;
   cheque_register.mk "chq-2" (units 70) (Some cheque_register.DEPOSITED)
     (Some "batch-0"%string)].

Definition deposit_request : Admin.request :=
  Admin.mk_request (Some "State Bank"%string) (Some 30) None
    (Some ["chq-1"; "chq-2"]%string).

Lemma deposit_batch_total_witness :
  exists batch,
    snd (Admin.deposit_batch_route "batch-1" "mgr-1" deposit_request
           deposit_cheques [])
    = Admin.batch_created batch 2 (units 50)
    /\ units 50
       = Session.sum_money
           (map cheque_register.amount
              (filter (in_batch "batch-1")
                 (fst (fst (Admin.deposit_batch_route "batch-1" "mgr-1"
                              deposit_request deposit_cheques []))))).
Proof.
  eexists. split; [reflexivity|].
  assert (Hfresh : forall c, In c deposit_cheques ->
                     in_batch "batch-1" c = false)
    by (intros c [<-|[<-|[]]]; reflexivity).
  pose proof (deposit_batch_total "batch-1" "mgr-1" deposit_request
                deposit_cheques [] _ _ _ Hfresh eq_refl) as H.
  destruct H as [ids [_ [_ [_ [_ [H _]]]]]].
  exact H.
Defined.

Lemma release_status_one_row_per_bill_witness :
  Dispatch.release_status_view (t_bill release_store)
    (t_release_self released_store) []
  = [Dispatch.release_status.mk "S-1001"
       Dispatch.release_status.RELEASED_SELF (Some "disp-1"%string);
     Dispatch.release_status.mk "S-1002"
       Dispatch.release_status.READY None].
Proof.
  refine (eq_trans
            (proj1 (release_status_one_row_per_bill (t_bill release_store)
                      (t_release_self released_store) [] _))
            _).
  - intros b [<-|[<-|[]]]; split; vm_compute; lia.
  - reflexivity.
Defined.
